(** * TMJ registration backend: optimizer, descriptor and metric

    Shallow embedding of the Gauss-Newton / Levenberg-Marquardt optimizer
    (GaussNewtonOptimizer.cpp / GaussNewtonOptimizer.h) and of the MIND
    metric (MINDMetric.cpp / MINDMetric.h), with the properties stated
    for them.

    Numeric models.
    - [GaussNewton]: a C++ [double] is a binary64 value of [PrimFloat];
      comparisons, [abs], [sqrt] and the four operations are the IEEE ones,
      so every branch of the optimizer is decided as the compiled code
      decides it (NaN included).
    - [MIND]: [float]/[double] pixel and cost values are real numbers
      ([R]); rounding, overflow and NaN are outside that model. *)

From Stdlib Require Import Floats List ZArith NArith Bool Lia Reals Lra Psatz.
From Stdlib Require Import Sorted.
Import ListNotations.
Set Warnings "-inexact-float".

(* ====================================================================== *)
(** ** GaussNewtonOptimizer *)
(* ====================================================================== *)

Module GaussNewton.

Open Scope float_scope.

Definition ParametersType := list float.
Definition ResidualVectorType := list float.
(** row-major: [sample][param] *)
Definition JacobianMatrixType := list (list float).
(** Eigen::VectorXd and Eigen::MatrixXd (row-major list of rows). *)
Definition VectorXd := list float.
Definition MatrixXd := list (list float).

Inductive StopCondition : Set :=
  | MAXIMUM_ITERATIONS
  | STEP_TOO_SMALL
  | GRADIENT_TOO_SMALL
  | CONVERGED
  | SINGULAR_MATRIX.

Definition StopCondition_eqb (a b : StopCondition) : bool :=
  match a, b with
  | MAXIMUM_ITERATIONS, MAXIMUM_ITERATIONS
  | STEP_TOO_SMALL, STEP_TOO_SMALL
  | GRADIENT_TOO_SMALL, GRADIENT_TOO_SMALL
  | CONVERGED, CONVERGED
  | SINGULAR_MATRIX, SINGULAR_MATRIX => true
  | _, _ => false
  end.

(** std::numeric_limits<double>::max() *)
Definition DBL_MAX : float := 0x1.fffffffffffffp+1023.

(** std::max(a, b) is [(a < b) ? b : a]; std::min(a, b) is [(b < a) ? b : a]. *)
Definition std_max (a b : float) : float := if a <? b then b else a.
Definition std_min (a b : float) : float := if b <? a then b else a.

(** The members set through the setters and never written by a step. *)
Record Settings : Set := {
  m_LearningRate : float;
  m_MinimumStepLength : float;
  m_NumberOfIterations : nat;
  m_RelaxationFactor : float;
  m_GradientMagnitudeTolerance : float;
  m_ReturnBestParameters : bool;
  m_NumberOfParameters : nat;
  m_Scales : ParametersType;
  m_MaxParameterUpdate : ParametersType;
  m_UseLevenbergMarquardt : bool;
  m_UseLineSearch : bool;
  m_LineSearchMaxIterations : nat;
  m_LineSearchShrinkFactor : float
}.

(** The members a step reads and writes, together with [q], the parameter
    vector held by the caller: [m_GetParameters()] reads [q] and
    [m_SetParameters(p)] overwrites it with [p]. *)
Record State : Set := {
  q : ParametersType;
  m_DampingFactor : float;
  m_CurrentValue : float;
  m_BestValue : float;
  m_CurrentIteration : nat;
  m_CurrentStepLength : float;
  m_PreviousValue : float;
  m_PreviousParameters : ParametersType;
  m_BestParameters : ParametersType;
  m_StopCondition : StopCondition
}.

Definition SetParameters (p : ParametersType) (s : State) : State :=
  {| q := p;
     m_DampingFactor := m_DampingFactor s;
     m_CurrentValue := m_CurrentValue s;
     m_BestValue := m_BestValue s;
     m_CurrentIteration := m_CurrentIteration s;
     m_CurrentStepLength := m_CurrentStepLength s;
     m_PreviousValue := m_PreviousValue s;
     m_PreviousParameters := m_PreviousParameters s;
     m_BestParameters := m_BestParameters s;
     m_StopCondition := m_StopCondition s |}.

Definition set_StopCondition (c : StopCondition) (s : State) : State :=
  {| q := q s;
     m_DampingFactor := m_DampingFactor s;
     m_CurrentValue := m_CurrentValue s;
     m_BestValue := m_BestValue s;
     m_CurrentIteration := m_CurrentIteration s;
     m_CurrentStepLength := m_CurrentStepLength s;
     m_PreviousValue := m_PreviousValue s;
     m_PreviousParameters := m_PreviousParameters s;
     m_BestParameters := m_BestParameters s;
     m_StopCondition := c |}.

Definition set_Previous (p : ParametersType) (v : float) (s : State) : State :=
  {| q := q s;
     m_DampingFactor := m_DampingFactor s;
     m_CurrentValue := m_CurrentValue s;
     m_BestValue := m_BestValue s;
     m_CurrentIteration := m_CurrentIteration s;
     m_CurrentStepLength := m_CurrentStepLength s;
     m_PreviousValue := v;
     m_PreviousParameters := p;
     m_BestParameters := m_BestParameters s;
     m_StopCondition := m_StopCondition s |}.

Definition set_Current (v step : float) (s : State) : State :=
  {| q := q s;
     m_DampingFactor := m_DampingFactor s;
     m_CurrentValue := v;
     m_BestValue := m_BestValue s;
     m_CurrentIteration := m_CurrentIteration s;
     m_CurrentStepLength := step;
     m_PreviousValue := m_PreviousValue s;
     m_PreviousParameters := m_PreviousParameters s;
     m_BestParameters := m_BestParameters s;
     m_StopCondition := m_StopCondition s |}.

Definition set_Best (v : float) (p : ParametersType) (s : State) : State :=
  {| q := q s;
     m_DampingFactor := m_DampingFactor s;
     m_CurrentValue := m_CurrentValue s;
     m_BestValue := v;
     m_CurrentIteration := m_CurrentIteration s;
     m_CurrentStepLength := m_CurrentStepLength s;
     m_PreviousValue := m_PreviousValue s;
     m_PreviousParameters := m_PreviousParameters s;
     m_BestParameters := p;
     m_StopCondition := m_StopCondition s |}.

Definition set_DampingFactor (d : float) (s : State) : State :=
  {| q := q s;
     m_DampingFactor := d;
     m_CurrentValue := m_CurrentValue s;
     m_BestValue := m_BestValue s;
     m_CurrentIteration := m_CurrentIteration s;
     m_CurrentStepLength := m_CurrentStepLength s;
     m_PreviousValue := m_PreviousValue s;
     m_PreviousParameters := m_PreviousParameters s;
     m_BestParameters := m_BestParameters s;
     m_StopCondition := m_StopCondition s |}.

Definition set_CurrentIteration (i : nat) (s : State) : State :=
  {| q := q s;
     m_DampingFactor := m_DampingFactor s;
     m_CurrentValue := m_CurrentValue s;
     m_BestValue := m_BestValue s;
     m_CurrentIteration := i;
     m_CurrentStepLength := m_CurrentStepLength s;
     m_PreviousValue := m_PreviousValue s;
     m_PreviousParameters := m_PreviousParameters s;
     m_BestParameters := m_BestParameters s;
     m_StopCondition := m_StopCondition s |}.

(** *** Vectors and matrices *)

(** [v[i]] of a std::vector or Eigen vector.  The source reads only
    indices it takes to be in range; outside the range the model reads 0. *)
Definition at_ (v : list float) (i : nat) : float := nth i v 0.

(** [for (i = 0; i < n; ++i) out[i] = f(i)] *)
Definition tabulate {A : Type} (n : nat) (f : nat -> A) : list A :=
  map f (seq 0 n).

(** [acc = 0.0; for (i = 0; i < n; ++i) acc += f(i)] *)
Definition sum_to (n : nat) (f : nat -> float) : float :=
  fold_left (fun acc i => acc + f i) (seq 0 n) 0.

(** [(j < m_Scales.size()) ? m_Scales[j] : 1.0] *)
Definition scale_of (scales : ParametersType) (j : nat) : float :=
  if (j <? length scales)%nat then at_ scales j else 1.

(** The LDLT object of Eigen: [info() == Success], [isPositive()] and
    [solve].  The factorization itself is Eigen's, not this repository's,
    so it is a parameter of the development. *)
Record LDLT : Set := {
  info_Success : bool;
  isPositive : bool;
  solve : VectorXd -> VectorXd
}.

(** [A(i,i) = g(A(i,i))] for every [i]. *)
Fixpoint update_nth (i : nat) (g : float -> float) (row : list float)
  : list float :=
  match row, i with
  | [], _ => []
  | x :: t, O => g x :: t
  | x :: t, S i' => x :: update_nth i' g t
  end.

Fixpoint map_diag_from (k : nat) (g : float -> float) (A : MatrixXd)
  : MatrixXd :=
  match A with
  | [] => []
  | row :: rest => update_nth k g row :: map_diag_from (S k) g rest
  end.

Definition map_diag (g : float -> float) (A : MatrixXd) : MatrixXd :=
  map_diag_from 0 g A.

(** [A(i,j)] *)
Definition coeff (A : MatrixXd) (i j : nat) : float := at_ (nth i A []) j.

(** [u.allFinite()] *)
Definition allFinite (u : VectorXd) : bool := forallb is_finite u.

(** [J.transpose() * J] and [J.transpose() * f] for an m-by-n [J]; the sums
    run over the rows in index order. *)
Definition JtJ_of (m n : nat) (J : MatrixXd) : MatrixXd :=
  tabulate n (fun a => tabulate n (fun b =>
    sum_to m (fun i => coeff J i a * coeff J i b))).

Definition Jtf_of (m n : nat) (J : MatrixXd) (f : VectorXd) : VectorXd :=
  tabulate n (fun a => sum_to m (fun i => coeff J i a * at_ f i)).

(** *** The optimizer's methods *)

Section Methods.

(** Eigen::LDLT<MatrixXd> ldlt(A) *)
Variable ldlt : MatrixXd -> LDLT.
Variable cfg : Settings.
(** The callbacks; each reads the parameter vector the caller holds. *)
Variable m_CostFunction : ParametersType -> float.
Variable m_GradientFunction : option (ParametersType -> ParametersType).
Variable m_ResidualFunction : ParametersType -> ResidualVectorType.
Variable m_JacobianFunction : ParametersType -> JacobianMatrixType.

(** The matrix [A] factorized first: [JtJ], with
    [A(i,i) += m_DampingFactor * (JtJ(i,i) + 1e-6)] under Levenberg-Marquardt. *)
Definition damped_matrix (lambda : float) (JtJ : MatrixXd) : MatrixXd :=
  if m_UseLevenbergMarquardt cfg
  then map_diag (fun a => a + lambda * (a + 1e-6)) JtJ
  else JtJ.

(** The matrix [A2] of the retry: [A2(i,i) = JtJ(i,i) + strongDamping]. *)
Definition retry_matrix (lambda : float) (JtJ : MatrixXd) : MatrixXd :=
  let strongDamping := std_max (lambda * 10.0) 1e-3 in
  map_diag (fun a => a + strongDamping) JtJ.

(** GaussNewtonOptimizer::SolveNormalEquations; [None] is [return false]. *)
Definition SolveNormalEquations (lambda : float) (JtJ : MatrixXd)
    (Jtf : VectorXd) : option VectorXd :=
  let ldlt1 := ldlt (damped_matrix lambda JtJ) in
  if negb (info_Success ldlt1) then None
  else
    let solved :=
      if negb (isPositive ldlt1) then
        let ldlt2 := ldlt (retry_matrix lambda JtJ) in
        if negb (info_Success ldlt2) || negb (isPositive ldlt2)
        then None
        else Some (solve ldlt2 (map PrimFloat.opp Jtf))
      else Some (solve ldlt1 (map PrimFloat.opp Jtf)) in
    match solved with
    | None => None
    | Some u => if negb (allFinite u) then None else Some u
    end.

(** The two factorizations, whether a retry takes place, whether it
    fails, and the solution the method goes on to test with [allFinite]. *)
Definition first_factorization (lambda : float) (JtJ : MatrixXd) : LDLT :=
  ldlt (damped_matrix lambda JtJ).

Definition retry_factorization (lambda : float) (JtJ : MatrixXd) : LDLT :=
  ldlt (retry_matrix lambda JtJ).

Definition retried (lambda : float) (JtJ : MatrixXd) : bool :=
  info_Success (first_factorization lambda JtJ)
  && negb (isPositive (first_factorization lambda JtJ)).

Definition retry_fails (lambda : float) (JtJ : MatrixXd) : bool :=
  negb (info_Success (retry_factorization lambda JtJ))
  || negb (isPositive (retry_factorization lambda JtJ)).

Definition solution (lambda : float) (JtJ : MatrixXd) (Jtf : VectorXd)
  : VectorXd :=
  if isPositive (first_factorization lambda JtJ)
  then solve (first_factorization lambda JtJ) (map PrimFloat.opp Jtf)
  else solve (retry_factorization lambda JtJ) (map PrimFloat.opp Jtf).

(** GaussNewtonOptimizer::ComputeScaledUpdateMagnitude *)
Definition ComputeScaledUpdateMagnitude (update : ParametersType) : float :=
  PrimFloat.sqrt (sum_to (length update) (fun i =>
          let scaled := at_ update i / scale_of (m_Scales cfg) i in
          scaled * scaled)).

(** GaussNewtonOptimizer::ClampUpdate *)
Definition ClampUpdate (update : ParametersType) : ParametersType :=
  tabulate (length update) (fun i =>
    let ui := at_ update i in
    if (i <? length (m_MaxParameterUpdate cfg))%nat then
      let maxUpdate := at_ (m_MaxParameterUpdate cfg) i in
      if maxUpdate <? PrimFloat.abs ui
      then (if 0 <? ui then maxUpdate else - maxUpdate)
      else ui
    else ui).

(** [newParams[i] = currentParams[i] - alpha * direction[i]], [i < n] *)
Definition stepped (n : nat) (currentParams direction : ParametersType)
    (alpha : float) : ParametersType :=
  tabulate n (fun i => at_ currentParams i - alpha * at_ direction i).

(** The backtracking loop of LineSearch with [iters] iterations left:
    the step factor returned and the parameter vector left behind
    (both exits restore [currentParams]). *)
Fixpoint backtrack (iters : nat) (currentParams direction : ParametersType)
    (initialValue dirGrad alpha : float) : float :=
  match iters with
  | O => alpha
  | S k =>
      let newParams :=
        stepped (m_NumberOfParameters cfg) currentParams direction alpha in
      let newValue := m_CostFunction newParams in
      if newValue <=? initialValue + 1e-4 * alpha * dirGrad
      then alpha
      else backtrack k currentParams direction initialValue dirGrad
             (alpha * m_LineSearchShrinkFactor cfg)
  end.

(** The inner product LineSearch forms before the loop. *)
Definition dirGrad_of (s : State) (direction : ParametersType) : float :=
  let gradient :=
    match m_GradientFunction with
    | Some g => g (q s)
    | None => repeat 0 (m_NumberOfParameters cfg)
    end in
  sum_to (m_NumberOfParameters cfg)
    (fun i => at_ gradient i * at_ direction i).

(** GaussNewtonOptimizer::LineSearch: the factor returned and the state
    after the calls of [m_SetParameters]. *)
Definition LineSearch (s : State) (currentParams direction : ParametersType)
    (initialValue : float) : float * State :=
  let dirGrad := dirGrad_of s direction in
  if 0 <=? dirGrad then (0.1, s)
  else
    (backtrack (m_LineSearchMaxIterations cfg) currentParams direction
       initialValue dirGrad 1.0,
     SetParameters currentParams s).

(** The test that closes AdvanceOneStep. *)
Definition convergence_check (s : State) : State :=
  let relativeImprovement :=
    PrimFloat.abs (m_PreviousValue s - m_CurrentValue s)
    / (PrimFloat.abs (m_PreviousValue s) + 1e-10) in
  if (relativeImprovement <? m_GradientMagnitudeTolerance cfg)
     && (m_CurrentValue s <=? m_PreviousValue s)
  then set_StopCondition CONVERGED s
  else s.

(** Steps 12 of AdvanceOneStep: the branch taken when the new value is
    strictly lower. *)
Definition accept_step (newParams : ParametersType)
    (newValue stepFactor : float) (s : State) : State :=
  let s := set_Current newValue stepFactor s in
  let s := if newValue <? m_BestValue s
           then set_Best newValue newParams s else s in
  if m_UseLevenbergMarquardt cfg
  then set_DampingFactor (std_max (m_DampingFactor s * 0.5) 1e-10) s
  else s.

(** ... and the branch taken otherwise. *)
Definition reject_step (currentParams : ParametersType) (s : State)
  : State :=
  let s := SetParameters currentParams s in
  let s := set_Current (m_PreviousValue s)
             (m_CurrentStepLength s * m_RelaxationFactor cfg) s in
  let s := if m_UseLevenbergMarquardt cfg
           then set_DampingFactor (std_min (m_DampingFactor s * 2.0) 1e6) s
           else s in
  if m_CurrentStepLength s <? m_MinimumStepLength cfg
  then set_StopCondition STEP_TOO_SMALL s
  else s.

(** [J_scaled], [J^T J] and [J^T f] as AdvanceOneStep forms them from the
    residuals and the Jacobian the callbacks return. *)
Definition normal_equations (residuals : ResidualVectorType)
    (jacobian : JacobianMatrixType) : MatrixXd * VectorXd :=
  let m := length residuals in
  let n := m_NumberOfParameters cfg in
  let f := tabulate m (fun i => at_ residuals i) in
  let J := tabulate m (fun i => tabulate n (fun j =>
             coeff jacobian i j / scale_of (m_Scales cfg) j)) in
  (JtJ_of m n J, Jtf_of m n J f).

(** [jacobian.empty() || jacobian[0].size() != m_NumberOfParameters] *)
Definition invalid_jacobian (jacobian : JacobianMatrixType) : bool :=
  match jacobian with
  | [] => true
  | row0 :: _ => negb (length row0 =? m_NumberOfParameters cfg)%nat
  end.

(** The clamped update of steps 1 to 7; [None] on each path that sets
    SINGULAR_MATRIX. *)
Definition compute_update (s : State) : option ParametersType :=
  let residuals := m_ResidualFunction (q s) in
  match residuals with
  | [] => None
  | _ :: _ =>
    let jacobian := m_JacobianFunction (q s) in
    if invalid_jacobian jacobian then None
    else
      let '(JtJ, Jtf) := normal_equations residuals jacobian in
      match SolveNormalEquations (m_DampingFactor s) JtJ Jtf with
      | None => None
      | Some u =>
        let update := tabulate (m_NumberOfParameters cfg) (fun i =>
                        at_ u i / scale_of (m_Scales cfg) i) in
        Some (ClampUpdate update)
      end
  end.

(** GaussNewtonOptimizer::AdvanceOneStep *)
Definition AdvanceOneStep (s0 : State) : State :=
  let currentParams := q s0 in
  let s := set_Previous currentParams (m_CurrentValue s0) s0 in
  match compute_update s with
  | None => set_StopCondition SINGULAR_MATRIX s
  | Some update =>
    let updateMagnitude := ComputeScaledUpdateMagnitude update in
    if updateMagnitude <? m_MinimumStepLength cfg
    then set_StopCondition STEP_TOO_SMALL s
    else
      let '(stepFactor, s) :=
        if m_UseLineSearch cfg
        then LineSearch s currentParams update (m_CurrentValue s)
        else (1.0, s) in
      let newParams :=
        stepped (m_NumberOfParameters cfg) currentParams update stepFactor in
      let s := SetParameters newParams s in
      let newValue := m_CostFunction (q s) in
      let s :=
        if newValue <? m_CurrentValue s
        then accept_step newParams newValue stepFactor s
        else reject_step currentParams s in
      convergence_check s
  end.

(** The tentative step of an iteration that gets as far as evaluating
    the cost at the new parameters: the step factor, the new parameters
    and the new value. *)
Definition proposal (s0 : State) : option (float * ParametersType * float) :=
  let currentParams := q s0 in
  let s := set_Previous currentParams (m_CurrentValue s0) s0 in
  match compute_update s with
  | None => None
  | Some update =>
    if ComputeScaledUpdateMagnitude update <? m_MinimumStepLength cfg
    then None
    else
      let stepFactor :=
        if m_UseLineSearch cfg
        then fst (LineSearch s currentParams update (m_CurrentValue s))
        else 1.0 in
      let newParams :=
        stepped (m_NumberOfParameters cfg) currentParams update stepFactor in
      Some (stepFactor, newParams, m_CostFunction newParams)
  end.

(** The condition under which the specification has the step end in
    SINGULAR_MATRIX: an empty residual vector, an empty or malformed
    Jacobian, a factorization reported not positive whose retry fails, or
    a solution with a non-finite entry. *)
Definition singular_as_claimed (s : State) : Prop :=
  let residuals := m_ResidualFunction (q s) in
  let jacobian := m_JacobianFunction (q s) in
  let '(JtJ, Jtf) := normal_equations residuals jacobian in
  let lambda := m_DampingFactor s in
  residuals = []
  \/ invalid_jacobian jacobian = true
  \/ (isPositive (first_factorization lambda JtJ) = false
      /\ retry_fails lambda JtJ = true)
  \/ allFinite (solution lambda JtJ Jtf) = false.

(** The condition under which the code does. *)
Definition singular_in_code (s : State) : Prop :=
  let residuals := m_ResidualFunction (q s) in
  let jacobian := m_JacobianFunction (q s) in
  let '(JtJ, Jtf) := normal_equations residuals jacobian in
  let lambda := m_DampingFactor s in
  residuals = []
  \/ invalid_jacobian jacobian = true
  \/ info_Success (first_factorization lambda JtJ) = false
  \/ (retried lambda JtJ = true /\ retry_fails lambda JtJ = true)
  \/ ((retried lambda JtJ = false \/ retry_fails lambda JtJ = false)
      /\ info_Success (first_factorization lambda JtJ) = true
      /\ allFinite (solution lambda JtJ Jtf) = false).

(** The line search as the specification words it, for the step
    [q - alpha * update]: the slope is [g . (-update)], a non-negative
    slope yields 0.1, and [alpha] is accepted when
    [cost(q - alpha * update) <= cost(q) + c * alpha * (g . (-update))]. *)
Fixpoint backtrack_claimed (iters : nat) (currentParams update : ParametersType)
    (initialValue slope alpha : float) : float :=
  match iters with
  | O => alpha
  | S k =>
      if m_CostFunction
           (stepped (m_NumberOfParameters cfg) currentParams update alpha)
         <=? initialValue + 1e-4 * alpha * slope
      then alpha
      else backtrack_claimed k currentParams update initialValue slope
             (alpha * m_LineSearchShrinkFactor cfg)
  end.

Definition LineSearch_claimed (s : State) (currentParams update : ParametersType)
    (initialValue : float) : float :=
  let gradient :=
    match m_GradientFunction with
    | Some g => g (q s)
    | None => repeat 0 (m_NumberOfParameters cfg)
    end in
  let slope :=
    sum_to (m_NumberOfParameters cfg)
      (fun i => at_ gradient i * - at_ update i) in
  if 0 <=? slope then 0.1
  else backtrack_claimed (m_LineSearchMaxIterations cfg) currentParams update
         initialValue slope 1.0.

(** GaussNewtonOptimizer::AdvanceOneStepGradientDescent, for a gradient
    callback [gradf]. *)
Definition AdvanceOneStepGradientDescent
    (gradf : ParametersType -> ParametersType) (s0 : State) : State :=
  let currentParams := q s0 in
  let n := m_NumberOfParameters cfg in
  let s := set_Previous currentParams (m_CurrentValue s0) s0 in
  let gradient := gradf (q s) in
  let gradientMagnitude :=
    PrimFloat.sqrt (sum_to n (fun i =>
            let scaledGrad := at_ gradient i / scale_of (m_Scales cfg) i in
            scaledGrad * scaledGrad)) in
  if gradientMagnitude <? m_GradientMagnitudeTolerance cfg
  then set_StopCondition GRADIENT_TOO_SMALL s
  else
    let newParams := tabulate n (fun i =>
      let scale := scale_of (m_Scales cfg) i in
      let direction := at_ gradient i / (scale * scale * gradientMagnitude) in
      at_ currentParams i - m_CurrentStepLength s * direction) in
    let s := SetParameters newParams s in
    let newValue := m_CostFunction (q s) in
    if newValue <? m_CurrentValue s then
      let s := set_Current newValue (m_CurrentStepLength s) s in
      if newValue <? m_BestValue s
      then set_Best newValue newParams s else s
    else
      let s := SetParameters currentParams s in
      let s := set_Current (m_PreviousValue s)
                 (m_CurrentStepLength s * m_RelaxationFactor cfg) s in
      if m_CurrentStepLength s <? m_MinimumStepLength cfg
      then set_StopCondition STEP_TOO_SMALL s
      else s.

(** The stop conditions on which the main loop breaks. *)
Definition breaks_loop (c : StopCondition) : bool :=
  match c with
  | STEP_TOO_SMALL | GRADIENT_TOO_SMALL | SINGULAR_MATRIX | CONVERGED => true
  | MAXIMUM_ITERATIONS => false
  end.

(** The main loop of StartOptimization with [left] iterations to go. *)
Fixpoint main_loop (step : State -> State) (left : nat) (s : State)
  : State :=
  match left with
  | O => s
  | S k =>
      let s' := step s in
      if breaks_loop (m_StopCondition s') then s'
      else main_loop step k
             (set_CurrentIteration (S (m_CurrentIteration s')) s')
  end.

End Methods.

(** The callbacks as std::function members: an unset one is [None]. *)
Record Callbacks : Type := {
  cb_CostFunction : option (ParametersType -> float);
  cb_GradientFunction : option (ParametersType -> ParametersType);
  cb_ResidualFunction : option (ParametersType -> ResidualVectorType);
  cb_JacobianFunction : option (ParametersType -> JacobianMatrixType)
}.

(** GaussNewtonOptimizer::StartOptimization; [None] is the
    std::runtime_error thrown when a callback is missing.  The observer
    and the console output do not touch the state and are left out. *)
Definition StartOptimization (ldlt : MatrixXd -> LDLT) (cfg : Settings)
    (cb : Callbacks) (s0 : State) : option State :=
  match cb_CostFunction cb with
  | None => None
  | Some cost =>
    let step : option (State -> State) :=
      match cb_ResidualFunction cb, cb_JacobianFunction cb with
      | Some resf, Some jacf =>
          Some (AdvanceOneStep ldlt cfg cost (cb_GradientFunction cb) resf jacf)
      | _, _ =>
          match cb_GradientFunction cb with
          | Some gradf => Some (AdvanceOneStepGradientDescent cfg cost gradf)
          | None => None
          end
      end in
    match step with
    | None => None
    | Some step =>
      let value := cost (q s0) in
      let s :=
        {| q := q s0;
           m_DampingFactor := m_DampingFactor s0;
           m_CurrentValue := value;
           m_BestValue := if value <? DBL_MAX then value else DBL_MAX;
           m_CurrentIteration := 0;
           m_CurrentStepLength := m_LearningRate cfg;
           m_PreviousValue := value;
           m_PreviousParameters := q s0;
           m_BestParameters :=
             if value <? DBL_MAX then q s0 else m_BestParameters s0;
           m_StopCondition := MAXIMUM_ITERATIONS |} in
      let s := main_loop step (m_NumberOfIterations cfg) s in
      Some (if m_ReturnBestParameters cfg
               && negb (match m_BestParameters s with [] => true | _ => false end)
            then set_Current (m_BestValue s) (m_CurrentStepLength s)
                   (SetParameters (m_BestParameters s) s)
            else s)
    end
  end.

(** *** A concrete problem

    One parameter, one residual [f(q) = q0 - 3] with Jacobian [[1]] and
    cost [(q0 - 3)^2], solved with a factorization of 1-by-1 systems. *)

(** *** Eigen's factorization

    [Eigen::LDLT<MatrixXd>] as Eigen 3.3 and 3.4 implement it (LDLT.h:
    [ldlt_inplace<Lower>::unblocked], [isPositive], [_solve_impl]), for
    running the optimizer on concrete problems.  The properties of the
    optimizer below hold for any factorization. *)

Inductive SignMatrix : Set :=
  PositiveSemiDef | NegativeSemiDef | ZeroSign | Indefinite.

(** std::numeric_limits<double>::min() *)
Definition DBL_MIN : float := 0x1p-1022.

Record Factorization : Set := {
  f_matrix : MatrixXd;          (* L below the diagonal, D on it *)
  f_transpositions : list nat;
  f_ret : bool;
  f_found_zero_pivot : bool;
  f_sign : SignMatrix;
  f_returned : bool             (* the early return at k = 0 *)
}.

(** The index of the first largest [|A(i,i)|], [i >= k]. *)
Definition biggest_in_corner (n k : nat) (M : MatrixXd) : nat :=
  fold_left
    (fun best i =>
       if PrimFloat.abs (coeff M best best) <? PrimFloat.abs (coeff M i i)
       then i else best)
    (seq (S k) (n - S k)) k.

Definition transpose_index (a b i : nat) : nat :=
  if (i =? a)%nat then b else if (i =? b)%nat then a else i.

Definition next_sign (sign : SignMatrix) (realAkk : float) : SignMatrix :=
  match sign with
  | PositiveSemiDef => if realAkk <? 0 then Indefinite else sign
  | NegativeSemiDef => if 0 <? realAkk then Indefinite else sign
  | ZeroSign => if 0 <? realAkk then PositiveSemiDef
                else if realAkk <? 0 then NegativeSemiDef else sign
  | Indefinite => sign
  end.

(** Iteration [k] of the loop of [unblocked]. *)
Definition ldlt_iteration (n : nat) (st : Factorization) (k : nat)
  : Factorization :=
  if f_returned st then st
  else
    let M := f_matrix st in
    let index := biggest_in_corner n k M in
    (* the transposition, on the columns already factorized and
       symmetrically on the rest *)
    let M := tabulate n (fun i => tabulate n (fun j =>
               coeff M (transpose_index k index i)
                       (if (j <? k)%nat then j
                        else transpose_index k index j))) in
    let temp := tabulate k (fun j => coeff M j j * coeff M k j) in
    let updated (i : nat) : float :=
      if (0 <? k)%nat
      then coeff M i k - sum_to k (fun j => coeff M i j * at_ temp j)
      else coeff M i k in
    let realAkk := updated k in
    let pivot_is_valid := 0 <? PrimFloat.abs realAkk in
    let below := seq (S k) (n - S k) in
    if (k =? 0)%nat && negb pivot_is_valid then
      {| f_matrix := M;
         f_transpositions := seq 0 n;
         f_ret :=
           f_ret st
           && forallb (fun j =>
                forallb (fun i => coeff M i j =? 0) (seq (S j) (n - S j)))
                (seq 0 n);
         f_found_zero_pivot := f_found_zero_pivot st;
         f_sign := ZeroSign;
         f_returned := true |}
    else
      let A21 (i : nat) : float :=
        if pivot_is_valid then updated i / realAkk else updated i in
      let ret :=
        if pivot_is_valid then f_ret st
        else f_ret st && forallb (fun i => updated i =? 0) below in
      {| f_matrix :=
           tabulate n (fun i => tabulate n (fun j =>
             if (j =? k)%nat
             then (if (i =? k)%nat then realAkk
                   else if (k <? i)%nat then A21 i else coeff M i j)
             else coeff M i j));
         f_transpositions := f_transpositions st ++ [index];
         f_ret := if f_found_zero_pivot st && pivot_is_valid
                  then false else ret;
         f_found_zero_pivot :=
           if f_found_zero_pivot st && pivot_is_valid
           then f_found_zero_pivot st
           else if pivot_is_valid then f_found_zero_pivot st else true;
         f_sign := next_sign (f_sign st) realAkk;
         f_returned := false |}.

(** [LDLT::compute] *)
Definition ldlt_compute (A : MatrixXd) : Factorization :=
  let n := length A in
  let start :=
    {| f_matrix := A;
       f_transpositions := [];
       f_ret := true;
       f_found_zero_pivot := false;
       f_sign := ZeroSign;
       f_returned := false |} in
  if (n <=? 1)%nat then
    {| f_matrix := A;
       f_transpositions := seq 0 n;
       f_ret := true;
       f_found_zero_pivot := false;
       f_sign := if (n =? 0)%nat then ZeroSign
                 else if 0 <? coeff A 0 0 then PositiveSemiDef
                 else if coeff A 0 0 <? 0 then NegativeSemiDef
                 else ZeroSign;
       f_returned := true |}
  else fold_left (ldlt_iteration n) (seq 0 n) start.

(** [v[a]] and [v[b]] exchanged. *)
Definition swap_entries (a b : nat) (v : VectorXd) : VectorXd :=
  tabulate (length v) (fun i => at_ v (transpose_index a b i)).

(** [LDLT::solve]: [P^T L^-T D^+ L^-1 P b], with the pseudo-inverse of
    [D] that zeroes the entries whose pivot is at most DBL_MIN. *)
Definition ldlt_solve (fz : Factorization) (b : VectorXd) : VectorXd :=
  let n := length (f_matrix fz) in
  let M := f_matrix fz in
  let transposed :=
    fold_left (fun v kt => swap_entries (fst kt) (snd kt) v)
      (combine (seq 0 n) (f_transpositions fz)) b in
  let forward :=
    fold_left (fun v i =>
       v ++ [at_ transposed i - sum_to i (fun j => coeff M i j * at_ v j)])
      (seq 0 n) [] in
  let scaled :=
    tabulate n (fun i =>
      if DBL_MIN <? PrimFloat.abs (coeff M i i)
      then at_ forward i / coeff M i i else 0) in
  let backward :=
    fold_left (fun v i =>
       (* v holds the entries i+1 .. n-1 *)
       (at_ scaled i
        - sum_to (n - S i) (fun d =>
            coeff M (S i + d) i * at_ v d)) :: v)
      (rev (seq 0 n)) [] in
  fold_left (fun v kt => swap_entries (fst kt) (snd kt) v)
    (rev (combine (seq 0 n) (f_transpositions fz))) backward.

Definition eigen_ldlt (A : MatrixXd) : LDLT :=
  let fz := ldlt_compute A in
  {| info_Success := f_ret fz;
     isPositive := match f_sign fz with
                   | PositiveSemiDef | ZeroSign => true
                   | _ => false
                   end;
     solve := ldlt_solve fz |}.

Definition default_settings : Settings :=
  {| m_LearningRate := 1.0;
     m_MinimumStepLength := 1e-6;
     m_NumberOfIterations := 100;
     m_RelaxationFactor := 0.5;
     m_GradientMagnitudeTolerance := 1e-8;
     m_ReturnBestParameters := true;
     m_NumberOfParameters := 1;
     m_Scales := [1.0];
     m_MaxParameterUpdate := [DBL_MAX];
     m_UseLevenbergMarquardt := true;
     m_UseLineSearch := true;
     m_LineSearchMaxIterations := 10;
     m_LineSearchShrinkFactor := 0.5 |}.

Definition initial_state (q0 : ParametersType) (value : float) : State :=
  {| q := q0;
     m_DampingFactor := 1e-3;
     m_CurrentValue := value;
     m_BestValue := value;
     m_CurrentIteration := 0;
     m_CurrentStepLength := 1.0;
     m_PreviousValue := value;
     m_PreviousParameters := q0;
     m_BestParameters := q0;
     m_StopCondition := MAXIMUM_ITERATIONS |}.

Definition quad_cost (p : ParametersType) : float :=
  (at_ p 0 - 3) * (at_ p 0 - 3).
Definition quad_gradient (p : ParametersType) : ParametersType :=
  [2 * (at_ p 0 - 3)].
Definition quad_residuals (p : ParametersType) : ResidualVectorType :=
  [at_ p 0 - 3].
Definition quad_jacobian (_ : ParametersType) : JacobianMatrixType :=
  [[1]].


(** The state StartOptimization hands to the first iteration from
    [q = [0]], and the same state late in a run, when the step length has
    come down to the minimum step length. *)
Definition quad_start : State := initial_state [0] (quad_cost [0]).

Definition quad_late : State :=
  set_Current (quad_cost [0]) 1e-6 quad_start.

(** A second problem: three parameters of which the first two act alike,
    so that the first two columns of the Jacobian coincide, solved
    without Levenberg-Marquardt damping. *)
Definition collinear_settings : Settings :=
  {| m_LearningRate := 1.0;
     m_MinimumStepLength := 1e-6;
     m_NumberOfIterations := 100;
     m_RelaxationFactor := 0.5;
     m_GradientMagnitudeTolerance := 1e-8;
     m_ReturnBestParameters := true;
     m_NumberOfParameters := 3;
     m_Scales := [1.0; 1.0; 1.0];
     m_MaxParameterUpdate := [DBL_MAX; DBL_MAX; DBL_MAX];
     m_UseLevenbergMarquardt := false;
     m_UseLineSearch := true;
     m_LineSearchMaxIterations := 10;
     m_LineSearchShrinkFactor := 0.5 |}.

Definition collinear_residuals (p : ParametersType) : ResidualVectorType :=
  [at_ p 0 + at_ p 1 - 1; at_ p 2 - 1].
Definition collinear_jacobian (_ : ParametersType) : JacobianMatrixType :=
  [[1; 1; 0]; [0; 0; 1]].
Definition collinear_cost (p : ParametersType) : float :=
  (at_ p 0 + at_ p 1 - 1) * (at_ p 0 + at_ p 1 - 1)
  + (at_ p 2 - 1) * (at_ p 2 - 1).
Definition collinear_start : State :=
  initial_state [0; 0; 0] (collinear_cost [0; 0; 0]).


(** *** What an iteration may do to the state

    [x] is not a NaN. *)
Definition ordered (x : float) : Prop := (x <=? x) = true.

(** The state is left as it was, the bookkeeping of the previous
    parameters and value apart. *)
Definition untouched (s s' : State) : Prop :=
  q s' = q s
  /\ m_CurrentValue s' = m_CurrentValue s
  /\ m_BestValue s' = m_BestValue s
  /\ m_BestParameters s' = m_BestParameters s.

(** The state has moved to parameters of strictly lower cost, and the
    best value and parameters follow when the new cost is below them. *)
Definition lowered (cost : ParametersType -> float) (s s' : State) : Prop :=
  m_CurrentValue s' = cost (q s')
  /\ (m_CurrentValue s' <? m_CurrentValue s) = true
  /\ (if m_CurrentValue s' <? m_BestValue s
      then m_BestValue s' = m_CurrentValue s' /\ m_BestParameters s' = q s'
      else m_BestValue s' = m_BestValue s
           /\ m_BestParameters s' = m_BestParameters s).

Definition advances (cost : ParametersType -> float) (s s' : State) : Prop :=
  m_CurrentIteration s' = m_CurrentIteration s
  /\ (m_StopCondition s' = m_StopCondition s
      \/ breaks_loop (m_StopCondition s') = true)
  /\ (untouched s s' \/ lowered cost s s').

(** [alpha] after [k] rounds of [alpha *= m_LineSearchShrinkFactor]. *)
Fixpoint shrunk (cfg : Settings) (k : nat) (alpha : float) : float :=
  match k with
  | O => alpha
  | S k' => shrunk cfg k' (alpha * m_LineSearchShrinkFactor cfg)
  end.

(** The scaled gradient magnitude AdvanceOneStepGradientDescent tests
    against the tolerance, and the parameters it then tries. *)
Definition scaled_gradient_magnitude (cfg : Settings)
    (gradient : ParametersType) : float :=
  PrimFloat.sqrt (sum_to (m_NumberOfParameters cfg) (fun i =>
          let scaledGrad := at_ gradient i / scale_of (m_Scales cfg) i in
          scaledGrad * scaledGrad)).

Definition descent_parameters (cfg : Settings) (gradient : ParametersType)
    (s : State) : ParametersType :=
  tabulate (m_NumberOfParameters cfg) (fun i =>
    let scale := scale_of (m_Scales cfg) i in
    let direction :=
      at_ gradient i
      / (scale * scale * scaled_gradient_magnitude cfg gradient) in
    at_ (q s) i - m_CurrentStepLength s * direction).

(** The state StartOptimization hands to its loop, and the state it
    returns once the loop has ended. *)
Definition started (cfg : Settings) (cost : ParametersType -> float)
    (s0 : State) : State :=
  let value := cost (q s0) in
  {| q := q s0;
     m_DampingFactor := m_DampingFactor s0;
     m_CurrentValue := value;
     m_BestValue := if value <? DBL_MAX then value else DBL_MAX;
     m_CurrentIteration := 0;
     m_CurrentStepLength := m_LearningRate cfg;
     m_PreviousValue := value;
     m_PreviousParameters := q s0;
     m_BestParameters :=
       if value <? DBL_MAX then q s0 else m_BestParameters s0;
     m_StopCondition := MAXIMUM_ITERATIONS |}.

Definition finished (cfg : Settings) (s : State) : State :=
  if m_ReturnBestParameters cfg
     && negb (match m_BestParameters s with [] => true | _ => false end)
  then set_Current (m_BestValue s) (m_CurrentStepLength s)
         (SetParameters (m_BestParameters s) s)
  else s.

(** What the loop keeps: the current value is the cost at the current
    parameters and is not above [v0], and the best value is the cost at
    the best parameters and is not above the current value. *)
Definition run_invariant (cost : ParametersType -> float) (v0 : float)
    (s : State) : Prop :=
  m_CurrentValue s = cost (q s)
  /\ (m_CurrentValue s <=? v0) = true
  /\ m_BestValue s = cost (m_BestParameters s)
  /\ (m_BestValue s <=? m_CurrentValue s) = true.

(** The sufficient-decrease test of LineSearch at the factor [alpha]. *)
Definition sufficient_decrease (cfg : Settings)
    (cost : ParametersType -> float) (currentParams direction : ParametersType)
    (initialValue dirGrad alpha : float) : bool :=
  cost (stepped (m_NumberOfParameters cfg) currentParams direction alpha)
  <=? initialValue + 1e-4 * alpha * dirGrad.

(** A value is a zero of either sign. *)
Definition is_zero (x : float) : Prop := exists s, Prim2SF x = S754_zero s.

(** The quadratic problem with the Jacobian of the opposite sign, for
    which the step [q - alpha * update] of the code goes downhill, and the
    callbacks of a Gauss-Newton run and of a gradient-descent run on it. *)
Definition descent_jacobian (_ : ParametersType) : JacobianMatrixType :=
  [[-1]].

Definition descent_callbacks : Callbacks :=
  {| cb_CostFunction := Some quad_cost;
     cb_GradientFunction := Some quad_gradient;
     cb_ResidualFunction := Some quad_residuals;
     cb_JacobianFunction := Some descent_jacobian |}.

Definition fallback_callbacks : Callbacks :=
  {| cb_CostFunction := Some quad_cost;
     cb_GradientFunction := Some quad_gradient;
     cb_ResidualFunction := None;
     cb_JacobianFunction := None |}.

Definition single_run_settings : Settings :=
  {| m_LearningRate := 1.0;
     m_MinimumStepLength := 1e-6;
     m_NumberOfIterations := 0;
     m_RelaxationFactor := 0.5;
     m_GradientMagnitudeTolerance := 1e-8;
     m_ReturnBestParameters := true;
     m_NumberOfParameters := 1;
     m_Scales := [1.0];
     m_MaxParameterUpdate := [2.0];
     m_UseLevenbergMarquardt := true;
     m_UseLineSearch := true;
     m_LineSearchMaxIterations := 10;
     m_LineSearchShrinkFactor := 0.5 |}.

End GaussNewton.

(* ====================================================================== *)
(** ** MINDMetric *)
(* ====================================================================== *)

Module MIND.

Open Scope R_scope.

(** itk::Index<3> / itk::Size<3> and itk::Point<double,3> *)
Definition Index : Type := (Z * Z * Z)%type.
Definition Point : Type := (R * R * R)%type.

(** An itk::Image<float,3>: the size of its largest possible region, its
    pixels ([GetPixel]) and its index-to-physical map
    ([TransformIndexToPhysicalPoint], fixed by origin, spacing and
    direction). *)
Record Image : Type := {
  size : Index;
  pixel : Index -> R;
  toPhysical : Index -> Point
}.

(** An ImageType::Pointer: the object it refers to, with the address that
    [==] and [!=] on smart pointers compare. *)
Record Pointer : Type := {
  address : nat;
  target : Image
}.

(** [p != q] on two smart pointers; [None] is the null pointer. *)
Definition ptr_neq (p r : option Pointer) : bool :=
  match p, r with
  | None, None => false
  | Some a, Some b => negb (address a =? address b)%nat
  | _, _ => true
  end.

Inductive NeighborhoodType : Set := SixConnected | TwentySixConnected.

Record SamplePoint : Type := {
  fixedPoint : Point;
  fixedIndex : Index;
  fixedMINDValues : list R
}.

(** *** Library code the metric calls

    The ITK filters and interpolators and the random engine of the C++
    standard library are not part of the repository; the metric is
    parameterised by them. *)

Class Itk : Type := {
  (** itk::ResampleImageFilter as MINDMetric::ShiftImage configures it: a
      translation by minus the offset times the spacing, linear
      interpolation, default pixel 0, output geometry of the input. *)
  ShiftImage : Image -> Z -> Z -> Z -> Image;
  (** itk::MeanImageFilter with the same radius along the three axes. *)
  MeanImageFilter : nat -> Image -> Image;
  (** A mean of non-negative pixels is non-negative. *)
  MeanImageFilter_nonneg : forall r img,
    (forall i, 0 <= pixel img i) ->
    forall i, 0 <= pixel (MeanImageFilter r img) i;
  (** itk::GradientImageFilter, one image per component. *)
  GradientImageFilter : Image -> Image * Image * Image;
  (** itk::LinearInterpolateImageFunction set on an image. *)
  IsInsideBuffer : Image -> Point -> bool;
  Evaluate : Image -> Point -> R
}.

Class RandomEngine : Type := {
  (** std::mt19937 *)
  Generator : Type;
  (** the default-constructed engine *)
  default_engine : Generator;
  (** [engine.seed(s)] *)
  seed_engine : N -> Generator;
  (** [std::uniform_int_distribution<unsigned>(a, b)(engine)] *)
  uniform_int : Z -> Z -> Generator -> Z * Generator;
  (** the value [std::random_device] yields *)
  random_device : N
}.

(** *** Pointwise filters *)

Definition pointwise2 (f : R -> R -> R) (a b : Image) : Image :=
  {| size := size a;
     pixel := fun i => f (pixel a i) (pixel b i);
     toPhysical := toPhysical a |}.

Definition pointwise1 (f : R -> R) (a : Image) : Image :=
  {| size := size a;
     pixel := fun i => f (pixel a i);
     toPhysical := toPhysical a |}.

(** itk::SubtractImageFilter, itk::SquareImageFilter, itk::AddImageFilter *)
Definition SubtractImageFilter : Image -> Image -> Image := pointwise2 Rminus.
Definition SquareImageFilter : Image -> Image := pointwise1 (fun v => v * v).
Definition AddImageFilter : Image -> Image -> Image := pointwise2 Rplus.

(** MINDMetric::InitializeNeighborhoodOffsets *)
Definition offsets_of (t : NeighborhoodType) : list Index :=
  match t with
  | SixConnected =>
      [(1, 0, 0); (-1, 0, 0); (0, 1, 0); (0, -1, 0); (0, 0, 1); (0, 0, -1)]%Z
  | TwentySixConnected =>
      flat_map (fun dz =>
        flat_map (fun dy =>
          flat_map (fun dx =>
            if negb ((dx =? 0) && (dy =? 0) && (dz =? 0))%Z
            then [(dx, dy, dz)] else [])
          [-1; 0; 1]%Z)
        [-1; 0; 1]%Z)
      [-1; 0; 1]%Z
  end.

(** *** Doubles and unsigned integers

    The sampling arithmetic mixes [unsigned long], [unsigned int] and
    [double]; a [double] is a binary64 float. *)

(** [static_cast<double>(z)] for an unsigned [z]: the nearest double, ties
    to even. *)
Definition to_double (z : Z) : float :=
  SF2Prim (binary_normalize prec emax z 0 false).

(** The integer a conversion to an integer type starts from: the value with
    its fractional part discarded; [None] for an infinity, a NaN and a
    value at or below [-1], which no unsigned type holds. *)
Definition truncate (x : float) : option Z :=
  match Prim2SF x with
  | S754_zero _ => Some 0%Z
  | S754_finite s m e =>
      let v := if (0 <=? e)%Z then (Z.pos m * 2 ^ e)%Z
               else (Z.pos m / 2 ^ (- e))%Z in
      if s then (if (v =? 0)%Z then Some 0%Z else None) else Some v
  | _ => None
  end.

(** [static_cast<T>(x)] for an unsigned [T] of [bits] bits: defined when
    the truncated value fits, undefined ([None]) otherwise. *)
Definition cast_unsigned (bits : Z) (x : float) : option Z :=
  match truncate x with
  | Some v => if (v <? 2 ^ bits)%Z then Some v else None
  | None => None
  end.

(** The real number a finite double stands for (0 for the others). *)
Definition float_value (x : float) : R :=
  match Prim2SF x with
  | S754_finite s m e =>
      (if s then - IZR (Z.pos m) else IZR (Z.pos m)) * powerRZ 2 e
  | _ => 0
  end.

(** The C++ mathematical library. *)
Class Libm : Type := {
  (** std::cbrt on doubles *)
  cbrt : float -> float
}.


Section Metric.

Context {itk : Itk} {rng : RandomEngine} {libm : Libm}.

(** The data members of class MINDMetric (m_Verbose, m_NumberOfThreads,
    m_FiniteDifferenceStep and m_Interpolator play no part below). *)
Record MINDMetric : Type := {
  m_FixedImage : option Pointer;
  m_MovingImage : option Pointer;
  m_Transform : option (Point -> Point);
  m_FixedMINDFeatures : list Image;
  m_MovingMINDFeatures : list Image;
  m_FixedImageMask : option (Point -> bool);
  m_JacobianFunction : option (Point -> list (R * R * R));
  m_NumberOfParameters : nat;
  m_MovingMINDInterpolators : list Image;
  m_MovingMINDFeatureGradients : list (Image * Image * Image);
  m_MovingMINDFeatureGradientInterpolators : list (Image * Image * Image);
  m_CachedFixedImage : option Pointer;
  m_CachedMovingImage : option Pointer;
  m_FixedMINDFeaturesValid : bool;
  m_MovingMINDFeaturesValid : bool;
  m_MINDRadius : nat;
  m_MINDSigma : R;
  m_NeighborhoodType : NeighborhoodType;
  m_NeighborhoodOffsets : list Index;
  m_SamplingPercentage : float;
  m_RandomSeed : N;
  m_UseFixedSeed : bool;
  m_UseStratifiedSampling : bool;
  m_NumberOfValidSamples : nat;
  m_SamplePoints : list SamplePoint;
  m_CurrentValue : R;
  m_RandomGenerator : Generator
}.

(** One assignment [m_X = v] per member written below. *)
Definition set_FixedImage (v : option Pointer) (m : MINDMetric) : MINDMetric :=
  {| m_FixedImage := v; m_MovingImage := m_MovingImage m; m_Transform :=
     m_Transform m; m_FixedMINDFeatures := m_FixedMINDFeatures m;
     m_MovingMINDFeatures := m_MovingMINDFeatures m; m_FixedImageMask :=
     m_FixedImageMask m; m_JacobianFunction := m_JacobianFunction m;
     m_NumberOfParameters := m_NumberOfParameters m;
     m_MovingMINDInterpolators := m_MovingMINDInterpolators m;
     m_MovingMINDFeatureGradients := m_MovingMINDFeatureGradients m;
     m_MovingMINDFeatureGradientInterpolators :=
     m_MovingMINDFeatureGradientInterpolators m; m_CachedFixedImage :=
     m_CachedFixedImage m; m_CachedMovingImage := m_CachedMovingImage m;
     m_FixedMINDFeaturesValid := m_FixedMINDFeaturesValid m;
     m_MovingMINDFeaturesValid := m_MovingMINDFeaturesValid m;
     m_MINDRadius := m_MINDRadius m; m_MINDSigma := m_MINDSigma m;
     m_NeighborhoodType := m_NeighborhoodType m; m_NeighborhoodOffsets :=
     m_NeighborhoodOffsets m; m_SamplingPercentage := m_SamplingPercentage
     m; m_RandomSeed := m_RandomSeed m; m_UseFixedSeed := m_UseFixedSeed
     m; m_UseStratifiedSampling := m_UseStratifiedSampling m;
     m_NumberOfValidSamples := m_NumberOfValidSamples m; m_SamplePoints :=
     m_SamplePoints m; m_CurrentValue := m_CurrentValue m;
     m_RandomGenerator := m_RandomGenerator m |}.

Definition set_MovingImage (v : option Pointer) (m : MINDMetric) : MINDMetric :=
  {| m_FixedImage := m_FixedImage m; m_MovingImage := v; m_Transform :=
     m_Transform m; m_FixedMINDFeatures := m_FixedMINDFeatures m;
     m_MovingMINDFeatures := m_MovingMINDFeatures m; m_FixedImageMask :=
     m_FixedImageMask m; m_JacobianFunction := m_JacobianFunction m;
     m_NumberOfParameters := m_NumberOfParameters m;
     m_MovingMINDInterpolators := m_MovingMINDInterpolators m;
     m_MovingMINDFeatureGradients := m_MovingMINDFeatureGradients m;
     m_MovingMINDFeatureGradientInterpolators :=
     m_MovingMINDFeatureGradientInterpolators m; m_CachedFixedImage :=
     m_CachedFixedImage m; m_CachedMovingImage := m_CachedMovingImage m;
     m_FixedMINDFeaturesValid := m_FixedMINDFeaturesValid m;
     m_MovingMINDFeaturesValid := m_MovingMINDFeaturesValid m;
     m_MINDRadius := m_MINDRadius m; m_MINDSigma := m_MINDSigma m;
     m_NeighborhoodType := m_NeighborhoodType m; m_NeighborhoodOffsets :=
     m_NeighborhoodOffsets m; m_SamplingPercentage := m_SamplingPercentage
     m; m_RandomSeed := m_RandomSeed m; m_UseFixedSeed := m_UseFixedSeed
     m; m_UseStratifiedSampling := m_UseStratifiedSampling m;
     m_NumberOfValidSamples := m_NumberOfValidSamples m; m_SamplePoints :=
     m_SamplePoints m; m_CurrentValue := m_CurrentValue m;
     m_RandomGenerator := m_RandomGenerator m |}.

Definition set_FixedMINDFeatures (v : list Image) (m : MINDMetric) : MINDMetric :=
  {| m_FixedImage := m_FixedImage m; m_MovingImage := m_MovingImage m;
     m_Transform := m_Transform m; m_FixedMINDFeatures := v;
     m_MovingMINDFeatures := m_MovingMINDFeatures m; m_FixedImageMask :=
     m_FixedImageMask m; m_JacobianFunction := m_JacobianFunction m;
     m_NumberOfParameters := m_NumberOfParameters m;
     m_MovingMINDInterpolators := m_MovingMINDInterpolators m;
     m_MovingMINDFeatureGradients := m_MovingMINDFeatureGradients m;
     m_MovingMINDFeatureGradientInterpolators :=
     m_MovingMINDFeatureGradientInterpolators m; m_CachedFixedImage :=
     m_CachedFixedImage m; m_CachedMovingImage := m_CachedMovingImage m;
     m_FixedMINDFeaturesValid := m_FixedMINDFeaturesValid m;
     m_MovingMINDFeaturesValid := m_MovingMINDFeaturesValid m;
     m_MINDRadius := m_MINDRadius m; m_MINDSigma := m_MINDSigma m;
     m_NeighborhoodType := m_NeighborhoodType m; m_NeighborhoodOffsets :=
     m_NeighborhoodOffsets m; m_SamplingPercentage := m_SamplingPercentage
     m; m_RandomSeed := m_RandomSeed m; m_UseFixedSeed := m_UseFixedSeed
     m; m_UseStratifiedSampling := m_UseStratifiedSampling m;
     m_NumberOfValidSamples := m_NumberOfValidSamples m; m_SamplePoints :=
     m_SamplePoints m; m_CurrentValue := m_CurrentValue m;
     m_RandomGenerator := m_RandomGenerator m |}.

Definition set_MovingMINDFeatures (v : list Image) (m : MINDMetric) : MINDMetric :=
  {| m_FixedImage := m_FixedImage m; m_MovingImage := m_MovingImage m;
     m_Transform := m_Transform m; m_FixedMINDFeatures :=
     m_FixedMINDFeatures m; m_MovingMINDFeatures := v; m_FixedImageMask :=
     m_FixedImageMask m; m_JacobianFunction := m_JacobianFunction m;
     m_NumberOfParameters := m_NumberOfParameters m;
     m_MovingMINDInterpolators := m_MovingMINDInterpolators m;
     m_MovingMINDFeatureGradients := m_MovingMINDFeatureGradients m;
     m_MovingMINDFeatureGradientInterpolators :=
     m_MovingMINDFeatureGradientInterpolators m; m_CachedFixedImage :=
     m_CachedFixedImage m; m_CachedMovingImage := m_CachedMovingImage m;
     m_FixedMINDFeaturesValid := m_FixedMINDFeaturesValid m;
     m_MovingMINDFeaturesValid := m_MovingMINDFeaturesValid m;
     m_MINDRadius := m_MINDRadius m; m_MINDSigma := m_MINDSigma m;
     m_NeighborhoodType := m_NeighborhoodType m; m_NeighborhoodOffsets :=
     m_NeighborhoodOffsets m; m_SamplingPercentage := m_SamplingPercentage
     m; m_RandomSeed := m_RandomSeed m; m_UseFixedSeed := m_UseFixedSeed
     m; m_UseStratifiedSampling := m_UseStratifiedSampling m;
     m_NumberOfValidSamples := m_NumberOfValidSamples m; m_SamplePoints :=
     m_SamplePoints m; m_CurrentValue := m_CurrentValue m;
     m_RandomGenerator := m_RandomGenerator m |}.

Definition set_MovingMINDInterpolators (v : list Image) (m : MINDMetric) : MINDMetric :=
  {| m_FixedImage := m_FixedImage m; m_MovingImage := m_MovingImage m;
     m_Transform := m_Transform m; m_FixedMINDFeatures :=
     m_FixedMINDFeatures m; m_MovingMINDFeatures := m_MovingMINDFeatures
     m; m_FixedImageMask := m_FixedImageMask m; m_JacobianFunction :=
     m_JacobianFunction m; m_NumberOfParameters := m_NumberOfParameters m;
     m_MovingMINDInterpolators := v; m_MovingMINDFeatureGradients :=
     m_MovingMINDFeatureGradients m;
     m_MovingMINDFeatureGradientInterpolators :=
     m_MovingMINDFeatureGradientInterpolators m; m_CachedFixedImage :=
     m_CachedFixedImage m; m_CachedMovingImage := m_CachedMovingImage m;
     m_FixedMINDFeaturesValid := m_FixedMINDFeaturesValid m;
     m_MovingMINDFeaturesValid := m_MovingMINDFeaturesValid m;
     m_MINDRadius := m_MINDRadius m; m_MINDSigma := m_MINDSigma m;
     m_NeighborhoodType := m_NeighborhoodType m; m_NeighborhoodOffsets :=
     m_NeighborhoodOffsets m; m_SamplingPercentage := m_SamplingPercentage
     m; m_RandomSeed := m_RandomSeed m; m_UseFixedSeed := m_UseFixedSeed
     m; m_UseStratifiedSampling := m_UseStratifiedSampling m;
     m_NumberOfValidSamples := m_NumberOfValidSamples m; m_SamplePoints :=
     m_SamplePoints m; m_CurrentValue := m_CurrentValue m;
     m_RandomGenerator := m_RandomGenerator m |}.

Definition set_MovingMINDFeatureGradients (v : list (Image * Image * Image)) (m : MINDMetric) : MINDMetric :=
  {| m_FixedImage := m_FixedImage m; m_MovingImage := m_MovingImage m;
     m_Transform := m_Transform m; m_FixedMINDFeatures :=
     m_FixedMINDFeatures m; m_MovingMINDFeatures := m_MovingMINDFeatures
     m; m_FixedImageMask := m_FixedImageMask m; m_JacobianFunction :=
     m_JacobianFunction m; m_NumberOfParameters := m_NumberOfParameters m;
     m_MovingMINDInterpolators := m_MovingMINDInterpolators m;
     m_MovingMINDFeatureGradients := v;
     m_MovingMINDFeatureGradientInterpolators :=
     m_MovingMINDFeatureGradientInterpolators m; m_CachedFixedImage :=
     m_CachedFixedImage m; m_CachedMovingImage := m_CachedMovingImage m;
     m_FixedMINDFeaturesValid := m_FixedMINDFeaturesValid m;
     m_MovingMINDFeaturesValid := m_MovingMINDFeaturesValid m;
     m_MINDRadius := m_MINDRadius m; m_MINDSigma := m_MINDSigma m;
     m_NeighborhoodType := m_NeighborhoodType m; m_NeighborhoodOffsets :=
     m_NeighborhoodOffsets m; m_SamplingPercentage := m_SamplingPercentage
     m; m_RandomSeed := m_RandomSeed m; m_UseFixedSeed := m_UseFixedSeed
     m; m_UseStratifiedSampling := m_UseStratifiedSampling m;
     m_NumberOfValidSamples := m_NumberOfValidSamples m; m_SamplePoints :=
     m_SamplePoints m; m_CurrentValue := m_CurrentValue m;
     m_RandomGenerator := m_RandomGenerator m |}.

Definition set_MovingMINDFeatureGradientInterpolators (v : list (Image * Image * Image)) (m : MINDMetric) : MINDMetric :=
  {| m_FixedImage := m_FixedImage m; m_MovingImage := m_MovingImage m;
     m_Transform := m_Transform m; m_FixedMINDFeatures :=
     m_FixedMINDFeatures m; m_MovingMINDFeatures := m_MovingMINDFeatures
     m; m_FixedImageMask := m_FixedImageMask m; m_JacobianFunction :=
     m_JacobianFunction m; m_NumberOfParameters := m_NumberOfParameters m;
     m_MovingMINDInterpolators := m_MovingMINDInterpolators m;
     m_MovingMINDFeatureGradients := m_MovingMINDFeatureGradients m;
     m_MovingMINDFeatureGradientInterpolators := v; m_CachedFixedImage :=
     m_CachedFixedImage m; m_CachedMovingImage := m_CachedMovingImage m;
     m_FixedMINDFeaturesValid := m_FixedMINDFeaturesValid m;
     m_MovingMINDFeaturesValid := m_MovingMINDFeaturesValid m;
     m_MINDRadius := m_MINDRadius m; m_MINDSigma := m_MINDSigma m;
     m_NeighborhoodType := m_NeighborhoodType m; m_NeighborhoodOffsets :=
     m_NeighborhoodOffsets m; m_SamplingPercentage := m_SamplingPercentage
     m; m_RandomSeed := m_RandomSeed m; m_UseFixedSeed := m_UseFixedSeed
     m; m_UseStratifiedSampling := m_UseStratifiedSampling m;
     m_NumberOfValidSamples := m_NumberOfValidSamples m; m_SamplePoints :=
     m_SamplePoints m; m_CurrentValue := m_CurrentValue m;
     m_RandomGenerator := m_RandomGenerator m |}.

Definition set_CachedFixedImage (v : option Pointer) (m : MINDMetric) : MINDMetric :=
  {| m_FixedImage := m_FixedImage m; m_MovingImage := m_MovingImage m;
     m_Transform := m_Transform m; m_FixedMINDFeatures :=
     m_FixedMINDFeatures m; m_MovingMINDFeatures := m_MovingMINDFeatures
     m; m_FixedImageMask := m_FixedImageMask m; m_JacobianFunction :=
     m_JacobianFunction m; m_NumberOfParameters := m_NumberOfParameters m;
     m_MovingMINDInterpolators := m_MovingMINDInterpolators m;
     m_MovingMINDFeatureGradients := m_MovingMINDFeatureGradients m;
     m_MovingMINDFeatureGradientInterpolators :=
     m_MovingMINDFeatureGradientInterpolators m; m_CachedFixedImage := v;
     m_CachedMovingImage := m_CachedMovingImage m;
     m_FixedMINDFeaturesValid := m_FixedMINDFeaturesValid m;
     m_MovingMINDFeaturesValid := m_MovingMINDFeaturesValid m;
     m_MINDRadius := m_MINDRadius m; m_MINDSigma := m_MINDSigma m;
     m_NeighborhoodType := m_NeighborhoodType m; m_NeighborhoodOffsets :=
     m_NeighborhoodOffsets m; m_SamplingPercentage := m_SamplingPercentage
     m; m_RandomSeed := m_RandomSeed m; m_UseFixedSeed := m_UseFixedSeed
     m; m_UseStratifiedSampling := m_UseStratifiedSampling m;
     m_NumberOfValidSamples := m_NumberOfValidSamples m; m_SamplePoints :=
     m_SamplePoints m; m_CurrentValue := m_CurrentValue m;
     m_RandomGenerator := m_RandomGenerator m |}.

Definition set_CachedMovingImage (v : option Pointer) (m : MINDMetric) : MINDMetric :=
  {| m_FixedImage := m_FixedImage m; m_MovingImage := m_MovingImage m;
     m_Transform := m_Transform m; m_FixedMINDFeatures :=
     m_FixedMINDFeatures m; m_MovingMINDFeatures := m_MovingMINDFeatures
     m; m_FixedImageMask := m_FixedImageMask m; m_JacobianFunction :=
     m_JacobianFunction m; m_NumberOfParameters := m_NumberOfParameters m;
     m_MovingMINDInterpolators := m_MovingMINDInterpolators m;
     m_MovingMINDFeatureGradients := m_MovingMINDFeatureGradients m;
     m_MovingMINDFeatureGradientInterpolators :=
     m_MovingMINDFeatureGradientInterpolators m; m_CachedFixedImage :=
     m_CachedFixedImage m; m_CachedMovingImage := v;
     m_FixedMINDFeaturesValid := m_FixedMINDFeaturesValid m;
     m_MovingMINDFeaturesValid := m_MovingMINDFeaturesValid m;
     m_MINDRadius := m_MINDRadius m; m_MINDSigma := m_MINDSigma m;
     m_NeighborhoodType := m_NeighborhoodType m; m_NeighborhoodOffsets :=
     m_NeighborhoodOffsets m; m_SamplingPercentage := m_SamplingPercentage
     m; m_RandomSeed := m_RandomSeed m; m_UseFixedSeed := m_UseFixedSeed
     m; m_UseStratifiedSampling := m_UseStratifiedSampling m;
     m_NumberOfValidSamples := m_NumberOfValidSamples m; m_SamplePoints :=
     m_SamplePoints m; m_CurrentValue := m_CurrentValue m;
     m_RandomGenerator := m_RandomGenerator m |}.

Definition set_FixedMINDFeaturesValid (v : bool) (m : MINDMetric) : MINDMetric :=
  {| m_FixedImage := m_FixedImage m; m_MovingImage := m_MovingImage m;
     m_Transform := m_Transform m; m_FixedMINDFeatures :=
     m_FixedMINDFeatures m; m_MovingMINDFeatures := m_MovingMINDFeatures
     m; m_FixedImageMask := m_FixedImageMask m; m_JacobianFunction :=
     m_JacobianFunction m; m_NumberOfParameters := m_NumberOfParameters m;
     m_MovingMINDInterpolators := m_MovingMINDInterpolators m;
     m_MovingMINDFeatureGradients := m_MovingMINDFeatureGradients m;
     m_MovingMINDFeatureGradientInterpolators :=
     m_MovingMINDFeatureGradientInterpolators m; m_CachedFixedImage :=
     m_CachedFixedImage m; m_CachedMovingImage := m_CachedMovingImage m;
     m_FixedMINDFeaturesValid := v; m_MovingMINDFeaturesValid :=
     m_MovingMINDFeaturesValid m; m_MINDRadius := m_MINDRadius m;
     m_MINDSigma := m_MINDSigma m; m_NeighborhoodType :=
     m_NeighborhoodType m; m_NeighborhoodOffsets := m_NeighborhoodOffsets
     m; m_SamplingPercentage := m_SamplingPercentage m; m_RandomSeed :=
     m_RandomSeed m; m_UseFixedSeed := m_UseFixedSeed m;
     m_UseStratifiedSampling := m_UseStratifiedSampling m;
     m_NumberOfValidSamples := m_NumberOfValidSamples m; m_SamplePoints :=
     m_SamplePoints m; m_CurrentValue := m_CurrentValue m;
     m_RandomGenerator := m_RandomGenerator m |}.

Definition set_MovingMINDFeaturesValid (v : bool) (m : MINDMetric) : MINDMetric :=
  {| m_FixedImage := m_FixedImage m; m_MovingImage := m_MovingImage m;
     m_Transform := m_Transform m; m_FixedMINDFeatures :=
     m_FixedMINDFeatures m; m_MovingMINDFeatures := m_MovingMINDFeatures
     m; m_FixedImageMask := m_FixedImageMask m; m_JacobianFunction :=
     m_JacobianFunction m; m_NumberOfParameters := m_NumberOfParameters m;
     m_MovingMINDInterpolators := m_MovingMINDInterpolators m;
     m_MovingMINDFeatureGradients := m_MovingMINDFeatureGradients m;
     m_MovingMINDFeatureGradientInterpolators :=
     m_MovingMINDFeatureGradientInterpolators m; m_CachedFixedImage :=
     m_CachedFixedImage m; m_CachedMovingImage := m_CachedMovingImage m;
     m_FixedMINDFeaturesValid := m_FixedMINDFeaturesValid m;
     m_MovingMINDFeaturesValid := v; m_MINDRadius := m_MINDRadius m;
     m_MINDSigma := m_MINDSigma m; m_NeighborhoodType :=
     m_NeighborhoodType m; m_NeighborhoodOffsets := m_NeighborhoodOffsets
     m; m_SamplingPercentage := m_SamplingPercentage m; m_RandomSeed :=
     m_RandomSeed m; m_UseFixedSeed := m_UseFixedSeed m;
     m_UseStratifiedSampling := m_UseStratifiedSampling m;
     m_NumberOfValidSamples := m_NumberOfValidSamples m; m_SamplePoints :=
     m_SamplePoints m; m_CurrentValue := m_CurrentValue m;
     m_RandomGenerator := m_RandomGenerator m |}.

Definition set_MINDRadius (v : nat) (m : MINDMetric) : MINDMetric :=
  {| m_FixedImage := m_FixedImage m; m_MovingImage := m_MovingImage m;
     m_Transform := m_Transform m; m_FixedMINDFeatures :=
     m_FixedMINDFeatures m; m_MovingMINDFeatures := m_MovingMINDFeatures
     m; m_FixedImageMask := m_FixedImageMask m; m_JacobianFunction :=
     m_JacobianFunction m; m_NumberOfParameters := m_NumberOfParameters m;
     m_MovingMINDInterpolators := m_MovingMINDInterpolators m;
     m_MovingMINDFeatureGradients := m_MovingMINDFeatureGradients m;
     m_MovingMINDFeatureGradientInterpolators :=
     m_MovingMINDFeatureGradientInterpolators m; m_CachedFixedImage :=
     m_CachedFixedImage m; m_CachedMovingImage := m_CachedMovingImage m;
     m_FixedMINDFeaturesValid := m_FixedMINDFeaturesValid m;
     m_MovingMINDFeaturesValid := m_MovingMINDFeaturesValid m;
     m_MINDRadius := v; m_MINDSigma := m_MINDSigma m; m_NeighborhoodType
     := m_NeighborhoodType m; m_NeighborhoodOffsets :=
     m_NeighborhoodOffsets m; m_SamplingPercentage := m_SamplingPercentage
     m; m_RandomSeed := m_RandomSeed m; m_UseFixedSeed := m_UseFixedSeed
     m; m_UseStratifiedSampling := m_UseStratifiedSampling m;
     m_NumberOfValidSamples := m_NumberOfValidSamples m; m_SamplePoints :=
     m_SamplePoints m; m_CurrentValue := m_CurrentValue m;
     m_RandomGenerator := m_RandomGenerator m |}.

Definition set_MINDSigma (v : R) (m : MINDMetric) : MINDMetric :=
  {| m_FixedImage := m_FixedImage m; m_MovingImage := m_MovingImage m;
     m_Transform := m_Transform m; m_FixedMINDFeatures :=
     m_FixedMINDFeatures m; m_MovingMINDFeatures := m_MovingMINDFeatures
     m; m_FixedImageMask := m_FixedImageMask m; m_JacobianFunction :=
     m_JacobianFunction m; m_NumberOfParameters := m_NumberOfParameters m;
     m_MovingMINDInterpolators := m_MovingMINDInterpolators m;
     m_MovingMINDFeatureGradients := m_MovingMINDFeatureGradients m;
     m_MovingMINDFeatureGradientInterpolators :=
     m_MovingMINDFeatureGradientInterpolators m; m_CachedFixedImage :=
     m_CachedFixedImage m; m_CachedMovingImage := m_CachedMovingImage m;
     m_FixedMINDFeaturesValid := m_FixedMINDFeaturesValid m;
     m_MovingMINDFeaturesValid := m_MovingMINDFeaturesValid m;
     m_MINDRadius := m_MINDRadius m; m_MINDSigma := v; m_NeighborhoodType
     := m_NeighborhoodType m; m_NeighborhoodOffsets :=
     m_NeighborhoodOffsets m; m_SamplingPercentage := m_SamplingPercentage
     m; m_RandomSeed := m_RandomSeed m; m_UseFixedSeed := m_UseFixedSeed
     m; m_UseStratifiedSampling := m_UseStratifiedSampling m;
     m_NumberOfValidSamples := m_NumberOfValidSamples m; m_SamplePoints :=
     m_SamplePoints m; m_CurrentValue := m_CurrentValue m;
     m_RandomGenerator := m_RandomGenerator m |}.

Definition set_NeighborhoodType (v : NeighborhoodType) (m : MINDMetric) : MINDMetric :=
  {| m_FixedImage := m_FixedImage m; m_MovingImage := m_MovingImage m;
     m_Transform := m_Transform m; m_FixedMINDFeatures :=
     m_FixedMINDFeatures m; m_MovingMINDFeatures := m_MovingMINDFeatures
     m; m_FixedImageMask := m_FixedImageMask m; m_JacobianFunction :=
     m_JacobianFunction m; m_NumberOfParameters := m_NumberOfParameters m;
     m_MovingMINDInterpolators := m_MovingMINDInterpolators m;
     m_MovingMINDFeatureGradients := m_MovingMINDFeatureGradients m;
     m_MovingMINDFeatureGradientInterpolators :=
     m_MovingMINDFeatureGradientInterpolators m; m_CachedFixedImage :=
     m_CachedFixedImage m; m_CachedMovingImage := m_CachedMovingImage m;
     m_FixedMINDFeaturesValid := m_FixedMINDFeaturesValid m;
     m_MovingMINDFeaturesValid := m_MovingMINDFeaturesValid m;
     m_MINDRadius := m_MINDRadius m; m_MINDSigma := m_MINDSigma m;
     m_NeighborhoodType := v; m_NeighborhoodOffsets :=
     m_NeighborhoodOffsets m; m_SamplingPercentage := m_SamplingPercentage
     m; m_RandomSeed := m_RandomSeed m; m_UseFixedSeed := m_UseFixedSeed
     m; m_UseStratifiedSampling := m_UseStratifiedSampling m;
     m_NumberOfValidSamples := m_NumberOfValidSamples m; m_SamplePoints :=
     m_SamplePoints m; m_CurrentValue := m_CurrentValue m;
     m_RandomGenerator := m_RandomGenerator m |}.

Definition set_NeighborhoodOffsets (v : list Index) (m : MINDMetric) : MINDMetric :=
  {| m_FixedImage := m_FixedImage m; m_MovingImage := m_MovingImage m;
     m_Transform := m_Transform m; m_FixedMINDFeatures :=
     m_FixedMINDFeatures m; m_MovingMINDFeatures := m_MovingMINDFeatures
     m; m_FixedImageMask := m_FixedImageMask m; m_JacobianFunction :=
     m_JacobianFunction m; m_NumberOfParameters := m_NumberOfParameters m;
     m_MovingMINDInterpolators := m_MovingMINDInterpolators m;
     m_MovingMINDFeatureGradients := m_MovingMINDFeatureGradients m;
     m_MovingMINDFeatureGradientInterpolators :=
     m_MovingMINDFeatureGradientInterpolators m; m_CachedFixedImage :=
     m_CachedFixedImage m; m_CachedMovingImage := m_CachedMovingImage m;
     m_FixedMINDFeaturesValid := m_FixedMINDFeaturesValid m;
     m_MovingMINDFeaturesValid := m_MovingMINDFeaturesValid m;
     m_MINDRadius := m_MINDRadius m; m_MINDSigma := m_MINDSigma m;
     m_NeighborhoodType := m_NeighborhoodType m; m_NeighborhoodOffsets :=
     v; m_SamplingPercentage := m_SamplingPercentage m; m_RandomSeed :=
     m_RandomSeed m; m_UseFixedSeed := m_UseFixedSeed m;
     m_UseStratifiedSampling := m_UseStratifiedSampling m;
     m_NumberOfValidSamples := m_NumberOfValidSamples m; m_SamplePoints :=
     m_SamplePoints m; m_CurrentValue := m_CurrentValue m;
     m_RandomGenerator := m_RandomGenerator m |}.

Definition set_RandomSeed (v : N) (m : MINDMetric) : MINDMetric :=
  {| m_FixedImage := m_FixedImage m; m_MovingImage := m_MovingImage m;
     m_Transform := m_Transform m; m_FixedMINDFeatures :=
     m_FixedMINDFeatures m; m_MovingMINDFeatures := m_MovingMINDFeatures
     m; m_FixedImageMask := m_FixedImageMask m; m_JacobianFunction :=
     m_JacobianFunction m; m_NumberOfParameters := m_NumberOfParameters m;
     m_MovingMINDInterpolators := m_MovingMINDInterpolators m;
     m_MovingMINDFeatureGradients := m_MovingMINDFeatureGradients m;
     m_MovingMINDFeatureGradientInterpolators :=
     m_MovingMINDFeatureGradientInterpolators m; m_CachedFixedImage :=
     m_CachedFixedImage m; m_CachedMovingImage := m_CachedMovingImage m;
     m_FixedMINDFeaturesValid := m_FixedMINDFeaturesValid m;
     m_MovingMINDFeaturesValid := m_MovingMINDFeaturesValid m;
     m_MINDRadius := m_MINDRadius m; m_MINDSigma := m_MINDSigma m;
     m_NeighborhoodType := m_NeighborhoodType m; m_NeighborhoodOffsets :=
     m_NeighborhoodOffsets m; m_SamplingPercentage := m_SamplingPercentage
     m; m_RandomSeed := v; m_UseFixedSeed := m_UseFixedSeed m;
     m_UseStratifiedSampling := m_UseStratifiedSampling m;
     m_NumberOfValidSamples := m_NumberOfValidSamples m; m_SamplePoints :=
     m_SamplePoints m; m_CurrentValue := m_CurrentValue m;
     m_RandomGenerator := m_RandomGenerator m |}.

Definition set_UseFixedSeed (v : bool) (m : MINDMetric) : MINDMetric :=
  {| m_FixedImage := m_FixedImage m; m_MovingImage := m_MovingImage m;
     m_Transform := m_Transform m; m_FixedMINDFeatures :=
     m_FixedMINDFeatures m; m_MovingMINDFeatures := m_MovingMINDFeatures
     m; m_FixedImageMask := m_FixedImageMask m; m_JacobianFunction :=
     m_JacobianFunction m; m_NumberOfParameters := m_NumberOfParameters m;
     m_MovingMINDInterpolators := m_MovingMINDInterpolators m;
     m_MovingMINDFeatureGradients := m_MovingMINDFeatureGradients m;
     m_MovingMINDFeatureGradientInterpolators :=
     m_MovingMINDFeatureGradientInterpolators m; m_CachedFixedImage :=
     m_CachedFixedImage m; m_CachedMovingImage := m_CachedMovingImage m;
     m_FixedMINDFeaturesValid := m_FixedMINDFeaturesValid m;
     m_MovingMINDFeaturesValid := m_MovingMINDFeaturesValid m;
     m_MINDRadius := m_MINDRadius m; m_MINDSigma := m_MINDSigma m;
     m_NeighborhoodType := m_NeighborhoodType m; m_NeighborhoodOffsets :=
     m_NeighborhoodOffsets m; m_SamplingPercentage := m_SamplingPercentage
     m; m_RandomSeed := m_RandomSeed m; m_UseFixedSeed := v;
     m_UseStratifiedSampling := m_UseStratifiedSampling m;
     m_NumberOfValidSamples := m_NumberOfValidSamples m; m_SamplePoints :=
     m_SamplePoints m; m_CurrentValue := m_CurrentValue m;
     m_RandomGenerator := m_RandomGenerator m |}.

Definition set_NumberOfValidSamples (v : nat) (m : MINDMetric) : MINDMetric :=
  {| m_FixedImage := m_FixedImage m; m_MovingImage := m_MovingImage m;
     m_Transform := m_Transform m; m_FixedMINDFeatures :=
     m_FixedMINDFeatures m; m_MovingMINDFeatures := m_MovingMINDFeatures
     m; m_FixedImageMask := m_FixedImageMask m; m_JacobianFunction :=
     m_JacobianFunction m; m_NumberOfParameters := m_NumberOfParameters m;
     m_MovingMINDInterpolators := m_MovingMINDInterpolators m;
     m_MovingMINDFeatureGradients := m_MovingMINDFeatureGradients m;
     m_MovingMINDFeatureGradientInterpolators :=
     m_MovingMINDFeatureGradientInterpolators m; m_CachedFixedImage :=
     m_CachedFixedImage m; m_CachedMovingImage := m_CachedMovingImage m;
     m_FixedMINDFeaturesValid := m_FixedMINDFeaturesValid m;
     m_MovingMINDFeaturesValid := m_MovingMINDFeaturesValid m;
     m_MINDRadius := m_MINDRadius m; m_MINDSigma := m_MINDSigma m;
     m_NeighborhoodType := m_NeighborhoodType m; m_NeighborhoodOffsets :=
     m_NeighborhoodOffsets m; m_SamplingPercentage := m_SamplingPercentage
     m; m_RandomSeed := m_RandomSeed m; m_UseFixedSeed := m_UseFixedSeed
     m; m_UseStratifiedSampling := m_UseStratifiedSampling m;
     m_NumberOfValidSamples := v; m_SamplePoints := m_SamplePoints m;
     m_CurrentValue := m_CurrentValue m; m_RandomGenerator :=
     m_RandomGenerator m |}.

Definition set_SamplePoints (v : list SamplePoint) (m : MINDMetric) : MINDMetric :=
  {| m_FixedImage := m_FixedImage m; m_MovingImage := m_MovingImage m;
     m_Transform := m_Transform m; m_FixedMINDFeatures :=
     m_FixedMINDFeatures m; m_MovingMINDFeatures := m_MovingMINDFeatures
     m; m_FixedImageMask := m_FixedImageMask m; m_JacobianFunction :=
     m_JacobianFunction m; m_NumberOfParameters := m_NumberOfParameters m;
     m_MovingMINDInterpolators := m_MovingMINDInterpolators m;
     m_MovingMINDFeatureGradients := m_MovingMINDFeatureGradients m;
     m_MovingMINDFeatureGradientInterpolators :=
     m_MovingMINDFeatureGradientInterpolators m; m_CachedFixedImage :=
     m_CachedFixedImage m; m_CachedMovingImage := m_CachedMovingImage m;
     m_FixedMINDFeaturesValid := m_FixedMINDFeaturesValid m;
     m_MovingMINDFeaturesValid := m_MovingMINDFeaturesValid m;
     m_MINDRadius := m_MINDRadius m; m_MINDSigma := m_MINDSigma m;
     m_NeighborhoodType := m_NeighborhoodType m; m_NeighborhoodOffsets :=
     m_NeighborhoodOffsets m; m_SamplingPercentage := m_SamplingPercentage
     m; m_RandomSeed := m_RandomSeed m; m_UseFixedSeed := m_UseFixedSeed
     m; m_UseStratifiedSampling := m_UseStratifiedSampling m;
     m_NumberOfValidSamples := m_NumberOfValidSamples m; m_SamplePoints :=
     v; m_CurrentValue := m_CurrentValue m; m_RandomGenerator :=
     m_RandomGenerator m |}.

Definition set_CurrentValue (v : R) (m : MINDMetric) : MINDMetric :=
  {| m_FixedImage := m_FixedImage m; m_MovingImage := m_MovingImage m;
     m_Transform := m_Transform m; m_FixedMINDFeatures :=
     m_FixedMINDFeatures m; m_MovingMINDFeatures := m_MovingMINDFeatures
     m; m_FixedImageMask := m_FixedImageMask m; m_JacobianFunction :=
     m_JacobianFunction m; m_NumberOfParameters := m_NumberOfParameters m;
     m_MovingMINDInterpolators := m_MovingMINDInterpolators m;
     m_MovingMINDFeatureGradients := m_MovingMINDFeatureGradients m;
     m_MovingMINDFeatureGradientInterpolators :=
     m_MovingMINDFeatureGradientInterpolators m; m_CachedFixedImage :=
     m_CachedFixedImage m; m_CachedMovingImage := m_CachedMovingImage m;
     m_FixedMINDFeaturesValid := m_FixedMINDFeaturesValid m;
     m_MovingMINDFeaturesValid := m_MovingMINDFeaturesValid m;
     m_MINDRadius := m_MINDRadius m; m_MINDSigma := m_MINDSigma m;
     m_NeighborhoodType := m_NeighborhoodType m; m_NeighborhoodOffsets :=
     m_NeighborhoodOffsets m; m_SamplingPercentage := m_SamplingPercentage
     m; m_RandomSeed := m_RandomSeed m; m_UseFixedSeed := m_UseFixedSeed
     m; m_UseStratifiedSampling := m_UseStratifiedSampling m;
     m_NumberOfValidSamples := m_NumberOfValidSamples m; m_SamplePoints :=
     m_SamplePoints m; m_CurrentValue := v; m_RandomGenerator :=
     m_RandomGenerator m |}.

Definition set_RandomGenerator (v : Generator) (m : MINDMetric) : MINDMetric :=
  {| m_FixedImage := m_FixedImage m; m_MovingImage := m_MovingImage m;
     m_Transform := m_Transform m; m_FixedMINDFeatures :=
     m_FixedMINDFeatures m; m_MovingMINDFeatures := m_MovingMINDFeatures
     m; m_FixedImageMask := m_FixedImageMask m; m_JacobianFunction :=
     m_JacobianFunction m; m_NumberOfParameters := m_NumberOfParameters m;
     m_MovingMINDInterpolators := m_MovingMINDInterpolators m;
     m_MovingMINDFeatureGradients := m_MovingMINDFeatureGradients m;
     m_MovingMINDFeatureGradientInterpolators :=
     m_MovingMINDFeatureGradientInterpolators m; m_CachedFixedImage :=
     m_CachedFixedImage m; m_CachedMovingImage := m_CachedMovingImage m;
     m_FixedMINDFeaturesValid := m_FixedMINDFeaturesValid m;
     m_MovingMINDFeaturesValid := m_MovingMINDFeaturesValid m;
     m_MINDRadius := m_MINDRadius m; m_MINDSigma := m_MINDSigma m;
     m_NeighborhoodType := m_NeighborhoodType m; m_NeighborhoodOffsets :=
     m_NeighborhoodOffsets m; m_SamplingPercentage := m_SamplingPercentage
     m; m_RandomSeed := m_RandomSeed m; m_UseFixedSeed := m_UseFixedSeed
     m; m_UseStratifiedSampling := m_UseStratifiedSampling m;
     m_NumberOfValidSamples := m_NumberOfValidSamples m; m_SamplePoints :=
     m_SamplePoints m; m_CurrentValue := m_CurrentValue m;
     m_RandomGenerator := v |}.

Definition set_Transform (v : option (Point -> Point)) (m : MINDMetric)
  : MINDMetric :=
  {| m_FixedImage := m_FixedImage m; m_MovingImage := m_MovingImage m;
     m_Transform := v; m_FixedMINDFeatures := m_FixedMINDFeatures m;
     m_MovingMINDFeatures := m_MovingMINDFeatures m; m_FixedImageMask :=
     m_FixedImageMask m; m_JacobianFunction := m_JacobianFunction m;
     m_NumberOfParameters := m_NumberOfParameters m;
     m_MovingMINDInterpolators := m_MovingMINDInterpolators m;
     m_MovingMINDFeatureGradients := m_MovingMINDFeatureGradients m;
     m_MovingMINDFeatureGradientInterpolators :=
     m_MovingMINDFeatureGradientInterpolators m; m_CachedFixedImage :=
     m_CachedFixedImage m; m_CachedMovingImage := m_CachedMovingImage m;
     m_FixedMINDFeaturesValid := m_FixedMINDFeaturesValid m;
     m_MovingMINDFeaturesValid := m_MovingMINDFeaturesValid m;
     m_MINDRadius := m_MINDRadius m; m_MINDSigma := m_MINDSigma m;
     m_NeighborhoodType := m_NeighborhoodType m; m_NeighborhoodOffsets
     := m_NeighborhoodOffsets m; m_SamplingPercentage :=
     m_SamplingPercentage m; m_RandomSeed := m_RandomSeed m;
     m_UseFixedSeed := m_UseFixedSeed m; m_UseStratifiedSampling :=
     m_UseStratifiedSampling m; m_NumberOfValidSamples :=
     m_NumberOfValidSamples m; m_SamplePoints := m_SamplePoints m;
     m_CurrentValue := m_CurrentValue m; m_RandomGenerator :=
     m_RandomGenerator m |}.

Definition set_FixedImageMask (v : option (Point -> bool)) (m : MINDMetric)
  : MINDMetric :=
  {| m_FixedImage := m_FixedImage m; m_MovingImage := m_MovingImage m;
     m_Transform := m_Transform m; m_FixedMINDFeatures :=
     m_FixedMINDFeatures m; m_MovingMINDFeatures := m_MovingMINDFeatures
     m; m_FixedImageMask := v; m_JacobianFunction := m_JacobianFunction
     m; m_NumberOfParameters := m_NumberOfParameters m;
     m_MovingMINDInterpolators := m_MovingMINDInterpolators m;
     m_MovingMINDFeatureGradients := m_MovingMINDFeatureGradients m;
     m_MovingMINDFeatureGradientInterpolators :=
     m_MovingMINDFeatureGradientInterpolators m; m_CachedFixedImage :=
     m_CachedFixedImage m; m_CachedMovingImage := m_CachedMovingImage m;
     m_FixedMINDFeaturesValid := m_FixedMINDFeaturesValid m;
     m_MovingMINDFeaturesValid := m_MovingMINDFeaturesValid m;
     m_MINDRadius := m_MINDRadius m; m_MINDSigma := m_MINDSigma m;
     m_NeighborhoodType := m_NeighborhoodType m; m_NeighborhoodOffsets
     := m_NeighborhoodOffsets m; m_SamplingPercentage :=
     m_SamplingPercentage m; m_RandomSeed := m_RandomSeed m;
     m_UseFixedSeed := m_UseFixedSeed m; m_UseStratifiedSampling :=
     m_UseStratifiedSampling m; m_NumberOfValidSamples :=
     m_NumberOfValidSamples m; m_SamplePoints := m_SamplePoints m;
     m_CurrentValue := m_CurrentValue m; m_RandomGenerator :=
     m_RandomGenerator m |}.

Definition set_JacobianFunction (v : option (Point -> list (R * R * R))) (m : MINDMetric)
  : MINDMetric :=
  {| m_FixedImage := m_FixedImage m; m_MovingImage := m_MovingImage m;
     m_Transform := m_Transform m; m_FixedMINDFeatures :=
     m_FixedMINDFeatures m; m_MovingMINDFeatures := m_MovingMINDFeatures
     m; m_FixedImageMask := m_FixedImageMask m; m_JacobianFunction := v;
     m_NumberOfParameters := m_NumberOfParameters m;
     m_MovingMINDInterpolators := m_MovingMINDInterpolators m;
     m_MovingMINDFeatureGradients := m_MovingMINDFeatureGradients m;
     m_MovingMINDFeatureGradientInterpolators :=
     m_MovingMINDFeatureGradientInterpolators m; m_CachedFixedImage :=
     m_CachedFixedImage m; m_CachedMovingImage := m_CachedMovingImage m;
     m_FixedMINDFeaturesValid := m_FixedMINDFeaturesValid m;
     m_MovingMINDFeaturesValid := m_MovingMINDFeaturesValid m;
     m_MINDRadius := m_MINDRadius m; m_MINDSigma := m_MINDSigma m;
     m_NeighborhoodType := m_NeighborhoodType m; m_NeighborhoodOffsets
     := m_NeighborhoodOffsets m; m_SamplingPercentage :=
     m_SamplingPercentage m; m_RandomSeed := m_RandomSeed m;
     m_UseFixedSeed := m_UseFixedSeed m; m_UseStratifiedSampling :=
     m_UseStratifiedSampling m; m_NumberOfValidSamples :=
     m_NumberOfValidSamples m; m_SamplePoints := m_SamplePoints m;
     m_CurrentValue := m_CurrentValue m; m_RandomGenerator :=
     m_RandomGenerator m |}.

Definition set_NumberOfParameters (v : nat) (m : MINDMetric)
  : MINDMetric :=
  {| m_FixedImage := m_FixedImage m; m_MovingImage := m_MovingImage m;
     m_Transform := m_Transform m; m_FixedMINDFeatures :=
     m_FixedMINDFeatures m; m_MovingMINDFeatures := m_MovingMINDFeatures
     m; m_FixedImageMask := m_FixedImageMask m; m_JacobianFunction :=
     m_JacobianFunction m; m_NumberOfParameters := v;
     m_MovingMINDInterpolators := m_MovingMINDInterpolators m;
     m_MovingMINDFeatureGradients := m_MovingMINDFeatureGradients m;
     m_MovingMINDFeatureGradientInterpolators :=
     m_MovingMINDFeatureGradientInterpolators m; m_CachedFixedImage :=
     m_CachedFixedImage m; m_CachedMovingImage := m_CachedMovingImage m;
     m_FixedMINDFeaturesValid := m_FixedMINDFeaturesValid m;
     m_MovingMINDFeaturesValid := m_MovingMINDFeaturesValid m;
     m_MINDRadius := m_MINDRadius m; m_MINDSigma := m_MINDSigma m;
     m_NeighborhoodType := m_NeighborhoodType m; m_NeighborhoodOffsets
     := m_NeighborhoodOffsets m; m_SamplingPercentage :=
     m_SamplingPercentage m; m_RandomSeed := m_RandomSeed m;
     m_UseFixedSeed := m_UseFixedSeed m; m_UseStratifiedSampling :=
     m_UseStratifiedSampling m; m_NumberOfValidSamples :=
     m_NumberOfValidSamples m; m_SamplePoints := m_SamplePoints m;
     m_CurrentValue := m_CurrentValue m; m_RandomGenerator :=
     m_RandomGenerator m |}.

Definition set_SamplingPercentage (v : float) (m : MINDMetric)
  : MINDMetric :=
  {| m_FixedImage := m_FixedImage m; m_MovingImage := m_MovingImage m;
     m_Transform := m_Transform m; m_FixedMINDFeatures :=
     m_FixedMINDFeatures m; m_MovingMINDFeatures := m_MovingMINDFeatures
     m; m_FixedImageMask := m_FixedImageMask m; m_JacobianFunction :=
     m_JacobianFunction m; m_NumberOfParameters := m_NumberOfParameters
     m; m_MovingMINDInterpolators := m_MovingMINDInterpolators m;
     m_MovingMINDFeatureGradients := m_MovingMINDFeatureGradients m;
     m_MovingMINDFeatureGradientInterpolators :=
     m_MovingMINDFeatureGradientInterpolators m; m_CachedFixedImage :=
     m_CachedFixedImage m; m_CachedMovingImage := m_CachedMovingImage m;
     m_FixedMINDFeaturesValid := m_FixedMINDFeaturesValid m;
     m_MovingMINDFeaturesValid := m_MovingMINDFeaturesValid m;
     m_MINDRadius := m_MINDRadius m; m_MINDSigma := m_MINDSigma m;
     m_NeighborhoodType := m_NeighborhoodType m; m_NeighborhoodOffsets
     := m_NeighborhoodOffsets m; m_SamplingPercentage := v; m_RandomSeed
     := m_RandomSeed m; m_UseFixedSeed := m_UseFixedSeed m;
     m_UseStratifiedSampling := m_UseStratifiedSampling m;
     m_NumberOfValidSamples := m_NumberOfValidSamples m; m_SamplePoints
     := m_SamplePoints m; m_CurrentValue := m_CurrentValue m;
     m_RandomGenerator := m_RandomGenerator m |}.

Definition set_UseStratifiedSampling (v : bool) (m : MINDMetric)
  : MINDMetric :=
  {| m_FixedImage := m_FixedImage m; m_MovingImage := m_MovingImage m;
     m_Transform := m_Transform m; m_FixedMINDFeatures :=
     m_FixedMINDFeatures m; m_MovingMINDFeatures := m_MovingMINDFeatures
     m; m_FixedImageMask := m_FixedImageMask m; m_JacobianFunction :=
     m_JacobianFunction m; m_NumberOfParameters := m_NumberOfParameters
     m; m_MovingMINDInterpolators := m_MovingMINDInterpolators m;
     m_MovingMINDFeatureGradients := m_MovingMINDFeatureGradients m;
     m_MovingMINDFeatureGradientInterpolators :=
     m_MovingMINDFeatureGradientInterpolators m; m_CachedFixedImage :=
     m_CachedFixedImage m; m_CachedMovingImage := m_CachedMovingImage m;
     m_FixedMINDFeaturesValid := m_FixedMINDFeaturesValid m;
     m_MovingMINDFeaturesValid := m_MovingMINDFeaturesValid m;
     m_MINDRadius := m_MINDRadius m; m_MINDSigma := m_MINDSigma m;
     m_NeighborhoodType := m_NeighborhoodType m; m_NeighborhoodOffsets
     := m_NeighborhoodOffsets m; m_SamplingPercentage :=
     m_SamplingPercentage m; m_RandomSeed := m_RandomSeed m;
     m_UseFixedSeed := m_UseFixedSeed m; m_UseStratifiedSampling := v;
     m_NumberOfValidSamples := m_NumberOfValidSamples m; m_SamplePoints
     := m_SamplePoints m; m_CurrentValue := m_CurrentValue m;
     m_RandomGenerator := m_RandomGenerator m |}.

(** *** Setters of the public interface *)

Definition SetTransform (transform : option (Point -> Point))
    (m : MINDMetric) : MINDMetric :=
  set_Transform transform m.

Definition SetJacobianFunction (func : option (Point -> list (R * R * R)))
    (m : MINDMetric) : MINDMetric :=
  set_JacobianFunction func m.

Definition SetNumberOfParameters (num : nat) (m : MINDMetric) : MINDMetric :=
  set_NumberOfParameters num m.

Definition SetSamplingPercentage (percent : float) (m : MINDMetric)
  : MINDMetric :=
  set_SamplingPercentage percent m.

Definition SetFixedImageMask (mask : option (Point -> bool)) (m : MINDMetric)
  : MINDMetric :=
  set_FixedImageMask mask m.

Definition SetUseStratifiedSampling (use : bool) (m : MINDMetric)
  : MINDMetric :=
  set_UseStratifiedSampling use m.

Definition SetMINDSigma (sigma : R) (m : MINDMetric) : MINDMetric :=
  set_MINDSigma sigma m.

Definition SetMINDRadius (radius : nat) (m : MINDMetric) : MINDMetric :=
  set_MINDRadius radius m.

Definition SetNeighborhoodType (t : NeighborhoodType) (m : MINDMetric)
  : MINDMetric :=
  set_NeighborhoodType t m.

Definition SetRandomSeed (seed : N) (m : MINDMetric) : MINDMetric :=
  set_UseFixedSeed true (set_RandomSeed seed m).

Definition SetFixedImage (fixedImage : option Pointer) (m : MINDMetric)
  : MINDMetric :=
  set_FixedMINDFeaturesValid false (set_FixedImage fixedImage m).

Definition SetMovingImage (movingImage : option Pointer) (m : MINDMetric)
  : MINDMetric :=
  set_MovingMINDFeaturesValid false (set_MovingImage movingImage m).

(** MINDMetric::InitializeNeighborhoodOffsets *)
Definition InitializeNeighborhoodOffsets (m : MINDMetric) : MINDMetric :=
  set_NeighborhoodOffsets (offsets_of (m_NeighborhoodType m)) m.

(** MINDMetric::ResetCache *)
Definition ResetCache (m : MINDMetric) : MINDMetric :=
  set_MovingMINDFeaturesValid false
    (set_FixedMINDFeaturesValid false
       (set_CachedMovingImage None
          (set_CachedFixedImage None m))).

(** Two states differ only in the value passed to SetMINDSigma when
    they agree once that member is overwritten. *)
Definition differ_only_in_sigma (m1 m2 : MINDMetric) : Prop :=
  set_MINDSigma 0 m1 = set_MINDSigma 0 m2.

(** A result with its successor state, the latter read up to that member. *)
Definition up_to_sigma {A : Type} (r : option (A * MINDMetric))
  : option (A * MINDMetric) :=
  option_map (fun x => (fst x, set_MINDSigma 0 (snd x))) r.

(** *** Descriptor *)

(** An image with the geometry of [image] and the pixels [f]. *)
Definition like (image : Image) (f : Index -> R) : Image :=
  {| size := size image; pixel := f; toPhysical := toPhysical image |}.

(** MINDMetric::ApplyMeanFilter *)
Definition ApplyMeanFilter (m : MINDMetric) (image : Image) : Image :=
  MeanImageFilter (m_MINDRadius m) image.

(** MINDMetric::ComputePatchDistances *)
Definition ComputePatchDistances (m : MINDMetric) (image : Image)
  : list Image :=
  map (fun offset : Index =>
         let '(dx, dy, dz) := offset in
         let shiftedImage := ShiftImage image dx dy dz in
         ApplyMeanFilter m
           (SquareImageFilter (SubtractImageFilter image shiftedImage)))
      (m_NeighborhoodOffsets m).

(** [maxVal = 0; for (dir ...) maxVal = std::max(maxVal, features[dir](idx))] *)
Definition channel_max (features : list Image) (idx : Index) : R :=
  fold_left (fun maxVal f => Rmax maxVal (pixel f idx)) features 0.

(** The largest of the values of a list of non-negative reals, found as
    the loop above finds it. *)
Definition max_over (l : list R) : R := fold_left Rmax l 0.

(** MINDMetric::ComputeMINDFeatures.  The source reads [dpImages[0]]; the
    offset list it iterates has 6 or 26 entries. *)
Definition ComputeMINDFeatures (m : MINDMetric) (image : Image)
  : list Image :=
  let dpImages := ComputePatchDistances m image in
  match dpImages with
  | [] => []
  | dp0 :: rest =>
      let sumImage := fold_left AddImageFilter rest dp0 in
      let numDirections := INR (length (m_NeighborhoodOffsets m)) in
      let varianceImage :=
        like image (fun idx => pixel sumImage idx / numDirections + 1e-10) in
      let mindFeatures :=
        map (fun dp => like image (fun idx =>
               exp (- pixel dp idx / pixel varianceImage idx))) dpImages in
      let maxImage :=
        like image (fun idx => channel_max mindFeatures idx + 1e-10) in
      map (fun f => like image (fun idx => pixel f idx / pixel maxImage idx))
          mindFeatures
  end.

(** MINDMetric::ComputeMINDFeatureGradients: the gradient images of the
    moving features, on which the gradient interpolators are set. *)
Definition ComputeMINDFeatureGradients (m : MINDMetric) : MINDMetric :=
  let grads := map GradientImageFilter (m_MovingMINDFeatures m) in
  set_MovingMINDFeatureGradientInterpolators grads
    (set_MovingMINDFeatureGradients grads m).

(** *** Sampling *)

(** The values [x] takes in [for (x = from; x < bound; x += step)]. *)
Fixpoint loop_values (fuel : nat) (x bound step : Z) : list Z :=
  match fuel with
  | O => []
  | S k => if (x <? bound)%Z
           then x :: loop_values k (x + step)%Z bound step
           else []
  end.

Definition for_range (from bound step : Z) : list Z :=
  loop_values (Z.to_nat (bound - from)) from bound step.

(** [static_cast<unsigned long>(totalVoxels * m_SamplingPercentage)]: the
    count of voxels becomes a double, the product is rounded to a double
    and the conversion to the 64-bit unsigned type truncates it. *)
Definition targetSamples_of (totalVoxels : Z) (percentage : float)
  : option nat :=
  option_map Z.to_nat
    (cast_unsigned 64 (to_double totalVoxels * percentage)%float).

(** [std::cbrt(static_cast<double>(totalVoxels) / targetSamples)] *)
Definition samplingInterval_of (totalVoxels : Z) (targetSamples : nat)
  : float :=
  cbrt (to_double totalVoxels / to_double (Z.of_nat targetSamples))%float.

(** [std::max(1u, static_cast<unsigned int>(samplingInterval))] *)
Definition step_of (totalVoxels : Z) (targetSamples : nat) : option Z :=
  option_map (Z.max 1)
    (cast_unsigned 32 (samplingInterval_of totalVoxels targetSamples)).

(** The sample built for an index that passed the mask test. *)
Definition make_sample (m : MINDMetric) (fixed : Image) (index : Index)
  : SamplePoint :=
  {| fixedPoint := toPhysical fixed index;
     fixedIndex := index;
     fixedMINDValues :=
       map (fun f => pixel f index) (m_FixedMINDFeatures m) |}.

(** [m_FixedImageMask.IsNotNull() && !mask->IsInsideInObjectSpace(point)] *)
Definition mask_rejects (m : MINDMetric) (point : Point) : bool :=
  match m_FixedImageMask m with
  | Some inside => negb (inside point)
  | None => false
  end.

(** The candidates of the three nested loops in the order the loops visit
    them: [z] outermost, [x] innermost. *)
Definition lattice (sz : Index) (padding step : Z) : list Index :=
  let '(sx, sy, szz) := sz in
  flat_map (fun z =>
    flat_map (fun y =>
      map (fun x => (x, y, z))
          (for_range padding (sx - padding) step))
      (for_range padding (sy - padding) step))
    (for_range padding (szz - padding) step).

(** The order in which the loops visit two indices: [z] counts slowest,
    [x] fastest. *)
Definition visited_before (a b : Index) : Prop :=
  let '(x1, y1, z1) := a in
  let '(x2, y2, z2) := b in
  (z1 < z2 \/ (z1 = z2 /\ (y1 < y2 \/ (y1 = y2 /\ x1 < x2))))%Z.

(** The body of the nested loops over the remaining candidates: leave at
    once when the target is reached ([goto sampling_complete]), skip a
    candidate the mask rejects ([continue]), else append its sample. *)
Fixpoint stratified_loop (m : MINDMetric) (fixed : Image)
    (targetSamples : nat) (candidates : list Index)
    (samples : list SamplePoint) : list SamplePoint :=
  match candidates with
  | [] => samples
  | index :: rest =>
      if (targetSamples <=? length samples)%nat then samples
      else if mask_rejects m (toPhysical fixed index)
      then stratified_loop m fixed targetSamples rest samples
      else stratified_loop m fixed targetSamples rest
             (samples ++ [make_sample m fixed index])
  end.

(** [size[i] - padding] in the unsigned 64-bit arithmetic of
    itk::SizeValueType: below the padding the difference wraps. *)
Definition loop_bound (sz padding : Z) : Z := ((sz - padding) mod 2 ^ 64)%Z.

(** [padding < size[i] - padding]: the loop over the axis runs its body. *)
Definition enters (sz padding : Z) : bool :=
  (padding <? loop_bound sz padding)%Z.

(** The bound of the axis has wrapped: the 32-bit counter never reaches
    it. *)
Definition wraps (sz padding : Z) : bool := (sz <? padding)%Z.

(** No bound wraps. *)
Definition padding_fits (sz : Index) (padding : Z) : bool :=
  let '(sx, sy, szz) := sz in
  ((padding <=? sx) && (padding <=? sy) && (padding <=? szz))%Z.

(** The values are those of the C++ types: every component of an
    itk::Size is a 64-bit unsigned value, and the pad, an unsigned int, has
    not wrapped. *)
Definition representable (sz : Index) (padding : Z) : bool :=
  let '(sx, sy, szz) := sz in
  ((0 <=? sx) && (sx <? 2 ^ 64) && (0 <=? sy) && (sy <? 2 ^ 64)
   && (0 <=? szz) && (szz <? 2 ^ 64) && (padding <? 2 ^ 32))%Z.

(** The counters [x], [y] and [z] are unsigned ints: [x += step] does not
    wrap below a bound when the bound plus the step fits 32 bits. *)
Definition counters_fit (sz : Index) (padding step : Z) : bool :=
  let '(sx, sy, szz) := sz in
  ((loop_bound sx padding + step <=? 2 ^ 32)
   && (loop_bound sy padding + step <=? 2 ^ 32)
   && (loop_bound szz padding + step <=? 2 ^ 32))%Z.

(** How the three nested loops run.  [Some false]: they end with no sample
    taken, because a loop is not entered or because the first test of the
    target succeeds; [Some true]: they visit the lattice inside the image;
    [None]: a loop with a wrapped bound never ends or leaves the image (or
    the pad has wrapped). *)
Definition traversal (sz : Index) (padding : Z) (targetSamples : nat)
  : option bool :=
  let '(sx, sy, szz) := sz in
  if negb (representable sz padding) then None
  else if negb (enters szz padding) then Some false
  else if negb (enters sy padding) then
    if wraps szz padding then None else Some false
  else if negb (enters sx padding) then
    if wraps szz padding || wraps sy padding then None else Some false
  else if (targetSamples =? 0)%nat then Some false
  else if padding_fits sz padding then Some true
  else None.

(** MINDMetric::SampleFixedImageStratified; [None] when the fixed image is
    null, when a conversion to an unsigned type is undefined and its
    result is used, when a wrapped loop does not end inside the image, or
    when a 32-bit counter could wrap.  [unsigned long] has 64 bits. *)
Definition SampleFixedImageStratified (m : MINDMetric) : option MINDMetric :=
  match m_FixedImage m with
  | None => None
  | Some fixedPtr =>
      let fixed := target fixedPtr in
      let '(sx, sy, szz) := size fixed in
      let totalVoxels := ((sx * sy * szz) mod 2 ^ 64)%Z in
      match targetSamples_of totalVoxels (m_SamplingPercentage m) with
      | None => None
      | Some targetSamples =>
          let padding := (Z.of_nat (m_MINDRadius m) + 1)%Z in
          match traversal (size fixed) padding targetSamples with
          | None => None
          | Some false => Some (set_SamplePoints [] m)
          | Some true =>
              match step_of totalVoxels targetSamples with
              | None => None
              | Some step =>
                  if counters_fit (size fixed) padding step then
                    Some (set_SamplePoints
                            (stratified_loop m fixed targetSamples
                               (lattice (size fixed) padding step) [])
                            m)
                  else None
              end
          end
      end
  end.

(** The while loop of SampleFixedImageRandom with [attemptsLeft] attempts
    to go: the samples and the engine it leaves. *)
Fixpoint random_loop (m : MINDMetric) (fixed : Image) (targetSamples : nat)
    (padding : Z) (attemptsLeft : nat) (gen : Generator)
    (samples : list SamplePoint) : list SamplePoint * Generator :=
  match attemptsLeft with
  | O => (samples, gen)
  | S k =>
      if (targetSamples <=? length samples)%nat then (samples, gen)
      else
        let '(sx, sy, szz) := size fixed in
        let '(x, gen) := uniform_int padding (sx - padding - 1) gen in
        let '(y, gen) := uniform_int padding (sy - padding - 1) gen in
        let '(z, gen) := uniform_int padding (szz - padding - 1) gen in
        let index := (x, y, z) in
        if mask_rejects m (toPhysical fixed index)
        then random_loop m fixed targetSamples padding k gen samples
        else random_loop m fixed targetSamples padding k gen
               (samples ++ [make_sample m fixed index])
  end.

(** MINDMetric::SampleFixedImageRandom *)
Definition SampleFixedImageRandom (m : MINDMetric) : option MINDMetric :=
  match m_FixedImage m with
  | None => None
  | Some fixedPtr =>
      let fixed := target fixedPtr in
      let '(sx, sy, szz) := size fixed in
      let totalVoxels := ((sx * sy * szz) mod 2 ^ 64)%Z in
      match targetSamples_of totalVoxels (m_SamplingPercentage m) with
      | None => None
      | Some targetSamples =>
          let padding := (Z.of_nat (m_MINDRadius m) + 1)%Z in
          let maxAttempts := (targetSamples * 3)%nat in
          let '(samples, gen) :=
            random_loop m fixed targetSamples padding maxAttempts
              (m_RandomGenerator m) [] in
          Some (set_RandomGenerator gen (set_SamplePoints samples m))
      end
  end.

(** MINDMetric::SampleFixedImage *)
Definition SampleFixedImage (m : MINDMetric) : option MINDMetric :=
  if m_UseStratifiedSampling m
  then SampleFixedImageStratified m
  else SampleFixedImageRandom m.

(** The cube root of a real number. *)
Definition real_cbrt (x : R) : R :=
  if Rlt_dec 0 x then Rpower x (/ 3)
  else if Rlt_dec x 0 then - Rpower (- x) (/ 3)
  else 0.

(** The sample count and the lattice step as the specification words
    them, over the reals: [round(percentage * total)] and
    [ceil(cbrt(total / target))]. *)
Definition targetSamples_claimed (totalVoxels : Z) (percentage : R) : nat :=
  Z.to_nat (Int_part (percentage * IZR totalVoxels + / 2)).

Definition step_claimed (totalVoxels : Z) (targetSamples : nat) : Z :=
  (- Int_part (- real_cbrt (IZR totalVoxels / INR targetSamples)))%Z.

(** Whether the sampling stays inside the model. *)
Definition sampling_defined (m : MINDMetric) : bool :=
  match m_FixedImage m with
  | None => false
  | Some fixedPtr =>
      let '(sx, sy, szz) := size (target fixedPtr) in
      let totalVoxels := ((sx * sy * szz) mod 2 ^ 64)%Z in
      match targetSamples_of totalVoxels (m_SamplingPercentage m) with
      | None => false
      | Some targetSamples =>
          if m_UseStratifiedSampling m then
            match traversal (size (target fixedPtr))
                    (Z.of_nat (m_MINDRadius m) + 1)%Z targetSamples with
            | None => false
            | Some false => true
            | Some true =>
                match step_of totalVoxels targetSamples with
                | None => false
                | Some step =>
                    counters_fit (size (target fixedPtr))
                      (Z.of_nat (m_MINDRadius m) + 1)%Z step
                end
            end
          else true
      end
  end.

(** *** Initialization *)

(** What Initialize does with each bundle; the verbose output names the
    same four cases. *)
Inductive Event : Set :=
  | ComputedFixedFeatures
  | UsedCachedFixedFeatures
  | ComputedMovingFeatures
  | UsedCachedMovingFeatures.

(** The two cache tests of Initialize, each followed by the computation
    or by the reuse of a bundle. *)
Definition refresh_features (fixedPtr movingPtr : Pointer) (m : MINDMetric)
  : MINDMetric * list Event :=
  let fixedImageChanged :=
    ptr_neq (m_CachedFixedImage m) (m_FixedImage m) in
  let '(m, ev1) :=
    if fixedImageChanged || negb (m_FixedMINDFeaturesValid m) then
      (set_FixedMINDFeaturesValid true
         (set_CachedFixedImage (m_FixedImage m)
            (set_FixedMINDFeatures
               (ComputeMINDFeatures m (target fixedPtr)) m)),
       ComputedFixedFeatures)
    else (m, UsedCachedFixedFeatures) in
  let movingImageChanged :=
    ptr_neq (m_CachedMovingImage m) (m_MovingImage m) in
  let '(m, ev2) :=
    if movingImageChanged || negb (m_MovingMINDFeaturesValid m) then
      let m := set_MovingMINDFeatures
                 (ComputeMINDFeatures m (target movingPtr)) m in
      let m := ComputeMINDFeatureGradients m in
      let m := set_MovingMINDInterpolators (m_MovingMINDFeatures m) m in
      (set_MovingMINDFeaturesValid true
         (set_CachedMovingImage (m_MovingImage m) m),
       ComputedMovingFeatures)
    else (m, UsedCachedMovingFeatures) in
  (m, [ev1; ev2]).

(** The engine Initialize leaves: seeded after the sampling. *)
Definition seeded_engine (m : MINDMetric) : Generator :=
  if m_UseFixedSeed m
  then seed_engine (m_RandomSeed m)
  else seed_engine random_device.

(** MINDMetric::Initialize; [None] is the std::runtime_error thrown for a
    missing image or transform (or a sampling that leaves the model). *)
Definition Initialize (m : MINDMetric) : option (MINDMetric * list Event) :=
  match m_FixedImage m, m_MovingImage m, m_Transform m with
  | Some fixedPtr, Some movingPtr, Some _ =>
      let m := InitializeNeighborhoodOffsets m in
      let '(m, log) := refresh_features fixedPtr movingPtr m in
      match SampleFixedImage m with
      | None => None
      | Some m => Some (set_RandomGenerator (seeded_engine m) m, log)
      end
  | _, _, _ => None
  end.

(** A bundle is reused when the cached pointer is the current one and the
    validity flag is still set. *)
Definition fixed_cache_hit (m : MINDMetric) : bool :=
  negb (ptr_neq (m_CachedFixedImage m) (m_FixedImage m))
  && m_FixedMINDFeaturesValid m.

Definition moving_cache_hit (m : MINDMetric) : bool :=
  negb (ptr_neq (m_CachedMovingImage m) (m_MovingImage m))
  && m_MovingMINDFeaturesValid m.

(** The reuse rule as the specification words it, for an Initialize called
    in state [next] after the bundles were last computed in state
    [previous]: a bundle is reused exactly when the volume reference and
    the descriptor parameters are those of the previous computation. *)
Definition reuse_as_claimed (previous next : MINDMetric) (log : list Event)
  : Prop :=
  (In UsedCachedFixedFeatures log <->
     ptr_neq (m_FixedImage previous) (m_FixedImage next) = false
     /\ m_MINDRadius previous = m_MINDRadius next
     /\ m_NeighborhoodType previous = m_NeighborhoodType next)
  /\ (In UsedCachedMovingFeatures log <->
        ptr_neq (m_MovingImage previous) (m_MovingImage next) = false
        /\ m_MINDRadius previous = m_MINDRadius next
        /\ m_NeighborhoodType previous = m_NeighborhoodType next).

(** MINDMetric::ReinitializeSampling *)
Definition ReinitializeSampling (m : MINDMetric) : option MINDMetric :=
  match m_MovingImage m with
  | None => None
  | Some movingPtr =>
      let m := set_MovingMINDFeatures
                 (ComputeMINDFeatures m (target movingPtr)) m in
      let m := ComputeMINDFeatureGradients m in
      SampleFixedImage m
  end.

(** *** Metric value, residuals and Jacobian *)

(** What [v[ch]] reads in the model when [ch] is past the end (the source
    never indexes there). *)
Definition null_image : Image :=
  {| size := (0, 0, 0)%Z;
     pixel := fun _ => 0;
     toPhysical := fun _ => (0, 0, 0) |}.

Definition interpolator_at (l : list Image) (ch : nat) : Image :=
  nth ch l null_image.

Definition gradient_interpolators_at (l : list (Image * Image * Image))
    (ch : nat) : Image * Image * Image :=
  nth ch l (null_image, null_image, null_image).

(** The transform the sample loops dereference: a null [m_Transform] is
    only dereferenced when there is a sample to transform. *)
Definition transform_in_loop (m : MINDMetric) : option (Point -> Point) :=
  match m_Transform m with
  | Some T => Some T
  | None => match m_SamplePoints m with
            | [] => Some (fun pt => pt)
            | _ :: _ => None
            end
  end.

(** The channel loop of ComputeMINDSSD for one sample over the channels
    [chs] still to visit: [None] when a channel is outside its buffer
    ([allChannelsValid = false; break]). *)
Fixpoint channel_loop (m : MINDMetric) (sample : SamplePoint)
    (transformedPoint : Point) (chs : list nat) (sampleSSD : R) : option R :=
  match chs with
  | [] => Some sampleSSD
  | ch :: rest =>
      let interp := interpolator_at (m_MovingMINDInterpolators m) ch in
      if IsInsideBuffer interp transformedPoint then
        let movingMINDValue := Evaluate interp transformedPoint in
        let diff := nth ch (fixedMINDValues sample) 0 - movingMINDValue in
        channel_loop m sample transformedPoint rest (sampleSSD + diff * diff)
      else None
  end.

(** The sample loop of ComputeMINDSSD: [(totalSSD, validCount)]. *)
Definition ssd_loop (m : MINDMetric) (T : Point -> Point) : R * nat :=
  let numChannels := length (m_MovingMINDFeatures m) in
  fold_left
    (fun (acc : R * nat) sample =>
       let '(totalSSD, validCount) := acc in
       match channel_loop m sample (T (fixedPoint sample))
               (seq 0 numChannels) 0 with
       | Some sampleSSD => (totalSSD + sampleSSD, S validCount)
       | None => (totalSSD, validCount)
       end)
    (m_SamplePoints m) (0, O).

(** [totalSSD / n] for an unsigned [n]: a double divided by zero is an
    infinity or a NaN, which the real numbers do not hold. *)
Definition divide (totalSSD : R) (n : nat) : option R :=
  if (n =? 0)%nat then None else Some (totalSSD / INR n).

(** MINDMetric::ComputeMINDSSD: the value returned and the state with
    [m_NumberOfValidSamples] recorded; [None] when a null transform is
    dereferenced or the value is not a number. *)
Definition ComputeMINDSSD (m : MINDMetric) : option (R * MINDMetric) :=
  match transform_in_loop m with
  | None => None
  | Some T =>
      let numChannels := length (m_MovingMINDFeatures m) in
      let '(totalSSD, validCount) := ssd_loop m T in
      let ssdValue :=
        if (0 <? validCount)%nat
        then divide totalSSD (validCount * numChannels)
        else Some 0 in
      match ssdValue with
      | None => None
      | Some ssdValue =>
          Some (ssdValue, set_NumberOfValidSamples validCount m)
      end
  end.

(** MINDMetric::GetValue *)
Definition GetValue (m : MINDMetric) : option (R * MINDMetric) :=
  match ComputeMINDSSD m with
  | None => None
  | Some (value, m) => Some (value, set_CurrentValue value m)
  end.

(** No sample is valid: the transformed point of every sample falls
    outside the interpolation buffer of some channel. *)
Definition no_valid_sample (m : MINDMetric) (T : Point -> Point) : Prop :=
  forall sample, In sample (m_SamplePoints m) ->
    exists ch, (ch < length (m_MovingMINDFeatures m))%nat
      /\ IsInsideBuffer (interpolator_at (m_MovingMINDInterpolators m) ch)
           (T (fixedPoint sample)) = false.

(** [allChannelsValid] of GetResiduals. *)
Definition all_channels_inside (m : MINDMetric) (transformedPoint : Point)
  : bool :=
  forallb (fun ch =>
             IsInsideBuffer
               (interpolator_at (m_MovingMINDInterpolators m) ch)
               transformedPoint)
          (seq 0 (length (m_MovingMINDFeatures m))).

(** [fixed - moving] in channel [ch]. *)
Definition residual_at (m : MINDMetric) (sample : SamplePoint)
    (transformedPoint : Point) (ch : nat) : R :=
  nth ch (fixedMINDValues sample) 0
  - Evaluate (interpolator_at (m_MovingMINDInterpolators m) ch)
      transformedPoint.

(** MINDMetric::GetResiduals *)
Definition GetResiduals (m : MINDMetric) : option (list R * MINDMetric) :=
  match transform_in_loop m with
  | None => None
  | Some T =>
      let numChannels := length (m_MovingMINDFeatures m) in
      let '(residuals, validCount) :=
        fold_left
          (fun (acc : list R * nat) sample =>
             let '(residuals, validCount) := acc in
             let transformedPoint := T (fixedPoint sample) in
             if all_channels_inside m transformedPoint then
               (residuals
                  ++ map (residual_at m sample transformedPoint)
                       (seq 0 numChannels),
                S validCount)
             else (residuals, validCount))
          (m_SamplePoints m) ([], O) in
      Some (residuals, set_NumberOfValidSamples validCount m)
  end.

(** [allValid] of GetResidualsAndJacobian: every channel and its three
    gradient components are inside their buffers. *)
Definition all_inside_with_gradients (m : MINDMetric)
    (transformedPoint : Point) : bool :=
  forallb (fun ch =>
             let '(gx, gy, gz) :=
               gradient_interpolators_at
                 (m_MovingMINDFeatureGradientInterpolators m) ch in
             IsInsideBuffer
               (interpolator_at (m_MovingMINDInterpolators m) ch)
               transformedPoint
             && (IsInsideBuffer gx transformedPoint
                 && (IsInsideBuffer gy transformedPoint
                     && IsInsideBuffer gz transformedPoint)))
          (seq 0 (length (m_MovingMINDFeatures m))).

(** One row of the Jacobian: [J[row][p] = -(gradient . dT/dq_p)]. *)
Definition jacobian_row (m : MINDMetric) (transformedPoint : Point)
    (transformJacobian : list (R * R * R)) (ch : nat) : list R :=
  let '(gx, gy, gz) :=
    gradient_interpolators_at
      (m_MovingMINDFeatureGradientInterpolators m) ch in
  let g0 := Evaluate gx transformedPoint in
  let g1 := Evaluate gy transformedPoint in
  let g2 := Evaluate gz transformedPoint in
  map (fun pidx =>
         let '(t0, t1, t2) := nth pidx transformJacobian (0, 0, 0) in
         - (0 + g0 * t0 + g1 * t1 + g2 * t2))
      (seq 0 (m_NumberOfParameters m)).

(** MINDMetric::GetResidualsAndJacobian; [None] also for the
    std::runtime_error thrown without a Jacobian function. *)
Definition GetResidualsAndJacobian (m : MINDMetric)
  : option (list R * list (list R) * MINDMetric) :=
  match m_JacobianFunction m with
  | None => None
  | Some jacobianFunction =>
    match transform_in_loop m with
    | None => None
    | Some T =>
        let numChannels := length (m_MovingMINDFeatures m) in
        let '(residuals, jacobian, validCount) :=
          fold_left
            (fun (acc : list R * list (list R) * nat) sample =>
               let '(residuals, jacobian, validCount) := acc in
               let transformedPoint := T (fixedPoint sample) in
               if all_inside_with_gradients m transformedPoint then
                 let transformJacobian :=
                   jacobianFunction (fixedPoint sample) in
                 (residuals
                    ++ map (residual_at m sample transformedPoint)
                         (seq 0 numChannels),
                  jacobian
                    ++ map (jacobian_row m transformedPoint transformJacobian)
                         (seq 0 numChannels),
                  S validCount)
               else (residuals, jacobian, validCount))
            (m_SamplePoints m) ([], [], O) in
        Some (residuals, jacobian, set_NumberOfValidSamples validCount m)
    end
  end.

(** *** The public interface as a whole *)

(** MINDMetric::MINDMetric: the state the constructor leaves. *)
Definition default_metric : MINDMetric :=
  {| m_FixedImage := None;
     m_MovingImage := None;
     m_Transform := None;
     m_FixedMINDFeatures := [];
     m_MovingMINDFeatures := [];
     m_FixedImageMask := None;
     m_JacobianFunction := None;
     m_NumberOfParameters := 6;
     m_MovingMINDInterpolators := [];
     m_MovingMINDFeatureGradients := [];
     m_MovingMINDFeatureGradientInterpolators := [];
     m_CachedFixedImage := None;
     m_CachedMovingImage := None;
     m_FixedMINDFeaturesValid := false;
     m_MovingMINDFeaturesValid := false;
     m_MINDRadius := 1;
     m_MINDSigma := 0.8;
     m_NeighborhoodType := SixConnected;
     m_NeighborhoodOffsets := offsets_of SixConnected;
     m_SamplingPercentage := 0.15%float;
     m_RandomSeed := 121212%N;
     m_UseFixedSeed := true;
     m_UseStratifiedSampling := true;
     m_NumberOfValidSamples := 0;
     m_SamplePoints := [];
     m_CurrentValue := 0;
     m_RandomGenerator := default_engine |}.

(** A call of a public member function other than Initialize.
    SetNeighborhoodTypeFromString carries the type its string selects;
    GetDerivative carries the value and the count it leaves in
    [m_CurrentValue] and [m_NumberOfValidSamples], the only members it
    writes (its finite-difference path perturbs the parameters of the
    transform and restores them before it returns).  SetVerbose, SetNumberOfThreads and SetNumberOfHistogramBins
    write no member of the model; ComputeMINDFeatures and
    ComputePatchDistances write no member at all. *)
Inductive Call : Type :=
  | CallSetFixedImage (fixedImage : option Pointer)
  | CallSetMovingImage (movingImage : option Pointer)
  | CallSetTransform (transform : option (Point -> Point))
  | CallSetJacobianFunction (func : option (Point -> list (R * R * R)))
  | CallSetNumberOfParameters (num : nat)
  | CallSetMINDRadius (radius : nat)
  | CallSetMINDSigma (sigma : R)
  | CallSetNeighborhoodType (t : NeighborhoodType)
  | CallSetNeighborhoodTypeFromString (t : NeighborhoodType)
  | CallSetSamplingPercentage (percent : float)
  | CallSetRandomSeed (seed : N)
  | CallSetFixedImageMask (mask : option (Point -> bool))
  | CallSetUseStratifiedSampling (use : bool)
  | CallReinitializeSampling
  | CallResetCache
  | CallGetValue
  | CallGetDerivative (value : R) (validCount : nat)
  | CallGetResiduals
  | CallGetResidualsAndJacobian.

(** The state a call leaves; [None] where the call leaves the model. *)
Definition apply_call (c : Call) (m : MINDMetric) : option MINDMetric :=
  match c with
  | CallSetFixedImage fixedImage => Some (SetFixedImage fixedImage m)
  | CallSetMovingImage movingImage => Some (SetMovingImage movingImage m)
  | CallSetTransform transform => Some (SetTransform transform m)
  | CallSetJacobianFunction func => Some (SetJacobianFunction func m)
  | CallSetNumberOfParameters num => Some (SetNumberOfParameters num m)
  | CallSetMINDRadius radius => Some (SetMINDRadius radius m)
  | CallSetMINDSigma sigma => Some (SetMINDSigma sigma m)
  | CallSetNeighborhoodType t => Some (SetNeighborhoodType t m)
  | CallSetNeighborhoodTypeFromString t =>
      Some (InitializeNeighborhoodOffsets (set_NeighborhoodType t m))
  | CallSetSamplingPercentage percent =>
      Some (SetSamplingPercentage percent m)
  | CallSetRandomSeed seed => Some (SetRandomSeed seed m)
  | CallSetFixedImageMask mask => Some (SetFixedImageMask mask m)
  | CallSetUseStratifiedSampling use =>
      Some (SetUseStratifiedSampling use m)
  | CallReinitializeSampling => ReinitializeSampling m
  | CallResetCache => Some (ResetCache m)
  | CallGetValue => option_map snd (GetValue m)
  | CallGetDerivative value validCount =>
      Some (set_NumberOfValidSamples validCount (set_CurrentValue value m))
  | CallGetResiduals => option_map snd (GetResiduals m)
  | CallGetResidualsAndJacobian =>
      option_map snd (GetResidualsAndJacobian m)
  end.

(** A sequence of calls, the first of the list first. *)
Fixpoint apply_calls (calls : list Call) (m : MINDMetric)
  : option MINDMetric :=
  match calls with
  | [] => Some m
  | c :: rest =>
      match apply_call c m with
      | None => None
      | Some m => apply_calls rest m
      end
  end.

(** The calls that clear the validity flag of a bundle. *)
Definition invalidates_fixed (c : Call) : bool :=
  match c with
  | CallSetFixedImage _ | CallResetCache => true
  | _ => false
  end.

Definition invalidates_moving (c : Call) : bool :=
  match c with
  | CallSetMovingImage _ | CallResetCache => true
  | _ => false
  end.

(** The states a program reaches through the public interface. *)
Inductive reachable : MINDMetric -> Prop :=
  | reach_constructor : reachable default_metric
  | reach_call (c : Call) (m m' : MINDMetric) :
      reachable m -> apply_call c m = Some m' -> reachable m'
  | reach_Initialize (m m' : MINDMetric) (log : list Event) :
      reachable m -> Initialize m = Some (m', log) -> reachable m'.

(** What the interface maintains about the channels: the offsets are
    listed, a moving bundle marked valid has channels, and samples are
    only held together with moving channels. *)
Definition has_channels (m : MINDMetric) : Prop :=
  m_NeighborhoodOffsets m <> []
  /\ (m_MovingMINDFeaturesValid m = true -> m_MovingMINDFeatures m <> [])
  /\ (m_SamplePoints m = [] \/ m_MovingMINDFeatures m <> []).

End Metric.

(** *** A reference instance of the library code

    Unit spacing, zero origin and identity direction, so that the
    physical point of an index is the index itself. *)

Definition inside_region (sz idx : Index) : bool :=
  let '(sx, sy, szz) := sz in
  let '(i, j, k) := idx in
  ((0 <=? i) && (i <? sx) && (0 <=? j) && (j <? sy)
   && (0 <=? k) && (k <? szz))%Z.

Definition add_index (a b : Index) : Index :=
  let '(i, j, k) := a in
  let '(di, dj, dk) := b in
  (i + di, j + dj, k + dk)%Z.

(** The offsets of the (2r+1)^3 box. *)
Definition box (r : nat) : list Index :=
  let side := map (fun n => (Z.of_nat n - Z.of_nat r)%Z) (seq 0 (2 * r + 1)) in
  flat_map (fun dz => flat_map (fun dy => map (fun dx => (dx, dy, dz)) side)
                        side) side.

Definition Rsum (l : list R) : R := fold_right Rplus 0 l.

(** Modelled from the spec: [shift(v, dx, dy, dz)] has voxel (i,j,k) equal
    to v(i-dx, j-dy, k-dz), and 0 where that index is out of bounds. *)
Definition shift (v : Image) (dx dy dz : Z) : Image :=
  like v (fun idx =>
    let '(i, j, k) := idx in
    let src := (i - dx, j - dy, k - dz)%Z in
    if inside_region (size v) src then pixel v src else 0).

(** Modelled from the spec: [mean_box(v, r)] is the arithmetic mean over
    the (2r+1)^3 neighbourhood clipped at the boundaries. *)
Definition mean_box (r : nat) (v : Image) : Image :=
  like v (fun idx =>
    let nb := filter (inside_region (size v)) (map (add_index idx) (box r)) in
    Rsum (map (pixel v) nb) / INR (length nb)).

(** Modelled from the spec: [central_gradient(v)] takes central
    differences in index space and is zero on the one-voxel boundary. *)
Definition central_gradient (v : Image) : Image * Image * Image :=
  let interior (idx : Index) : bool :=
    let '(sx, sy, szz) := size v in
    let '(i, j, k) := idx in
    ((1 <=? i) && (i <? sx - 1) && (1 <=? j) && (j <? sy - 1)
     && (1 <=? k) && (k <? szz - 1))%Z in
  let diff (d : Index) : Image :=
    like v (fun idx =>
      if interior idx
      then (pixel v (add_index idx d)
            - pixel v (add_index idx (let '(a, b, c) := d in (- a, - b, - c)%Z)))
           / 2
      else 0) in
  (diff (1, 0, 0)%Z, diff (0, 1, 0)%Z, diff (0, 0, 1)%Z).

(** A point is inside the buffer when each coordinate lies between the
    first and the last voxel centre. *)
Definition inside_buffer (v : Image) (pt : Point) : bool :=
  let '(sx, sy, szz) := size v in
  let '(x, y, z) := pt in
  let within (c : R) (n : Z) : bool :=
    if Rle_dec 0 c then (if Rle_dec c (IZR n - 1) then true else false)
    else false in
  within x sx && within y sy && within z szz.

(** The pixel of the voxel cell that contains the point. *)
Definition evaluate_cell (v : Image) (pt : Point) : R :=
  let '(x, y, z) := pt in
  pixel v (Int_part x, Int_part y, Int_part z).

#[export] Instance reference_itk : Itk.
Proof.
  refine {| ShiftImage := shift;
            MeanImageFilter := mean_box;
            MeanImageFilter_nonneg := _;
            GradientImageFilter := central_gradient;
            IsInsideBuffer := inside_buffer;
            Evaluate := evaluate_cell |}.
  intros r v Hv idx. unfold mean_box, like; simpl.
  set (nb := filter _ _).
  assert (Hs : 0 <= Rsum (map (pixel v) nb)).
  { induction nb as [|a l IH]; simpl; [lra|]. specialize (Hv a). lra. }
  destruct (length nb) as [|n] eqn:Hn.
  - simpl. unfold Rdiv. rewrite Rinv_0. lra.
  - unfold Rdiv. apply Rmult_le_pos; [exact Hs|].
    left. apply Rinv_0_lt_compat. apply lt_0_INR. lia.
Defined.

(** A linear congruential engine standing in for std::mt19937. *)
Definition lcg_next (g : N) : N := ((g * 1103515245 + 12345) mod 2147483648)%N.

Definition lcg_uniform (a b : Z) (g : N) : Z * N :=
  let g' := lcg_next g in
  ((a + Z.of_N g' mod (b - a + 1))%Z, g').

#[export] Instance lcg_engine : RandomEngine :=
  {| Generator := N;
     default_engine := 5489%N;
     seed_engine := fun s => s;
     uniform_int := lcg_uniform;
     random_device := 0%N |}.

(** Newton's iteration for the cube root of a positive double, standing in
    for std::cbrt in the examples. *)
Fixpoint newton_cbrt (n : nat) (x y : float) : float :=
  match n with
  | O => y
  | S k => newton_cbrt k x ((2 * y + x / (y * y)) / 3)%float
  end.

Definition reference_cbrt (x : float) : float :=
  if is_infinity x then x
  else if (0 <? x)%float
  then newton_cbrt 200 x (if (x <? 1)%float then 1%float else x)
  else if (x <? 0)%float
  then (- newton_cbrt 200 (- x) (if (- x <? 1) then 1 else - x))%float
  else x.

#[export] Instance reference_libm : Libm := {| cbrt := reference_cbrt |}.

(** *** A concrete metric

    A 10 x 10 x 10 ramp volume used as fixed and as moving image. *)

Definition ramp : Image :=
  {| size := (10, 10, 10)%Z;
     pixel := fun idx => let '(i, j, k) := idx in IZR (i + 2 * j + 3 * k);
     toPhysical := fun idx => let '(i, j, k) := idx in (IZR i, IZR j, IZR k) |}.

Definition ramp_fixed : Pointer := {| address := 1; target := ramp |}.
Definition ramp_moving : Pointer := {| address := 2; target := ramp |}.

(** The state the constructor leaves, with the two images and a
    transform set. *)
Definition constructed (T : Point -> Point) : MINDMetric :=
  SetTransform (Some T)
    (SetMovingImage (Some ramp_moving)
       (SetFixedImage (Some ramp_fixed) default_metric)).

Definition identity_transform (pt : Point) : Point := pt.

(** The same metric with one moving channel, its interpolator, and one
    sample at index (2,2,2). *)
Definition one_sample_metric (T : Point -> Point) : MINDMetric :=
  set_SamplePoints
    [ {| fixedPoint := (2, 2, 2);
         fixedIndex := (2, 2, 2)%Z;
         fixedMINDValues := [1] |} ]
    (set_MovingMINDInterpolators [ramp]
       (set_MovingMINDFeatures [ramp] (constructed T))).

Definition far_translation (pt : Point) : Point :=
  let '(x, y, z) := pt in (x + 100, y, z).

(** The Jacobian function of a translation: the derivative of the
    transformed point by each of its three parameters. *)
Definition translation_jacobian (_ : Point) : list (R * R * R) :=
  [(1, 0, 0); (0, 1, 0); (0, 0, 1)].

End MIND.

(* ====================================================================== *)
(** ** Properties of the optimizer *)
(* ====================================================================== *)

Module GaussNewtonProps.

Import GaussNewton.
Open Scope float_scope.

(** *** Lists built by loops *)

Lemma tabulate_length {A : Type} (n : nat) (f : nat -> A) :
  length (tabulate n f) = n.
Proof. unfold tabulate. now rewrite length_map, length_seq. Qed.

Lemma nth_tabulate {A : Type} (n : nat) (f : nat -> A) (i : nat) (d : A) :
  (i < n)%nat -> nth i (tabulate n f) d = f i.
Proof.
  intros Hi. unfold tabulate.
  rewrite (nth_indep _ d (f 0%nat)) by now rewrite length_map, length_seq.
  rewrite map_nth, seq_nth; auto.
Qed.

Lemma update_nth_length (i : nat) (g : float -> float) (row : list float) :
  length (update_nth i g row) = length row.
Proof.
  revert i; induction row as [|x t IH]; intros [|i]; simpl; auto.
Qed.

Lemma nth_update_nth_same (i : nat) (g : float -> float) (row : list float) :
  (i < length row)%nat -> nth i (update_nth i g row) 0 = g (nth i row 0).
Proof.
  revert i; induction row as [|x t IH]; intros [|i] Hi; simpl in *;
    try lia; auto.
  apply IH; lia.
Qed.

Lemma nth_update_nth_other (i j : nat) (g : float -> float)
    (row : list float) :
  i <> j -> nth j (update_nth i g row) 0 = nth j row 0.
Proof.
  revert i j; induction row as [|x t IH]; intros [|i] [|j] Hij; simpl;
    auto; try congruence.
Qed.

Lemma nth_map_diag_from (k : nat) (g : float -> float) (A : MatrixXd)
    (i : nat) :
  (i < length A)%nat ->
  nth i (map_diag_from k g A) [] = update_nth (k + i) g (nth i A []).
Proof.
  revert k i; induction A as [|row rest IH]; intros k [|i] Hi; simpl in *;
    try lia.
  - now rewrite Nat.add_0_r.
  - rewrite IH by lia. f_equal. lia.
Qed.

(** [map_diag] rewrites the diagonal entries and nothing else. *)
Lemma coeff_map_diag_diag (g : float -> float) (A : MatrixXd) (p : nat) :
  (p < length (nth p A []))%nat ->
  coeff (map_diag g A) p p = g (coeff A p p).
Proof.
  intros Hp. unfold coeff, map_diag, at_.
  assert (HA : (p < length A)%nat).
  { destruct (Nat.lt_ge_cases p (length A)) as [H|H]; auto.
    rewrite nth_overflow in Hp by lia. simpl in Hp. lia. }
  rewrite nth_map_diag_from by exact HA. simpl.
  now apply nth_update_nth_same.
Qed.

Lemma coeff_map_diag_off (g : float -> float) (A : MatrixXd) (i j : nat) :
  i <> j -> coeff (map_diag g A) i j = coeff A i j.
Proof.
  intros Hij. unfold coeff, map_diag, at_.
  destruct (Nat.lt_ge_cases i (length A)) as [H|H].
  - rewrite nth_map_diag_from by exact H. simpl.
    now apply nth_update_nth_other.
  - assert (L : forall k B, length (map_diag_from k g B) = length B).
    { intros k B; revert k; induction B; simpl; auto. }
    rewrite (nth_overflow A) by lia.
    rewrite (nth_overflow (map_diag_from 0 g A)); auto.
    rewrite L. lia.
Qed.

(** *** One iteration *)

Section Step.

Variable ldlt : MatrixXd -> LDLT.
Variable cfg : Settings.
Variable cost : ParametersType -> float.
Variable grad : option (ParametersType -> ParametersType).
Variable resf : ParametersType -> ResidualVectorType.
Variable jacf : ParametersType -> JacobianMatrixType.

Local Abbreviation step := (AdvanceOneStep ldlt cfg cost grad resf jacf).
Local Abbreviation proposed := (proposal ldlt cfg cost grad resf jacf).
Local Abbreviation entered s0 := (set_Previous (q s0) (m_CurrentValue s0) s0).

(** When SolveNormalEquations returns false. *)
Lemma SolveNormalEquations_None_iff (lambda : float) (JtJ : MatrixXd)
    (Jtf : VectorXd) :
  SolveNormalEquations ldlt cfg lambda JtJ Jtf = None <->
  info_Success (first_factorization ldlt cfg lambda JtJ) = false
  \/ (retried ldlt cfg lambda JtJ = true /\ retry_fails ldlt lambda JtJ = true)
  \/ ((retried ldlt cfg lambda JtJ = false
       \/ retry_fails ldlt lambda JtJ = false)
      /\ info_Success (first_factorization ldlt cfg lambda JtJ) = true
      /\ allFinite (solution ldlt cfg lambda JtJ Jtf) = false).
Proof.
  unfold SolveNormalEquations, retried, retry_fails, solution,
    first_factorization, retry_factorization.
  destruct (info_Success (ldlt (damped_matrix cfg lambda JtJ))) eqn:I1;
    destruct (isPositive (ldlt (damped_matrix cfg lambda JtJ))) eqn:P1;
    destruct (info_Success (ldlt (retry_matrix lambda JtJ))) eqn:I2;
    destruct (isPositive (ldlt (retry_matrix lambda JtJ))) eqn:P2;
    simpl; try destruct (allFinite _) eqn:F; simpl;
    intuition congruence.
Qed.

(** The paths of an iteration that end before a new cost is evaluated. *)
Lemma step_without_update (s0 : State) :
  compute_update ldlt cfg resf jacf (entered s0) = None ->
  step s0 = set_StopCondition SINGULAR_MATRIX (entered s0).
Proof. intros H. unfold AdvanceOneStep. now rewrite H. Qed.

Lemma step_with_small_update (s0 : State) (update : ParametersType) :
  compute_update ldlt cfg resf jacf (entered s0) = Some update ->
  (ComputeScaledUpdateMagnitude cfg update <? m_MinimumStepLength cfg)
    = true ->
  step s0 = set_StopCondition STEP_TOO_SMALL (entered s0).
Proof. intros H1 H2. unfold AdvanceOneStep. now rewrite H1, H2. Qed.

(** An iteration that evaluates the cost at new parameters accepts or
    rejects them and then runs the convergence test. *)
Lemma step_with_proposal (s0 : State) (a : float) (p : ParametersType)
    (v : float) :
  proposed s0 = Some (a, p, v) ->
  step s0 =
  convergence_check cfg
    (if v <? m_CurrentValue s0
     then accept_step cfg p v a (SetParameters p (entered s0))
     else reject_step cfg (q s0) (SetParameters p (entered s0))).
Proof.
  unfold proposal, AdvanceOneStep.
  destruct (compute_update ldlt cfg resf jacf (entered s0)) as [update|];
    [|discriminate].
  destruct (ComputeScaledUpdateMagnitude cfg update <? _); [discriminate|].
  destruct (m_UseLineSearch cfg).
  - unfold LineSearch.
    destruct (0 <=? dirGrad_of cfg grad (entered s0) update); simpl;
      intros H; inversion H; subst; reflexivity.
  - simpl. intros H; inversion H; subst; reflexivity.
Qed.

Lemma proposal_None_cases (s0 : State) :
  proposed s0 = None ->
  compute_update ldlt cfg resf jacf (entered s0) = None
  \/ exists update,
       compute_update ldlt cfg resf jacf (entered s0) = Some update
       /\ (ComputeScaledUpdateMagnitude cfg update <? m_MinimumStepLength cfg)
          = true.
Proof.
  unfold proposal.
  destruct (compute_update ldlt cfg resf jacf (entered s0)) as [update|];
    auto.
  destruct (ComputeScaledUpdateMagnitude cfg update <? _) eqn:E;
    [|discriminate].
  intros _. right. exists update. auto.
Qed.

(** What the convergence test, the accept branch and the reject branch do
    to the stop condition. *)
Lemma convergence_check_stop (s : State) :
  m_StopCondition (convergence_check cfg s) = CONVERGED
  \/ m_StopCondition (convergence_check cfg s) = m_StopCondition s.
Proof.
  unfold convergence_check.
  destruct (_ && _); simpl; auto.
Qed.

Lemma accept_step_stop (p : ParametersType) (v a : float) (s : State) :
  m_StopCondition (accept_step cfg p v a s) = m_StopCondition s.
Proof.
  unfold accept_step. simpl.
  destruct (v <? m_BestValue s); destruct (m_UseLevenbergMarquardt cfg);
    reflexivity.
Qed.

Lemma reject_step_stop (c : ParametersType) (s : State) :
  m_StopCondition (reject_step cfg c s) = STEP_TOO_SMALL
  \/ m_StopCondition (reject_step cfg c s) = m_StopCondition s.
Proof.
  unfold reject_step.
  destruct (m_UseLevenbergMarquardt cfg); simpl;
    destruct (_ <? m_MinimumStepLength cfg); simpl; auto.
Qed.

(** When compute_update yields no update. *)
Lemma compute_update_None_iff (s : State) :
  compute_update ldlt cfg resf jacf s = None <->
  singular_in_code ldlt cfg resf jacf s.
Proof.
  unfold compute_update, singular_in_code.
  destruct (resf (q s)) as [|r0 rs] eqn:R.
  { destruct (normal_equations cfg [] (jacf (q s))). split; auto. }
  destruct (normal_equations cfg (r0 :: rs) (jacf (q s))) as [JtJ Jtf] eqn:NE.
  destruct (invalid_jacobian cfg (jacf (q s))) eqn:IJ.
  { split; auto. }
  pose proof (SolveNormalEquations_None_iff (m_DampingFactor s) JtJ Jtf) as S.
  destruct (SolveNormalEquations ldlt cfg (m_DampingFactor s) JtJ Jtf).
  - split; [discriminate|].
    intros [H|[H|H]]; try discriminate.
    apply S in H. discriminate.
  - split; auto. intros _. right; right. apply S. reflexivity.
Qed.

(** Once an update exists the iteration never ends in SINGULAR_MATRIX by
    its own doing. *)
Lemma stop_after_update (s0 : State) (update : ParametersType) :
  compute_update ldlt cfg resf jacf (entered s0) = Some update ->
  m_StopCondition (step s0) = STEP_TOO_SMALL
  \/ m_StopCondition (step s0) = CONVERGED
  \/ m_StopCondition (step s0) = m_StopCondition s0.
Proof.
  intros U.
  destruct (ComputeScaledUpdateMagnitude cfg update <? m_MinimumStepLength cfg)
    eqn:Small.
  - rewrite (step_with_small_update s0 update U Small). simpl. auto.
  - destruct (proposed s0) as [[[a p] v]|] eqn:P.
    + rewrite (step_with_proposal s0 a p v P).
      destruct (convergence_check_stop
                  (if v <? m_CurrentValue s0
                   then accept_step cfg p v a (SetParameters p (entered s0))
                   else reject_step cfg (q s0) (SetParameters p (entered s0))))
        as [C|C]; rewrite C; auto.
      destruct (v <? m_CurrentValue s0).
      * rewrite accept_step_stop. simpl. auto.
      * destruct (reject_step_stop (q s0) (SetParameters p (entered s0)))
          as [R|R]; rewrite R; simpl; auto.
    + exfalso. unfold proposal in P. rewrite U, Small in P. discriminate.
Qed.

(** What a rejected step leaves behind. *)
Lemma rejected_step_effects (s0 : State) (a : float) (p : ParametersType)
    (v : float) :
  proposed s0 = Some (a, p, v) ->
  (v <? m_CurrentValue s0) = false ->
  let s' := step s0 in
  let relativeImprovement :=
    PrimFloat.abs (m_CurrentValue s0 - m_CurrentValue s0)
    / (PrimFloat.abs (m_CurrentValue s0) + 1e-10) in
  q s' = q s0
  /\ m_CurrentValue s' = m_CurrentValue s0
  /\ m_CurrentStepLength s' = m_CurrentStepLength s0 * m_RelaxationFactor cfg
  /\ m_DampingFactor s' =
       (if m_UseLevenbergMarquardt cfg
        then std_min (m_DampingFactor s0 * 2.0) 1e6
        else m_DampingFactor s0)
  /\ m_StopCondition s' =
       (if (relativeImprovement <? m_GradientMagnitudeTolerance cfg)
           && (m_CurrentValue s0 <=? m_CurrentValue s0)
        then CONVERGED
        else if m_CurrentStepLength s0 * m_RelaxationFactor cfg
                <? m_MinimumStepLength cfg
             then STEP_TOO_SMALL
             else m_StopCondition s0).
Proof.
  intros P Rej. cbv zeta. rewrite (step_with_proposal s0 a p v P), Rej.
  unfold convergence_check, reject_step.
  destruct (m_UseLevenbergMarquardt cfg); simpl;
    destruct (m_CurrentStepLength s0 * m_RelaxationFactor cfg
              <? m_MinimumStepLength cfg); simpl;
    destruct ((PrimFloat.abs (m_CurrentValue s0 - m_CurrentValue s0)
               / (PrimFloat.abs (m_CurrentValue s0) + 1e-10)
               <? m_GradientMagnitudeTolerance cfg)
              && (m_CurrentValue s0 <=? m_CurrentValue s0)); simpl;
    repeat split; reflexivity.
Qed.

(** C7 (as amended): under Levenberg-Marquardt every diagonal entry of
    the matrix factorized first is [JtJ(p,p) + lambda * (JtJ(p,p) + 1e-6)],
    the retry factorizes [JtJ] with [max(10 * lambda, 1e-3)] added to every
    diagonal entry, and an iteration that starts without SINGULAR_MATRIX
    ends with it exactly when the residual vector is empty, the Jacobian
    is empty or its first row has the wrong length, the first
    factorization reports a numerical failure, the single retry (made
    when the first factorization succeeds but reports the matrix not
    positive) fails, or the solution has a non-finite entry. *)
Theorem singular_matrix_iff (s0 : State) :
  m_StopCondition s0 <> SINGULAR_MATRIX ->
  (forall JtJ p, (p < length (nth p JtJ []))%nat ->
     coeff (damped_matrix cfg (m_DampingFactor s0) JtJ) p p =
       (if m_UseLevenbergMarquardt cfg
        then coeff JtJ p p + m_DampingFactor s0 * (coeff JtJ p p + 1e-6)
        else coeff JtJ p p)
     /\ coeff (retry_matrix (m_DampingFactor s0) JtJ) p p =
          coeff JtJ p p + std_max (m_DampingFactor s0 * 10.0) 1e-3)
  /\ (m_StopCondition (step s0) = SINGULAR_MATRIX <->
      singular_in_code ldlt cfg resf jacf s0).
Proof.
  intros Hs. split.
  - intros JtJ p Hp. unfold damped_matrix, retry_matrix. split.
    + destruct (m_UseLevenbergMarquardt cfg); auto.
      now rewrite coeff_map_diag_diag.
    + now rewrite coeff_map_diag_diag.
  - pose proof (compute_update_None_iff (entered s0)) as CU.
    change (singular_in_code ldlt cfg resf jacf (entered s0))
      with (singular_in_code ldlt cfg resf jacf s0) in CU.
    destruct (compute_update ldlt cfg resf jacf (entered s0)) as [update|]
      eqn:U.
    + split.
      * intros H. exfalso.
        destruct (stop_after_update s0 update U) as [E|[E|E]];
          rewrite E in H; try discriminate. now apply Hs.
      * intros H. apply CU in H. discriminate.
    + split; [intros _; now apply CU|].
      intros _. now rewrite (step_without_update s0 U).
Qed.

End Step.

(** *** The iterations of the concrete problems *)

Local Abbreviation quad_step :=
  (AdvanceOneStep eigen_ldlt default_settings quad_cost (Some quad_gradient)
     quad_residuals quad_jacobian).
Local Abbreviation quad_proposal :=
  (proposal eigen_ldlt default_settings quad_cost (Some quad_gradient)
     quad_residuals quad_jacobian).
Local Abbreviation collinear_step :=
  (AdvanceOneStep eigen_ldlt collinear_settings collinear_cost None
     collinear_residuals collinear_jacobian).

Lemma singular_matrix_iff_witness :
  m_StopCondition quad_start <> SINGULAR_MATRIX
  /\ (m_StopCondition (quad_step quad_start) = SINGULAR_MATRIX <->
      singular_in_code eigen_ldlt default_settings quad_residuals quad_jacobian
        quad_start).
Proof.
  split; [discriminate|].
  apply (singular_matrix_iff eigen_ldlt default_settings quad_cost
           (Some quad_gradient) quad_residuals quad_jacobian quad_start).
  discriminate.
Defined.

(** C7 (as stated) fails: without damping, a Jacobian whose first two
    columns coincide gives the singular matrix [[1,1,0],[1,1,0],[0,0,1]];
    its factorization meets a zero pivot followed by a non-zero one and
    reports a numerical failure, and the iteration ends in
    SINGULAR_MATRIX at once, although no retry was made, the retry matrix
    factorizes as positive and its solution is finite. *)
Lemma singular_without_retry :
  let residuals := collinear_residuals (q collinear_start) in
  let jacobian := collinear_jacobian (q collinear_start) in
  let JtJ := fst (normal_equations collinear_settings residuals jacobian) in
  let Jtf := snd (normal_equations collinear_settings residuals jacobian) in
  let lambda := m_DampingFactor collinear_start in
  JtJ = [[1; 1; 0]; [1; 1; 0]; [0; 0; 1]]
  /\ m_StopCondition (collinear_step collinear_start) = SINGULAR_MATRIX
  /\ info_Success (first_factorization eigen_ldlt collinear_settings lambda JtJ)
     = false
  /\ retry_fails eigen_ldlt lambda JtJ = false
  /\ allFinite (solve (retry_factorization eigen_ldlt lambda JtJ)
                  (map PrimFloat.opp Jtf)) = true
  /\ ~ (m_StopCondition (collinear_step collinear_start) = SINGULAR_MATRIX <->
        singular_as_claimed eigen_ldlt collinear_settings collinear_residuals
          collinear_jacobian collinear_start).
Proof.
  cbv zeta.
  repeat split; try (vm_compute; reflexivity).
  intros [H _].
  assert (E : m_StopCondition (collinear_step collinear_start)
              = SINGULAR_MATRIX) by (vm_compute; reflexivity).
  apply H in E. clear H.
  unfold singular_as_claimed in E.
  destruct (normal_equations collinear_settings
              (collinear_residuals (q collinear_start))
              (collinear_jacobian (q collinear_start))) as [JtJ Jtf] eqn:NE.
  vm_compute in NE. inversion NE; subst JtJ Jtf; clear NE.
  destruct E as [E|[E|[[E _]|E]]];
    vm_compute in E; discriminate.
Qed.

(** C1 (the code diverges): from [q = [0]] on the quadratic problem the
    tentative step raises the cost from 9 to about 9.0176, so it is
    rejected, and the iteration still ends with CONVERGED. *)
Theorem rejected_step_reports_converged :
  exists a p v,
    quad_proposal quad_start = Some (a, p, v)
    /\ (v <? m_CurrentValue quad_start) = false
    /\ q (quad_step quad_start) = q quad_start
    /\ m_StopCondition (quad_step quad_start) = CONVERGED.
Proof.
  exists 0.0009765625, [-0.0029267607363369025], 9.0175691303464305.
  repeat split; vm_compute; reflexivity.
Qed.

(** C2 (the code diverges): late in the same run, with the step length at
    the minimum step length, the rejected step restores the parameters,
    halves the step length to below the minimum and doubles the damping,
    and the stop condition it reports is CONVERGED, not STEP_TOO_SMALL. *)
Theorem rejected_step_below_minimum_reports_converged :
  exists a p v,
    quad_proposal quad_late = Some (a, p, v)
    /\ (v <? m_CurrentValue quad_late) = false
    /\ q (quad_step quad_late) = q quad_late
    /\ m_CurrentStepLength (quad_step quad_late)
       = m_CurrentStepLength quad_late * m_RelaxationFactor default_settings
    /\ (m_CurrentStepLength (quad_step quad_late)
        <? m_MinimumStepLength default_settings) = true
    /\ m_DampingFactor (quad_step quad_late)
       = std_min (m_DampingFactor quad_late * 2.0) 1e6
    /\ m_StopCondition (quad_step quad_late) = CONVERGED.
Proof.
  exists 0.0009765625, [-0.0029267607363369025], 9.0175691303464305.
  repeat split; vm_compute; reflexivity.
Qed.

(** C3 (the code diverges): at [q = [0]] the gradient is [-6].  For the
    update [-3] the step [q - alpha * update] is a descent step and
    [alpha = 1] meets the Armijo condition, yet the code returns 0.1; for
    the update [3] the step is an ascent step, for which the claim has
    0.1, yet the code backtracks ten times and returns 2^-10. *)
Theorem line_search_slope_sign :
  fst (LineSearch default_settings quad_cost (Some quad_gradient)
         quad_start [0] [-3] 9) = 0.1
  /\ LineSearch_claimed default_settings quad_cost (Some quad_gradient)
       quad_start [0] [-3] 9 = 1
  /\ fst (LineSearch default_settings quad_cost (Some quad_gradient)
            quad_start [0] [3] 9) = 0.0009765625
  /\ LineSearch_claimed default_settings quad_cost (Some quad_gradient)
       quad_start [0] [3] 9 = 0.1.
Proof. repeat split; vm_compute; reflexivity. Qed.

End GaussNewtonProps.

(* ====================================================================== *)
(** ** Runs of the optimizer *)
(* ====================================================================== *)

Module GaussNewtonRuns.

Import GaussNewton GaussNewtonProps.
Open Scope float_scope.

(** *** The order of binary64 values *)

Lemma compare_cont_refl (m : positive) : PosDef.Pos.compare_cont Eq m m = Eq.
Proof. exact (Pos.compare_refl m). Qed.

Ltac sf_refl :=
  simpl; rewrite ?Z.compare_refl, ?compare_cont_refl; simpl; auto.

Lemma SFcompare_refl (x : spec_float) :
  SFcompare x x = Some Eq \/ SFcompare x x = None.
Proof.
  destruct x as [s|s| |s m e]; simpl; auto.
  - destruct s; auto.
  - left. destruct s; sf_refl.
Qed.

Lemma ltb_irrefl (x : float) : (x <? x) = false.
Proof.
  rewrite FloatAxioms.ltb_spec. unfold SFltb.
  destruct (SFcompare_refl (Prim2SF x)) as [H|H]; now rewrite H.
Qed.

Lemma ltb_leb (x y : float) : (x <? y) = true -> (x <=? y) = true.
Proof.
  rewrite FloatAxioms.ltb_spec, FloatAxioms.leb_spec. unfold SFltb, SFleb.
  destruct (SFcompare (Prim2SF x) (Prim2SF y)) as [[]|]; auto.
Qed.

Lemma SFcompare_antisym (x y : spec_float) :
  SFcompare y x = option_map CompOpp (SFcompare x y).
Proof.
  destruct x as [s1|s1| |s1 m1 e1], y as [s2|s2| |s2 m2 e2]; simpl; auto;
    try (destruct s1; reflexivity); try (destruct s2; reflexivity);
    try (destruct s1, s2; reflexivity).
  change (PosDef.Pos.compare_cont Eq m1 m2) with (Pos.compare m1 m2).
  change (PosDef.Pos.compare_cont Eq m2 m1) with (Pos.compare m2 m1).
  rewrite (Z.compare_antisym e1 e2), (Pos.compare_antisym m1 m2).
  destruct s1, s2; simpl; auto;
    destruct (e1 ?= e2)%Z; simpl; auto;
    destruct (m1 ?= m2)%positive; reflexivity.
Qed.


Lemma ltb_ordered (x y : float) :
  (x <? y) = true -> ordered x /\ ordered y.
Proof.
  unfold ordered. rewrite FloatAxioms.ltb_spec, !FloatAxioms.leb_spec. unfold SFltb, SFleb.
  destruct (Prim2SF x) as [s1|s1| |s1 m1 e1] eqn:X,
           (Prim2SF y) as [s2|s2| |s2 m2 e2] eqn:Y; simpl;
    try discriminate; intros _; split;
    try reflexivity; try (destruct s1; reflexivity);
    try (destruct s2; reflexivity);
    try (destruct s1; sf_refl; fail);
    try (destruct s2; sf_refl; fail).
Qed.

Lemma leb_ordered (x y : float) :
  (x <=? y) = true -> ordered x /\ ordered y.
Proof.
  unfold ordered. rewrite !FloatAxioms.leb_spec. unfold SFleb.
  destruct (Prim2SF x) as [s1|s1| |s1 m1 e1] eqn:X,
           (Prim2SF y) as [s2|s2| |s2 m2 e2] eqn:Y; simpl;
    try discriminate; intros _; split;
    try reflexivity; try (destruct s1; reflexivity);
    try (destruct s2; reflexivity);
    try (destruct s1; sf_refl; fail);
    try (destruct s2; sf_refl; fail).
Qed.

(** Two values that are not NaN compare one way or the other. *)
Lemma not_ltb_leb (x y : float) :
  ordered x -> ordered y -> (x <? y) = false -> (y <=? x) = true.
Proof.
  unfold ordered. rewrite FloatAxioms.ltb_spec, !FloatAxioms.leb_spec. unfold SFltb, SFleb.
  rewrite (SFcompare_antisym (Prim2SF x) (Prim2SF y)).
  destruct (Prim2SF x) as [s1|s1| |s1 m1 e1] eqn:X,
           (Prim2SF y) as [s2|s2| |s2 m2 e2] eqn:Y; simpl;
    try discriminate; intros _ _;
    try (destruct s1; simpl; congruence);
    try (destruct s2; simpl; congruence);
    try (destruct s1, s2; simpl; congruence).
  destruct s1, s2; simpl; try congruence;
    destruct (e1 ?= e2)%Z; simpl; try congruence;
    destruct (PosDef.Pos.compare_cont Eq m1 m2); simpl; congruence.
Qed.

Lemma SFleb_trans (x y z : spec_float) :
  SFleb x y = true -> SFleb y z = true -> SFleb x z = true.
Proof.
  unfold SFleb.
  destruct x as [s1|s1| |s1 m1 e1], y as [s2|s2| |s2 m2 e2],
    z as [s3|s3| |s3 m3 e3]; simpl; try discriminate; auto;
    try (destruct s1; simpl; try discriminate; auto; fail);
    try (destruct s2; simpl; try discriminate; auto; fail);
    try (destruct s3; simpl; try discriminate; auto; fail);
    try (destruct s1, s2; simpl; try discriminate; auto; fail);
    try (destruct s1, s3; simpl; try discriminate; auto; fail);
    try (destruct s2, s3; simpl; try discriminate; auto; fail);
    try (destruct s1, s2, s3; simpl; try discriminate; auto; fail).
  change (PosDef.Pos.compare_cont Eq m1 m2) with (Pos.compare m1 m2).
  change (PosDef.Pos.compare_cont Eq m2 m3) with (Pos.compare m2 m3).
  change (PosDef.Pos.compare_cont Eq m1 m3) with (Pos.compare m1 m3).
  destruct s1, s2, s3; simpl; try discriminate; auto;
    destruct (Z.compare_spec e1 e2), (Z.compare_spec e2 e3),
      (Z.compare_spec e1 e3); simpl; try discriminate; auto;
    try (intros; exfalso; lia);
    destruct (Pos.compare_spec m1 m2), (Pos.compare_spec m2 m3),
      (Pos.compare_spec m1 m3); simpl; try discriminate; auto;
    intros; exfalso; lia.
Qed.

Lemma leb_trans (x y z : float) :
  (x <=? y) = true -> (y <=? z) = true -> (x <=? z) = true.
Proof. rewrite !FloatAxioms.leb_spec. apply SFleb_trans. Qed.

(** *** Iterations *)

Section Iteration.

Variable ldlt : MatrixXd -> LDLT.
Variable cfg : Settings.
Variable cost : ParametersType -> float.
Variable grad : option (ParametersType -> ParametersType).
Variable resf : ParametersType -> ResidualVectorType.
Variable jacf : ParametersType -> JacobianMatrixType.

Local Abbreviation step := (AdvanceOneStep ldlt cfg cost grad resf jacf).
Local Abbreviation proposed := (proposal ldlt cfg cost grad resf jacf).
Local Abbreviation entered s0 := (set_Previous (q s0) (m_CurrentValue s0) s0).

Lemma proposal_value (s0 : State) (a : float) (p : ParametersType)
    (v : float) :
  proposed s0 = Some (a, p, v) -> v = cost p.
Proof.
  unfold proposal.
  destruct (compute_update ldlt cfg resf jacf (entered s0)); [|discriminate].
  destruct (_ <? m_MinimumStepLength cfg); [discriminate|].
  intros H; inversion H; reflexivity.
Qed.

Lemma convergence_check_frame (s : State) :
  q (convergence_check cfg s) = q s
  /\ m_CurrentValue (convergence_check cfg s) = m_CurrentValue s
  /\ m_BestValue (convergence_check cfg s) = m_BestValue s
  /\ m_BestParameters (convergence_check cfg s) = m_BestParameters s
  /\ m_CurrentIteration (convergence_check cfg s) = m_CurrentIteration s
  /\ m_CurrentStepLength (convergence_check cfg s) = m_CurrentStepLength s
  /\ m_DampingFactor (convergence_check cfg s) = m_DampingFactor s
  /\ m_PreviousValue (convergence_check cfg s) = m_PreviousValue s.
Proof.
  unfold convergence_check. destruct (_ && _); simpl; repeat split.
Qed.

(** X1: an accepted Gauss-Newton step moves to the tentative parameters,
    records their cost and the step factor, halves the damping down to
    1e-10, updates the best value and parameters when the cost is below
    them, and ends in CONVERGED exactly when the relative improvement is
    below the tolerance. *)
Theorem accepted_step_effects (s0 : State) (a : float) (p : ParametersType)
    (v : float) :
  proposed s0 = Some (a, p, v) ->
  (v <? m_CurrentValue s0) = true ->
  let s' := step s0 in
  let relativeImprovement :=
    PrimFloat.abs (m_CurrentValue s0 - v)
    / (PrimFloat.abs (m_CurrentValue s0) + 1e-10) in
  v = cost p
  /\ q s' = p
  /\ m_CurrentValue s' = v
  /\ m_CurrentStepLength s' = a
  /\ m_DampingFactor s' =
       (if m_UseLevenbergMarquardt cfg
        then std_max (m_DampingFactor s0 * 0.5) 1e-10
        else m_DampingFactor s0)
  /\ m_BestValue s' = (if v <? m_BestValue s0 then v else m_BestValue s0)
  /\ m_BestParameters s' =
       (if v <? m_BestValue s0 then p else m_BestParameters s0)
  /\ m_StopCondition s' =
       (if relativeImprovement <? m_GradientMagnitudeTolerance cfg
        then CONVERGED else m_StopCondition s0).
Proof.
  intros P Acc. cbv zeta. split; [exact (proposal_value s0 a p v P)|].
  rewrite (step_with_proposal ldlt cfg cost grad resf jacf s0 a p v P), Acc.
  unfold convergence_check, accept_step. simpl.
  destruct (v <? m_BestValue s0); destruct (m_UseLevenbergMarquardt cfg);
    simpl; rewrite (ltb_leb _ _ Acc), andb_true_r;
    destruct (PrimFloat.abs (m_CurrentValue s0 - v)
              / (PrimFloat.abs (m_CurrentValue s0) + 1e-10)
              <? m_GradientMagnitudeTolerance cfg); simpl;
    repeat split; reflexivity.
Qed.

Lemma step_iteration (s0 : State) :
  m_CurrentIteration (step s0) = m_CurrentIteration s0.
Proof.
  destruct (proposed s0) as [[[a p] v]|] eqn:P.
  - rewrite (step_with_proposal ldlt cfg cost grad resf jacf s0 a p v P).
    destruct (convergence_check_frame
                (if v <? m_CurrentValue s0
                 then accept_step cfg p v a (SetParameters p (entered s0))
                 else reject_step cfg (q s0) (SetParameters p (entered s0))))
      as (_ & _ & _ & _ & E & _).
    rewrite E. unfold accept_step, reject_step.
    destruct (v <? m_CurrentValue s0); simpl.
    + destruct (v <? m_BestValue s0); destruct (m_UseLevenbergMarquardt cfg);
        reflexivity.
    + destruct (m_UseLevenbergMarquardt cfg); simpl;
        destruct (_ <? m_MinimumStepLength cfg); reflexivity.
  - destruct (proposal_None_cases ldlt cfg cost grad resf jacf s0 P)
      as [U|[u [U Small]]].
    + now rewrite (step_without_update ldlt cfg cost grad resf jacf s0 U).
    + now rewrite (step_with_small_update ldlt cfg cost grad resf jacf s0 u
                     U Small).
Qed.

Lemma step_stop (s0 : State) :
  m_StopCondition (step s0) = m_StopCondition s0
  \/ breaks_loop (m_StopCondition (step s0)) = true.
Proof.
  destruct (compute_update ldlt cfg resf jacf (entered s0)) as [u|] eqn:U.
  - destruct (stop_after_update ldlt cfg cost grad resf jacf s0 u U)
      as [E|[E|E]]; rewrite E; auto.
  - rewrite (step_without_update ldlt cfg cost grad resf jacf s0 U). auto.
Qed.

(** Every iteration advances in the sense above. *)
Lemma step_advances (s0 : State) : advances cost s0 (step s0).
Proof.
  split; [apply step_iteration|]. split; [apply step_stop|].
  destruct (proposed s0) as [[[a p] v]|] eqn:P.
  - pose proof (proposal_value s0 a p v P) as Ev.
    rewrite (step_with_proposal ldlt cfg cost grad resf jacf s0 a p v P).
    destruct (convergence_check_frame
                (if v <? m_CurrentValue s0
                 then accept_step cfg p v a (SetParameters p (entered s0))
                 else reject_step cfg (q s0) (SetParameters p (entered s0))))
      as (E1 & E2 & E3 & E4 & _).
    unfold untouched, lowered. rewrite E1, E2, E3, E4.
    destruct (v <? m_CurrentValue s0) eqn:Acc.
    + right. unfold accept_step. simpl.
      destruct (v <? m_BestValue s0) eqn:B;
        destruct (m_UseLevenbergMarquardt cfg); simpl; rewrite B;
        repeat split; auto.
    + left. unfold reject_step.
      destruct (m_UseLevenbergMarquardt cfg); simpl;
        destruct (_ <? m_MinimumStepLength cfg); simpl; auto.
  - left.
    destruct (proposal_None_cases ldlt cfg cost grad resf jacf s0 P)
      as [U|[u [U Small]]].
    + rewrite (step_without_update ldlt cfg cost grad resf jacf s0 U).
      repeat split.
    + rewrite (step_with_small_update ldlt cfg cost grad resf jacf s0 u
                 U Small).
      repeat split.
Qed.

(** X2: a Gauss-Newton iteration never raises the cost: it leaves the
    parameters and the value where they were, or it moves to parameters
    whose cost is strictly lower and records that cost. *)
Theorem iteration_never_raises_cost (s0 : State) :
  (q (step s0) = q s0 /\ m_CurrentValue (step s0) = m_CurrentValue s0)
  \/ (m_CurrentValue (step s0) = cost (q (step s0))
      /\ (m_CurrentValue (step s0) <? m_CurrentValue s0) = true).
Proof.
  destruct (step_advances s0) as (_ & _ & [(E1 & E2 & _)|(L1 & L2 & _)]);
    auto.
Qed.

End Iteration.

(** *** The gradient-descent fallback *)

Section Fallback.

Variable cfg : Settings.
Variable cost : ParametersType -> float.
Variable gradf : ParametersType -> ParametersType.

Local Abbreviation gd := (AdvanceOneStepGradientDescent cfg cost gradf).
Local Abbreviation magnitude s0 :=
  (scaled_gradient_magnitude cfg (gradf (q s0))).
Local Abbreviation tried s0 := (descent_parameters cfg (gradf (q s0)) s0).

(** X3: the fallback stops on a small gradient without touching anything,
    and sets no other stop condition than GRADIENT_TOO_SMALL and
    STEP_TOO_SMALL. *)
Theorem gradient_descent_stop_conditions (s0 : State) :
  ((magnitude s0 <? m_GradientMagnitudeTolerance cfg) = true ->
   m_StopCondition (gd s0) = GRADIENT_TOO_SMALL
   /\ q (gd s0) = q s0
   /\ m_CurrentValue (gd s0) = m_CurrentValue s0
   /\ m_CurrentStepLength (gd s0) = m_CurrentStepLength s0
   /\ m_BestValue (gd s0) = m_BestValue s0)
  /\ ((magnitude s0 <? m_GradientMagnitudeTolerance cfg) = false ->
      m_StopCondition (gd s0) = STEP_TOO_SMALL
      \/ m_StopCondition (gd s0) = m_StopCondition s0)
  /\ (m_StopCondition (gd s0) = CONVERGED ->
      m_StopCondition s0 = CONVERGED)
  /\ (m_StopCondition (gd s0) = SINGULAR_MATRIX ->
      m_StopCondition s0 = SINGULAR_MATRIX).
Proof.
  unfold AdvanceOneStepGradientDescent.
  change (PrimFloat.sqrt _) with (magnitude s0).
  destruct (magnitude s0 <? m_GradientMagnitudeTolerance cfg) eqn:G.
  - simpl. repeat split; try discriminate; intros H; discriminate.
  - change (tabulate _ _) with (tried s0). simpl.
    destruct (cost (tried s0) <? m_CurrentValue s0).
    + destruct (cost (tried s0) <? m_BestValue s0); simpl;
        repeat split; auto; discriminate.
    + simpl.
      destruct (m_CurrentStepLength s0 * m_RelaxationFactor cfg
                <? m_MinimumStepLength cfg); simpl;
        repeat split; auto; discriminate.
Qed.

Lemma gradient_descent_advances (s0 : State) : advances cost s0 (gd s0).
Proof.
  unfold advances, untouched, lowered, AdvanceOneStepGradientDescent.
  change (PrimFloat.sqrt _) with (magnitude s0).
  destruct (magnitude s0 <? m_GradientMagnitudeTolerance cfg) eqn:G.
  - simpl. repeat split; auto.
  - change (tabulate _ _) with (tried s0). simpl.
    destruct (cost (tried s0) <? m_CurrentValue s0) eqn:Acc.
    + destruct (cost (tried s0) <? m_BestValue s0) eqn:B; simpl;
        (split; [reflexivity|]); (split; [auto|]); right;
        rewrite B; repeat split; auto.
    + simpl.
      destruct (m_CurrentStepLength s0 * m_RelaxationFactor cfg
                <? m_MinimumStepLength cfg); simpl; repeat split; auto.
Qed.

End Fallback.

(** *** The main loop *)

Section Run.

Variable cost : ParametersType -> float.
Variable f : State -> State.
Hypothesis f_advances : forall s, advances cost s (f s).

Lemma run_invariant_step (v0 : float) (s : State) :
  run_invariant cost v0 s -> run_invariant cost v0 (f s).
Proof.
  intros (I1 & I2 & I3 & I4).
  destruct (f_advances s) as (_ & _ & [(E1 & E2 & E3 & E4)|(L1 & L2 & L3)]).
  - unfold run_invariant. rewrite E1, E2, E3, E4. auto.
  - unfold run_invariant.
    destruct (ltb_ordered _ _ L2) as [O1 _].
    destruct (leb_ordered _ _ I4) as [O2 _].
    split; [exact L1|]. split.
    { apply (leb_trans _ (m_CurrentValue s)); [now apply ltb_leb|exact I2]. }
    destruct (m_CurrentValue (f s) <? m_BestValue s) eqn:B.
    + destruct L3 as [B1 B2]. rewrite B1, B2. split; [exact L1|exact O1].
    + destruct L3 as [B1 B2]. rewrite B1, B2. split; [exact I3|].
      now apply not_ltb_leb.
Qed.

Lemma run_invariant_iteration (v0 : float) (s : State) (i : nat) :
  run_invariant cost v0 s -> run_invariant cost v0 (set_CurrentIteration i s).
Proof. intros H; exact H. Qed.

Lemma main_loop_invariant (v0 : float) (left : nat) (s : State) :
  run_invariant cost v0 s -> run_invariant cost v0 (main_loop f left s).
Proof.
  revert s; induction left as [|k IH]; intros s I; simpl; [exact I|].
  destruct (breaks_loop (m_StopCondition (f s))).
  - now apply run_invariant_step.
  - apply IH, run_invariant_iteration. now apply run_invariant_step.
Qed.

(** The loop ends on a stop condition before its last iteration, or runs
    out of iterations with the stop condition it started with. *)
Lemma main_loop_iterations (left : nat) (s : State) :
  breaks_loop (m_StopCondition s) = false ->
  let r := main_loop f left s in
  (m_StopCondition r = m_StopCondition s
   /\ m_CurrentIteration r = (m_CurrentIteration s + left)%nat)
  \/ (breaks_loop (m_StopCondition r) = true
      /\ (m_CurrentIteration s <= m_CurrentIteration r
          < m_CurrentIteration s + left)%nat).
Proof.
  revert s; induction left as [|k IH]; intros s Hs; simpl.
  - left. split; [reflexivity|lia].
  - destruct (f_advances s) as (Ei & [Es|Es] & _).
    + rewrite Es, Hs, Ei.
      destruct (IH (set_CurrentIteration (S (m_CurrentIteration s)) (f s)))
        as [[A B]|[A B]].
      * simpl. now rewrite Es.
      * left. simpl in A, B. rewrite A, B, Es. split; [reflexivity|lia].
      * right. simpl in B. split; [exact A|lia].
    + rewrite Es. right. split; [exact Es|]. rewrite Ei. lia.
Qed.

End Run.

(** *** StartOptimization *)

Section Start.

Variable ldlt : MatrixXd -> LDLT.
Variable cfg : Settings.
Variable cb : Callbacks.

(** The run behind a result of StartOptimization. *)
Lemma StartOptimization_run (s0 s : State) :
  StartOptimization ldlt cfg cb s0 = Some s ->
  exists cost f,
    cb_CostFunction cb = Some cost
    /\ (forall x, advances cost x (f x))
    /\ s = finished cfg
             (main_loop f (m_NumberOfIterations cfg) (started cfg cost s0)).
Proof.
  unfold StartOptimization.
  destruct (cb_CostFunction cb) as [cost|]; [|discriminate].
  destruct (cb_ResidualFunction cb) as [resf|];
    [destruct (cb_JacobianFunction cb) as [jacf|]|];
    [|destruct (cb_GradientFunction cb) as [gradf|]; [|discriminate]
     |destruct (cb_GradientFunction cb) as [gradf|]; [|discriminate]];
    intros H; inversion H; clear H; exists cost.
  - exists (AdvanceOneStep ldlt cfg cost (cb_GradientFunction cb) resf jacf).
    split; [reflexivity|]. split; [apply step_advances|reflexivity].
  - exists (AdvanceOneStepGradientDescent cfg cost gradf).
    split; [reflexivity|].
    split; [apply gradient_descent_advances|reflexivity].
  - exists (AdvanceOneStepGradientDescent cfg cost gradf).
    split; [reflexivity|].
    split; [apply gradient_descent_advances|reflexivity].
Qed.

Lemma finished_frame (s : State) :
  m_CurrentIteration (finished cfg s) = m_CurrentIteration s
  /\ m_StopCondition (finished cfg s) = m_StopCondition s.
Proof. unfold finished. destruct (_ && _); simpl; auto. Qed.

(** X4: the stop condition is MAXIMUM_ITERATIONS exactly when all the
    iterations were run. *)
Theorem StartOptimization_iterations (s0 s : State) :
  StartOptimization ldlt cfg cb s0 = Some s ->
  (m_CurrentIteration s <= m_NumberOfIterations cfg)%nat
  /\ (m_StopCondition s = MAXIMUM_ITERATIONS <->
      m_CurrentIteration s = m_NumberOfIterations cfg).
Proof.
  intros H. destruct (StartOptimization_run s0 s H) as (cost & f & _ & Hf & ->).
  destruct (finished_frame
              (main_loop f (m_NumberOfIterations cfg) (started cfg cost s0)))
    as [E1 E2].
  rewrite E1, E2.
  destruct (main_loop_iterations cost f Hf (m_NumberOfIterations cfg)
              (started cfg cost s0) eq_refl) as [[A B]|[A B]];
    simpl in A, B.
  - rewrite A, B. split; [lia|]. split; auto.
  - split; [lia|]. split.
    + intros E. rewrite E in A. discriminate.
    + intros E. lia.
Qed.

Lemma started_invariant (cost : ParametersType -> float) (s0 : State) :
  (cost (q s0) <? DBL_MAX) = true ->
  run_invariant cost (cost (q s0)) (started cfg cost s0).
Proof.
  intros Hfin. destruct (ltb_ordered _ _ Hfin) as [O _].
  unfold run_invariant, started. simpl. rewrite Hfin. auto.
Qed.

Lemma finished_invariant (cost : ParametersType -> float) (v0 : float)
    (s : State) :
  run_invariant cost v0 s ->
  m_CurrentValue (finished cfg s) = cost (q (finished cfg s))
  /\ (m_CurrentValue (finished cfg s) <=? v0) = true.
Proof.
  intros (I1 & I2 & I3 & I4). unfold finished.
  destruct (_ && _); simpl; [|auto].
  split; [exact I3|]. now apply (leb_trans _ (m_CurrentValue s)).
Qed.

(** X5: the value StartOptimization reports is the cost at the parameters
    it leaves. *)
Theorem StartOptimization_value_is_cost (cost : ParametersType -> float)
    (s0 s : State) :
  cb_CostFunction cb = Some cost ->
  (cost (q s0) <? DBL_MAX) = true ->
  StartOptimization ldlt cfg cb s0 = Some s ->
  m_CurrentValue s = cost (q s).
Proof.
  intros Hc Hfin H.
  destruct (StartOptimization_run s0 s H) as (cost' & f & Hc' & Hf & ->).
  rewrite Hc in Hc'. inversion Hc'; subst cost'.
  apply (finished_invariant cost (cost (q s0))).
  apply main_loop_invariant; [exact Hf|now apply started_invariant].
Qed.

(** X6: the value StartOptimization reports is never above the cost it
    started from. *)
Theorem StartOptimization_never_worse (cost : ParametersType -> float)
    (s0 s : State) :
  cb_CostFunction cb = Some cost ->
  (cost (q s0) <? DBL_MAX) = true ->
  StartOptimization ldlt cfg cb s0 = Some s ->
  (m_CurrentValue s <=? cost (q s0)) = true.
Proof.
  intros Hc Hfin H.
  destruct (StartOptimization_run s0 s H) as (cost' & f & Hc' & Hf & ->).
  rewrite Hc in Hc'. inversion Hc'; subst cost'.
  apply (finished_invariant cost (cost (q s0))).
  apply main_loop_invariant; [exact Hf|now apply started_invariant].
Qed.

(** X7: with no iteration to run, StartOptimization evaluates the cost
    once and leaves the parameters where they are. *)
Theorem StartOptimization_zero_iterations (cost : ParametersType -> float)
    (s0 s : State) :
  cb_CostFunction cb = Some cost ->
  (cost (q s0) <? DBL_MAX) = true ->
  m_NumberOfIterations cfg = 0%nat ->
  StartOptimization ldlt cfg cb s0 = Some s ->
  q s = q s0
  /\ m_CurrentValue s = cost (q s0)
  /\ m_BestValue s = cost (q s0)
  /\ m_DampingFactor s = m_DampingFactor s0
  /\ m_CurrentIteration s = 0%nat
  /\ m_StopCondition s = MAXIMUM_ITERATIONS.
Proof.
  intros Hc Hfin H0 H.
  destruct (StartOptimization_run s0 s H) as (cost' & f & Hc' & Hf & ->).
  rewrite Hc in Hc'. inversion Hc'; subst cost'. rewrite H0. simpl.
  unfold finished, started. simpl. rewrite Hfin.
  destruct (m_ReturnBestParameters cfg); simpl;
    destruct (q s0); simpl; repeat split; reflexivity.
Qed.

End Start.

(** *** Zeros, bounds and the clamp *)

Lemma Prim2SF_zero : Prim2SF 0 = S754_zero false.
Proof. reflexivity. Qed.

Lemma Prim2SF_infinity : Prim2SF infinity = S754_infinity false.
Proof. reflexivity. Qed.

(** A bound that is not negative is not below its own magnitude. *)
Lemma bound_not_below_abs (m : float) :
  (0 <=? m) = true ->
  (m <? PrimFloat.abs m) = false /\ (m <? PrimFloat.abs (- m)) = false.
Proof.
  rewrite FloatAxioms.leb_spec, !FloatAxioms.ltb_spec, !FloatAxioms.abs_spec, FloatAxioms.opp_spec, Prim2SF_zero.
  unfold SFleb, SFltb.
  destruct (Prim2SF m) as [s|s| |s mm e]; simpl; try discriminate; auto;
    destruct s; simpl; try discriminate; intros _;
    rewrite ?Z.compare_refl, ?compare_cont_refl; auto.
Qed.

Section Clamp.

Variable cfg : Settings.

(** X8: ClampUpdate keeps the length, leaves alone the entries that have
    no bound or are within it, replaces the others by plus or minus the
    bound, and leaves no entry above a bound that is not negative. *)
Theorem ClampUpdate_bounds (update : ParametersType) (i : nat) :
  (i < length update)%nat ->
  let ui := at_ update i in
  let ci := at_ (ClampUpdate cfg update) i in
  let maxUpdate := at_ (m_MaxParameterUpdate cfg) i in
  length (ClampUpdate cfg update) = length update
  /\ ((length (m_MaxParameterUpdate cfg) <= i)%nat -> ci = ui)
  /\ ((i < length (m_MaxParameterUpdate cfg))%nat ->
      ((maxUpdate <? PrimFloat.abs ui) = false -> ci = ui)
      /\ ((maxUpdate <? PrimFloat.abs ui) = true ->
          ci = (if 0 <? ui then maxUpdate else - maxUpdate))
      /\ ((0 <=? maxUpdate) = true ->
          (maxUpdate <? PrimFloat.abs ci) = false)).
Proof.
  intros Hi. cbv zeta.
  split; [apply tabulate_length|].
  assert (E : at_ (ClampUpdate cfg update) i =
              if (i <? length (m_MaxParameterUpdate cfg))%nat then
                if at_ (m_MaxParameterUpdate cfg) i
                   <? PrimFloat.abs (at_ update i)
                then (if 0 <? at_ update i
                      then at_ (m_MaxParameterUpdate cfg) i
                      else - at_ (m_MaxParameterUpdate cfg) i)
                else at_ update i
              else at_ update i).
  { unfold ClampUpdate. unfold at_ at 1.
    now rewrite nth_tabulate by exact Hi. }
  rewrite E. clear E.
  split.
  - intros Hlen. apply Nat.ltb_ge in Hlen. now rewrite Hlen.
  - intros Hlen. apply Nat.ltb_lt in Hlen. rewrite Hlen.
    destruct (at_ (m_MaxParameterUpdate cfg) i <? PrimFloat.abs (at_ update i))
      eqn:Over.
    + split; [discriminate|]. split; [reflexivity|].
      intros Hpos. destruct (bound_not_below_abs _ Hpos) as [A B].
      destruct (0 <? at_ update i); assumption.
    + split; [reflexivity|]. split; [discriminate|]. intros _. exact Over.
Qed.

End Clamp.

(** *** The line search *)

Section Search.

Variable cfg : Settings.
Variable cost : ParametersType -> float.

(** The loop returns the first factor that passes the test, or the factor
    left after all its rounds. *)
Lemma backtrack_spec (iters : nat) (currentParams direction : ParametersType)
    (initialValue dirGrad alpha : float) :
  exists k,
    (k <= iters)%nat
    /\ backtrack cfg cost iters currentParams direction initialValue dirGrad
         alpha = shrunk cfg k alpha
    /\ (forall j, (j < k)%nat ->
          sufficient_decrease cfg cost currentParams direction initialValue
            dirGrad (shrunk cfg j alpha) = false)
    /\ ((k < iters)%nat ->
        sufficient_decrease cfg cost currentParams direction initialValue
          dirGrad (shrunk cfg k alpha) = true).
Proof.
  revert alpha; induction iters as [|n IH]; intros alpha.
  - exists 0%nat. simpl.
    split; [lia|]. split; [reflexivity|]. split; intros; lia.
  - simpl.
    destruct (cost (stepped (m_NumberOfParameters cfg) currentParams direction
                      alpha)
              <=? initialValue + 1e-4 * alpha * dirGrad) eqn:T.
    + exists 0%nat. simpl.
      split; [lia|]. split; [reflexivity|].
      split; [intros j Hj; lia|intros _; exact T].
    + destruct (IH (alpha * m_LineSearchShrinkFactor cfg))
        as (k & Hk & E & Hfail & Hok).
      exists (S k). simpl.
      split; [lia|]. split; [exact E|]. split.
      * intros [|j] Hj; simpl; [exact T|]. apply Hfail. lia.
      * intros Hlt. apply Hok. lia.
Qed.

(** X9: the factor LineSearch returns. *)
Theorem LineSearch_result (grad : option (ParametersType -> ParametersType))
    (s : State) (currentParams direction : ParametersType)
    (initialValue : float) :
  let dirGrad := dirGrad_of cfg grad s direction in
  let r := LineSearch cfg cost grad s currentParams direction initialValue in
  if 0 <=? dirGrad then r = (0.1, s)
  else
    q (snd r) = currentParams
    /\ exists k,
         (k <= m_LineSearchMaxIterations cfg)%nat
         /\ fst r = shrunk cfg k 1
         /\ (forall j, (j < k)%nat ->
               sufficient_decrease cfg cost currentParams direction
                 initialValue dirGrad (shrunk cfg j 1) = false)
         /\ ((k < m_LineSearchMaxIterations cfg)%nat ->
             sufficient_decrease cfg cost currentParams direction
               initialValue dirGrad (fst r) = true).
Proof.
  cbv zeta. unfold LineSearch.
  destruct (0 <=? dirGrad_of cfg grad s direction); [reflexivity|].
  split; [reflexivity|]. simpl.
  destruct (backtrack_spec (m_LineSearchMaxIterations cfg) currentParams
              direction initialValue (dirGrad_of cfg grad s direction) 1)
    as (k & Hk & E & Hfail & Hok).
  exists k. rewrite E. auto.
Qed.

Lemma is_finite_cases (x : float) :
  is_finite x = true ->
  (exists s, Prim2SF x = S754_zero s)
  \/ (exists s m e, Prim2SF x = S754_finite s m e).
Proof.
  unfold is_finite, is_nan, is_infinity.
  rewrite !FloatAxioms.eqb_spec, FloatAxioms.abs_spec, Prim2SF_infinity. unfold SFeqb.
  destruct (Prim2SF x) as [s|s| |s m e]; simpl; eauto; try discriminate.
  destruct s; discriminate.
Qed.

Lemma zero_times_finite (x : float) : is_finite x = true -> is_zero (0 * x).
Proof.
  intros H. unfold is_zero. rewrite FloatAxioms.mul_spec, Prim2SF_zero.
  destruct (is_finite_cases x H) as [[s E]|[s [m [e E]]]]; rewrite E;
    simpl; eauto.
Qed.

Lemma zero_plus_zero (x y : float) : is_zero x -> is_zero y -> is_zero (x + y).
Proof.
  intros [s E] [s' E']. unfold is_zero. rewrite FloatAxioms.add_spec, E, E'.
  destruct s, s'; simpl; eauto.
Qed.

Lemma zero_nonneg (x : float) : is_zero x -> (0 <=? x) = true.
Proof. intros [s E]. now rewrite FloatAxioms.leb_spec, Prim2SF_zero, E. Qed.

Lemma at_finite (v : ParametersType) (i : nat) :
  allFinite v = true -> is_finite (at_ v i) = true.
Proof.
  unfold allFinite, at_. intros H.
  destruct (Nat.lt_ge_cases i (length v)) as [Hi|Hi].
  - eapply forallb_forall in H; [exact H|]. now apply nth_In.
  - rewrite nth_overflow by exact Hi. reflexivity.
Qed.

Lemma sum_of_zeros (f : nat -> float) (l : list nat) (acc : float) :
  is_zero acc -> (forall i, is_zero (f i)) ->
  is_zero (fold_left (fun a i => a + f i) l acc).
Proof.
  revert acc; induction l as [|i l IH]; intros acc Ha Hf; simpl; auto.
  apply IH; auto. apply zero_plus_zero; auto.
Qed.

(** X10: without a gradient function the line search tries nothing: for a
    finite direction it returns 0.1 and leaves the parameters alone. *)
Theorem LineSearch_without_gradient (s : State)
    (currentParams direction : ParametersType) (initialValue : float) :
  allFinite direction = true ->
  LineSearch cfg cost None s currentParams direction initialValue = (0.1, s).
Proof.
  intros Hfin. unfold LineSearch.
  assert (Z : is_zero (dirGrad_of cfg None s direction)).
  { unfold dirGrad_of, sum_to. apply sum_of_zeros.
    - exists false. reflexivity.
    - intros i. unfold at_ at 1. rewrite nth_repeat.
      apply zero_times_finite. now apply at_finite. }
  now rewrite (zero_nonneg _ Z).
Qed.

End Search.

(** *** The theorems at work on the quadratic problem *)

Lemma descent_proposal :
  proposal eigen_ldlt default_settings quad_cost (Some quad_gradient)
    quad_residuals descent_jacobian quad_start
  = Some (0.10000000000000001, [0.29970029940089882], 7.2916184730555953).
Proof. vm_compute. reflexivity. Qed.

Lemma accepted_step_effects_witness :
  q (AdvanceOneStep eigen_ldlt default_settings quad_cost (Some quad_gradient)
       quad_residuals descent_jacobian quad_start)
  = [0.29970029940089882]
  /\ m_DampingFactor
       (AdvanceOneStep eigen_ldlt default_settings quad_cost
          (Some quad_gradient) quad_residuals descent_jacobian quad_start)
     = std_max (m_DampingFactor quad_start * 0.5) 1e-10.
Proof.
  assert (Acc : (7.2916184730555953 <? m_CurrentValue quad_start) = true)
    by (vm_compute; reflexivity).
  destruct (accepted_step_effects eigen_ldlt default_settings quad_cost
              (Some quad_gradient) quad_residuals descent_jacobian quad_start
              0.10000000000000001 [0.29970029940089882] 7.2916184730555953
              descent_proposal Acc)
    as (_ & Eq & _ & _ & Ed & _).
  split; [exact Eq|exact Ed].
Defined.

Lemma descent_run_defined (cfg : Settings) :
  exists s,
    StartOptimization eigen_ldlt cfg descent_callbacks quad_start = Some s.
Proof. unfold StartOptimization. cbn. eexists. reflexivity. Qed.

Lemma fallback_run_defined (cfg : Settings) :
  exists s,
    StartOptimization eigen_ldlt cfg fallback_callbacks quad_start = Some s.
Proof. unfold StartOptimization. cbn. eexists. reflexivity. Qed.

Lemma quad_start_finite : (quad_cost (q quad_start) <? DBL_MAX) = true.
Proof. vm_compute. reflexivity. Qed.

Lemma StartOptimization_iterations_witness :
  exists s,
    StartOptimization eigen_ldlt default_settings descent_callbacks quad_start
    = Some s
    /\ (m_CurrentIteration s <= m_NumberOfIterations default_settings)%nat
    /\ (m_StopCondition s = MAXIMUM_ITERATIONS <->
        m_CurrentIteration s = m_NumberOfIterations default_settings).
Proof.
  destruct (descent_run_defined default_settings) as [s E].
  exists s. split; [exact E|].
  exact (StartOptimization_iterations eigen_ldlt default_settings
           descent_callbacks quad_start s E).
Defined.

Lemma StartOptimization_value_is_cost_witness :
  exists s,
    StartOptimization eigen_ldlt default_settings descent_callbacks quad_start
    = Some s
    /\ m_CurrentValue s = quad_cost (q s).
Proof.
  destruct (descent_run_defined default_settings) as [s E].
  exists s. split; [exact E|].
  exact (StartOptimization_value_is_cost eigen_ldlt default_settings
           descent_callbacks quad_cost quad_start s eq_refl
           quad_start_finite E).
Defined.

Lemma StartOptimization_never_worse_witness :
  exists s,
    StartOptimization eigen_ldlt default_settings fallback_callbacks quad_start
    = Some s
    /\ (m_CurrentValue s <=? quad_cost (q quad_start)) = true.
Proof.
  destruct (fallback_run_defined default_settings) as [s E].
  exists s. split; [exact E|].
  exact (StartOptimization_never_worse eigen_ldlt default_settings
           fallback_callbacks quad_cost quad_start s eq_refl
           quad_start_finite E).
Defined.

Lemma StartOptimization_zero_iterations_witness :
  exists s,
    StartOptimization eigen_ldlt single_run_settings descent_callbacks
      quad_start = Some s
    /\ q s = q quad_start
    /\ m_StopCondition s = MAXIMUM_ITERATIONS.
Proof.
  destruct (descent_run_defined single_run_settings) as [s E].
  exists s. split; [exact E|].
  destruct (StartOptimization_zero_iterations eigen_ldlt single_run_settings
              descent_callbacks quad_cost quad_start s eq_refl
              quad_start_finite eq_refl E)
    as (A & _ & _ & _ & _ & B).
  split; [exact A|exact B].
Defined.

Lemma ClampUpdate_bounds_witness :
  at_ (ClampUpdate single_run_settings [-3]) 0 = -2
  /\ (2 <? PrimFloat.abs (at_ (ClampUpdate single_run_settings [-3]) 0))
     = false.
Proof.
  assert (Hi : (0 < length [(-3)%float])%nat) by (simpl; lia).
  destruct (ClampUpdate_bounds single_run_settings [-3] 0 Hi)
    as (_ & _ & H).
  assert (Hl : (0 < length (m_MaxParameterUpdate single_run_settings))%nat)
    by (simpl; lia).
  destruct (H Hl) as (_ & Hover & Hbound).
  split.
  - exact (Hover eq_refl).
  - exact (Hbound eq_refl).
Defined.

Lemma LineSearch_without_gradient_witness :
  LineSearch default_settings quad_cost None quad_start [0] [-3] 9
  = (0.1, quad_start).
Proof.
  exact (LineSearch_without_gradient default_settings quad_cost quad_start
           [0] [-3] 9 eq_refl).
Defined.

End GaussNewtonRuns.

(* ====================================================================== *)
(** ** Properties of the metric *)
(* ====================================================================== *)

Module MINDProps.

Import MIND.
Open Scope R_scope.

(** *** Sums and maxima over the channels *)

Lemma Rsum_nonneg (l : list R) :
  (forall x, In x l -> 0 <= x) -> 0 <= Rsum l.
Proof.
  induction l as [|a l IH]; simpl; intros H; [lra|].
  assert (0 <= a) by (apply H; now left).
  assert (0 <= Rsum l) by (apply IH; intros x Hx; apply H; now right).
  lra.
Qed.

(** Some entry of a non-empty list is at most the mean. *)
Lemma below_or_all_above (c : R) (l : list R) :
  (exists x, In x l /\ x <= c) \/ (forall x, In x l -> c < x).
Proof.
  induction l as [|a l [[x [Hx Hc]]|IH]].
  - right. intros x [].
  - left. exists x. split; [now right|exact Hc].
  - destruct (Rle_dec a c) as [Ha|Ha].
    + left. exists a. split; [now left|exact Ha].
    + right. intros x [<-|Hx]; [lra|now apply IH].
Qed.

Lemma all_above_sum (c : R) (l : list R) :
  l <> [] -> (forall x, In x l -> c < x) -> INR (length l) * c < Rsum l.
Proof.
  induction l as [|a l IH]; [congruence|]. intros _ H.
  assert (Ha : c < a) by (apply H; now left).
  destruct l as [|b l].
  - simpl. lra.
  - assert (IHl : INR (length (b :: l)) * c < Rsum (b :: l)).
    { apply IH; [discriminate|]. intros x Hx. apply H. now right. }
    change (length (a :: b :: l)) with (S (length (b :: l))).
    rewrite S_INR. change (Rsum (a :: b :: l)) with (a + Rsum (b :: l)).
    lra.
Qed.

Lemma exists_below_mean (l : list R) :
  l <> [] -> exists x, In x l /\ x <= / INR (length l) * Rsum l.
Proof.
  intros Hl.
  destruct (below_or_all_above (/ INR (length l) * Rsum l) l) as [H|H]; auto.
  exfalso. apply (all_above_sum _ l Hl) in H.
  assert (Hn : 0 < INR (length l)).
  { apply lt_0_INR. destruct l; [congruence|simpl; lia]. }
  rewrite <- Rmult_assoc, Rinv_r, Rmult_1_l in H by lra. lra.
Qed.

Lemma fold_max_ge_init (l : list R) (a : R) : a <= fold_left Rmax l a.
Proof.
  revert a; induction l as [|x l IH]; intros a; simpl; [lra|].
  eapply Rle_trans; [apply (Rmax_l a x)|apply IH].
Qed.

Lemma fold_max_ge (l : list R) (a x : R) :
  In x l -> x <= fold_left Rmax l a.
Proof.
  revert a; induction l as [|y l IH]; intros a []; simpl.
  - subst. eapply Rle_trans; [apply (Rmax_r a x)|apply fold_max_ge_init].
  - now apply IH.
Qed.

Lemma fold_max_attained (l : list R) (a : R) :
  fold_left Rmax l a = a \/ In (fold_left Rmax l a) l.
Proof.
  revert a; induction l as [|y l IH]; intros a; simpl; auto.
  destruct (IH (Rmax a y)) as [H|H].
  - rewrite H. unfold Rmax. destruct (Rle_dec a y); auto.
  - auto.
Qed.

(** *** The descriptor *)

Section Descriptor.

Context {itk : Itk} {rng : RandomEngine} {libm : Libm}.

Lemma pixel_fold_add (rest : list Image) (dp0 : Image) (idx : Index) :
  pixel (fold_left AddImageFilter rest dp0) idx
  = pixel dp0 idx + Rsum (map (fun d => pixel d idx) rest).
Proof.
  revert dp0; induction rest as [|x rest IH]; intros dp0; simpl.
  - lra.
  - rewrite IH. simpl. lra.
Qed.

Lemma channel_max_map (features : list Image) (idx : Index) :
  channel_max features idx = max_over (map (fun f => pixel f idx) features).
Proof.
  unfold channel_max, max_over. generalize 0.
  induction features as [|f fs IH]; intros a; simpl; auto.
Qed.

Lemma patch_distance_nonneg (m : MINDMetric) (image d : Image) (idx : Index) :
  In d (ComputePatchDistances m image) -> 0 <= pixel d idx.
Proof.
  unfold ComputePatchDistances. intros H. apply in_map_iff in H.
  destruct H as [[[dx dy] dz] [<- _]].
  unfold ApplyMeanFilter. apply MeanImageFilter_nonneg.
  intros i. simpl. apply Rle_0_sqr.
Qed.

(** The channels of ComputeMINDFeatures at one voxel, from the patch
    distances at that voxel. *)
Lemma features_at_voxel (m : MINDMetric) (image : Image) (idx : Index) :
  m_NeighborhoodOffsets m <> [] ->
  let Dp := map (fun d => pixel d idx) (ComputePatchDistances m image) in
  let V := / INR (length Dp) * Rsum Dp + 1e-10 in
  let raw := map (fun d => exp (- d / V)) Dp in
  map (fun f => pixel f idx) (ComputeMINDFeatures m image)
  = map (fun e => e / (max_over raw + 1e-10)) raw.
Proof.
  intros Hoff. cbv zeta.
  assert (Hlen : length (ComputePatchDistances m image)
                 = length (m_NeighborhoodOffsets m))
    by (unfold ComputePatchDistances; apply length_map).
  unfold ComputeMINDFeatures.
  destruct (ComputePatchDistances m image) as [|dp0 rest] eqn:E.
  { destruct (m_NeighborhoodOffsets m); [congruence|discriminate]. }
  rewrite <- Hlen. set (dps := dp0 :: rest).
  rewrite !map_map.
  assert (HV : forall i,
    pixel (fold_left AddImageFilter rest dp0) i / INR (length dps) + 1e-10
    = / INR (length (map (fun d => pixel d i) dps))
      * Rsum (map (fun d => pixel d i) dps) + 1e-10).
  { intros i. rewrite pixel_fold_add, length_map. simpl Rsum.
    unfold Rdiv. ring. }
  apply map_ext. intros d. unfold like. cbn [pixel].
  rewrite channel_max_map, map_map. cbn [pixel].
  rewrite !HV. reflexivity.
Qed.

(** C5: there is one patch distance per offset, and the one of the k-th
    offset [r_k] is the mean filter of radius mindRadius applied to an
    image with the geometry of the input whose pixel at every [x] is
    [(I(x) - shift(I, r_k)(x))^2]; at every voxel each channel of
    ComputeMINDFeatures is [exp(-Dp_k / V)] divided by the largest such
    value over the channels plus 1e-10, with [V] the mean of the patch
    distances plus 1e-10; no channel exceeds 1 and some channel is within
    1e-5 of 1. *)
Theorem mind_descriptor_normalized (m : MINDMetric) (image : Image)
    (idx : Index) :
  m_NeighborhoodOffsets m <> [] ->
  let Dp := map (fun d => pixel d idx) (ComputePatchDistances m image) in
  let V := / INR (length Dp) * Rsum Dp + 1e-10 in
  let raw := map (fun d => exp (- d / V)) Dp in
  let channels :=
    map (fun f => pixel f idx) (ComputeMINDFeatures m image) in
  (length (ComputePatchDistances m image) = length (m_NeighborhoodOffsets m)
   /\ forall (k : nat) (dx dy dz : Z),
        nth_error (m_NeighborhoodOffsets m) k = Some (dx, dy, dz) ->
        exists squaredDifference : Image,
          nth_error (ComputePatchDistances m image) k
          = Some (MeanImageFilter (m_MINDRadius m) squaredDifference)
          /\ size squaredDifference = size image
          /\ toPhysical squaredDifference = toPhysical image
          /\ forall x : Index,
               pixel squaredDifference x
               = (pixel image x - pixel (ShiftImage image dx dy dz) x) ^ 2)
  /\ channels = map (fun e => e / (max_over raw + 1e-10)) raw
  /\ (forall c, In c channels -> c <= 1)
  /\ (exists c, In c channels /\ 1 - 1e-5 <= c).
Proof.
  intros Hoff. cbv zeta.
  split.
  { split; [unfold ComputePatchDistances; apply length_map|].
    intros k dx dy dz Hk. unfold ComputePatchDistances.
    rewrite nth_error_map, Hk. cbn [option_map].
    eexists. split; [reflexivity|].
    split; [reflexivity|]. split; [reflexivity|].
    intros x. cbn. ring. }
  rewrite (features_at_voxel m image idx Hoff).
  set (Dp := map (fun d => pixel d idx) (ComputePatchDistances m image)).
  set (V := / INR (length Dp) * Rsum Dp + 1e-10).
  set (raw := map (fun d => exp (- d / V)) Dp).
  set (M := max_over raw).
  assert (HDp : forall d, In d Dp -> 0 <= d).
  { intros d Hd. apply in_map_iff in Hd. destruct Hd as [im [<- Him]].
    now apply (patch_distance_nonneg m image). }
  assert (HDpne : Dp <> []).
  { unfold Dp, ComputePatchDistances.
    destruct (m_NeighborhoodOffsets m); [congruence|discriminate]. }
  assert (Hn : 0 < INR (length Dp)).
  { apply lt_0_INR. destruct Dp; [congruence|simpl; lia]. }
  assert (Hmean : 0 <= / INR (length Dp) * Rsum Dp).
  { apply Rmult_le_pos; [left; now apply Rinv_0_lt_compat|].
    now apply Rsum_nonneg. }
  assert (HV : 0 < V) by (unfold V; lra).
  assert (HM0 : 0 <= M) by (apply fold_max_ge_init).
  (* the channel of a smallest patch distance lies above exp(-1) *)
  destruct (exists_below_mean Dp HDpne) as [d0 [Hd0 Hle]].
  assert (Hraw0 : / 3 <= exp (- d0 / V)).
  { assert (Hlt : Ropp 1 < - d0 / V).
    { unfold Rdiv. rewrite <- Ropp_mult_distr_l.
      apply Ropp_lt_contravar.
      apply (Rmult_lt_reg_r V); [exact HV|].
      rewrite Rmult_assoc, Rinv_l, Rmult_1_r, Rmult_1_l by lra.
      unfold V. lra. }
    apply exp_increasing in Hlt. rewrite exp_Ropp in Hlt.
    assert (H3 : / 3 <= / exp 1).
    { apply Rinv_le_contravar; [apply exp_pos|apply exp_le_3]. }
    lra. }
  assert (HM : / 3 <= M).
  { eapply Rle_trans; [exact Hraw0|].
    apply fold_max_ge. unfold raw. apply in_map_iff. now exists d0. }
  assert (HMin : In M raw).
  { destruct (fold_max_attained raw 0) as [H|H]; [|exact H].
    unfold M, max_over in HM. rewrite H in HM. lra. }
  split; [reflexivity|]. split.
  - intros c Hc. apply in_map_iff in Hc. destruct Hc as [e [<- He]].
    assert (e <= M) by (now apply fold_max_ge).
    apply (Rmult_le_reg_r (M + 1e-10)); [lra|].
    unfold Rdiv. rewrite Rmult_assoc, Rinv_l, Rmult_1_r by lra. lra.
  - exists (M / (M + 1e-10)). split.
    + apply in_map_iff. now exists M.
    + apply (Rmult_le_reg_r (M + 1e-10)); [lra|].
      unfold Rdiv. rewrite Rmult_assoc, Rinv_l, Rmult_1_r by lra. lra.
Qed.

End Descriptor.

Lemma mind_descriptor_normalized_witness :
  m_NeighborhoodOffsets (constructed identity_transform) <> []
  /\ (forall c,
        In c (map (fun f => pixel f (5, 5, 5)%Z)
                (ComputeMINDFeatures (constructed identity_transform) ramp)) ->
        c <= 1)
  /\ (exists c,
        In c (map (fun f => pixel f (5, 5, 5)%Z)
                (ComputeMINDFeatures (constructed identity_transform) ramp))
        /\ 1 - 1e-5 <= c).
Proof.
  split; [discriminate|].
  assert (Hoff : m_NeighborhoodOffsets (constructed identity_transform) <> [])
    by discriminate.
  destruct (mind_descriptor_normalized (constructed identity_transform) ramp
              (5, 5, 5)%Z Hoff) as (_ & _ & Hle & Hone).
  split; [exact Hle|exact Hone].
Defined.

(** *** The metric value *)

Section Value.

Context {itk : Itk} {rng : RandomEngine} {libm : Libm}.

Lemma channel_loop_ge (m : MINDMetric) (sample : SamplePoint) (tp : Point)
    (chs : list nat) (acc r : R) :
  channel_loop m sample tp chs acc = Some r -> acc <= r.
Proof.
  revert acc; induction chs as [|ch chs IH]; intros acc; simpl.
  - intros H; inversion H; lra.
  - destruct (IsInsideBuffer _ tp); [|discriminate].
    intros H. apply IH in H.
    set (d := nth ch (fixedMINDValues sample) 0 - _) in H.
    pose proof (Rle_0_sqr d) as Hd. unfold Rsqr in Hd. lra.
Qed.

Lemma channel_loop_outside (m : MINDMetric) (sample : SamplePoint)
    (tp : Point) (chs : list nat) (acc : R) :
  (exists ch, In ch chs
     /\ IsInsideBuffer (interpolator_at (m_MovingMINDInterpolators m) ch) tp
        = false) ->
  channel_loop m sample tp chs acc = None.
Proof.
  revert acc; induction chs as [|c chs IH]; intros acc [ch [Hin Hout]].
  - destruct Hin.
  - simpl.
    destruct (IsInsideBuffer
                (interpolator_at (m_MovingMINDInterpolators m) c) tp) eqn:E;
      [|reflexivity].
    apply IH. exists ch. split; [|exact Hout].
    destruct Hin as [->|Hin]; [congruence|exact Hin].
Qed.

(** The accumulator of the sample loop never goes negative. *)
Lemma ssd_fold_nonneg (m : MINDMetric) (T : Point -> Point)
    (samples : list SamplePoint) (total : R) (count : nat) :
  0 <= total ->
  0 <= fst (fold_left
              (fun (acc : R * nat) sample =>
                 let '(totalSSD, validCount) := acc in
                 match channel_loop m sample (T (fixedPoint sample))
                         (seq 0 (length (m_MovingMINDFeatures m))) 0 with
                 | Some sampleSSD => (totalSSD + sampleSSD, S validCount)
                 | None => (totalSSD, validCount)
                 end)
              samples (total, count)).
Proof.
  revert total count; induction samples as [|s samples IH];
    intros total count Ht; simpl; [exact Ht|].
  destruct (channel_loop m s (T (fixedPoint s)) _ 0) as [r|] eqn:E.
  - apply IH. apply channel_loop_ge in E. lra.
  - now apply IH.
Qed.

(** Without a valid sample the loop leaves its accumulator untouched. *)
Lemma ssd_fold_no_valid (m : MINDMetric) (T : Point -> Point)
    (samples : list SamplePoint) (acc : R * nat) :
  (forall sample, In sample samples ->
     exists ch, (ch < length (m_MovingMINDFeatures m))%nat
       /\ IsInsideBuffer (interpolator_at (m_MovingMINDInterpolators m) ch)
            (T (fixedPoint sample)) = false) ->
  fold_left
    (fun (acc : R * nat) sample =>
       let '(totalSSD, validCount) := acc in
       match channel_loop m sample (T (fixedPoint sample))
               (seq 0 (length (m_MovingMINDFeatures m))) 0 with
       | Some sampleSSD => (totalSSD + sampleSSD, S validCount)
       | None => (totalSSD, validCount)
       end)
    samples acc = acc.
Proof.
  revert acc; induction samples as [|s samples IH]; intros [t c] H; simpl;
    [reflexivity|].
  rewrite channel_loop_outside.
  - apply IH. intros x Hx. apply H. now right.
  - destruct (H s (or_introl eq_refl)) as [ch [Hlt Hout]].
    exists ch. split; [|exact Hout]. apply in_seq. lia.
Qed.

End Value.

(** *** What the loops read of the metric *)

Section Frames.

Context {itk : Itk} {rng : RandomEngine} {libm : Libm}.

Lemma fold_left_ext_eq {A B : Type} (f g : A -> B -> A) (l : list B) (a : A) :
  (forall x y, f x y = g x y) -> fold_left f l a = fold_left g l a.
Proof.
  intros H. revert a; induction l as [|y l IH]; intros a; simpl; auto.
  now rewrite H, IH.
Qed.

(** The channel loop reads the interpolators and nothing else. *)
Lemma channel_loop_ext (m1 m2 : MINDMetric) (sample : SamplePoint)
    (tp : Point) (chs : list nat) (acc : R) :
  m_MovingMINDInterpolators m1 = m_MovingMINDInterpolators m2 ->
  channel_loop m1 sample tp chs acc = channel_loop m2 sample tp chs acc.
Proof.
  intros H. revert acc; induction chs as [|ch chs IH]; intros acc; simpl;
    auto.
  rewrite H. destruct (IsInsideBuffer _ tp); auto.
Qed.

Lemma ssd_loop_ext (m1 m2 : MINDMetric) (T : Point -> Point) :
  m_MovingMINDInterpolators m1 = m_MovingMINDInterpolators m2 ->
  m_MovingMINDFeatures m1 = m_MovingMINDFeatures m2 ->
  m_SamplePoints m1 = m_SamplePoints m2 ->
  ssd_loop m1 T = ssd_loop m2 T.
Proof.
  intros HI HF HS. unfold ssd_loop. rewrite HF, HS.
  apply fold_left_ext_eq. intros [t c] sample.
  now rewrite (channel_loop_ext m1 m2 _ _ _ _ HI).
Qed.

(** The sampling loops read the mask and the fixed features. *)
Lemma stratified_loop_ext (m1 m2 : MINDMetric) (fixed : Image) (n : nat)
    (candidates : list Index) (samples : list SamplePoint) :
  m_FixedImageMask m1 = m_FixedImageMask m2 ->
  m_FixedMINDFeatures m1 = m_FixedMINDFeatures m2 ->
  stratified_loop m1 fixed n candidates samples
  = stratified_loop m2 fixed n candidates samples.
Proof.
  intros HM HF.
  revert samples; induction candidates as [|c cs IH]; intros samples; simpl;
    auto.
  unfold mask_rejects, make_sample. rewrite HM, HF.
  destruct (n <=? length samples)%nat; auto.
  destruct (match m_FixedImageMask m2 with
            | Some inside => negb (inside (toPhysical fixed c))
            | None => false
            end); auto.
Qed.

Lemma random_loop_ext (m1 m2 : MINDMetric) (fixed : Image) (n : nat)
    (padding : Z) (attempts : nat) (gen : Generator)
    (samples : list SamplePoint) :
  m_FixedImageMask m1 = m_FixedImageMask m2 ->
  m_FixedMINDFeatures m1 = m_FixedMINDFeatures m2 ->
  random_loop m1 fixed n padding attempts gen samples
  = random_loop m2 fixed n padding attempts gen samples.
Proof.
  intros HM HF.
  revert gen samples; induction attempts as [|k IH]; intros gen samples;
    simpl; auto.
  destruct (n <=? length samples)%nat; auto.
  destruct (size fixed) as [[sx sy] szz].
  destruct (uniform_int padding (sx - padding - 1) gen) as [x g1].
  destruct (uniform_int padding (sy - padding - 1) g1) as [y g2].
  destruct (uniform_int padding (szz - padding - 1) g2) as [z g3].
  unfold mask_rejects, make_sample. rewrite HM, HF.
  destruct (match m_FixedImageMask m2 with
            | Some inside => negb (inside (toPhysical fixed (x, y, z)))
            | None => false
            end); auto.
Qed.

End Frames.

(** *** mindSigma *)

Section Sigma.

Context {itk : Itk} {rng : RandomEngine} {libm : Libm}.

Lemma GetValue_sigma (sigma : R) (m : MINDMetric) :
  GetValue (set_MINDSigma sigma m)
  = option_map (fun x => (fst x, set_MINDSigma sigma (snd x))) (GetValue m).
Proof.
  unfold GetValue, ComputeMINDSSD.
  change (transform_in_loop (set_MINDSigma sigma m))
    with (transform_in_loop m).
  destruct (transform_in_loop m) as [T|]; [|reflexivity].
  rewrite (ssd_loop_ext (set_MINDSigma sigma m) m T) by reflexivity.
  destruct (ssd_loop m T) as [total count].
  cbn [m_MovingMINDFeatures set_MINDSigma].
  destruct (if (0 <? count)%nat
            then divide total (count * length (m_MovingMINDFeatures m))
            else Some 0); reflexivity.
Qed.

Lemma GetResiduals_sigma (sigma : R) (m : MINDMetric) :
  GetResiduals (set_MINDSigma sigma m)
  = option_map (fun x => (fst x, set_MINDSigma sigma (snd x)))
      (GetResiduals m).
Proof.
  unfold GetResiduals.
  change (transform_in_loop (set_MINDSigma sigma m))
    with (transform_in_loop m).
  destruct (transform_in_loop m) as [T|]; [|reflexivity].
  match goal with
  | |- (let '(_, _) := ?a in _) = option_map _ (let '(_, _) := ?b in _) =>
      change a with b; destruct b as [residuals count]
  end.
  reflexivity.
Qed.

Lemma GetResidualsAndJacobian_sigma (sigma : R) (m : MINDMetric) :
  GetResidualsAndJacobian (set_MINDSigma sigma m)
  = option_map (fun x => (fst x, set_MINDSigma sigma (snd x)))
      (GetResidualsAndJacobian m).
Proof.
  unfold GetResidualsAndJacobian.
  change (m_JacobianFunction (set_MINDSigma sigma m))
    with (m_JacobianFunction m).
  destruct (m_JacobianFunction m) as [jf|]; [|reflexivity].
  change (transform_in_loop (set_MINDSigma sigma m))
    with (transform_in_loop m).
  destruct (transform_in_loop m) as [T|]; [|reflexivity].
  match goal with
  | |- (let '(_, _) := ?a in _) = option_map _ (let '(_, _) := ?b in _) =>
      change a with b; destruct b as [[residuals jacobian] count]
  end.
  reflexivity.
Qed.

Lemma up_to_sigma_erase {A : Type} (F : MINDMetric -> option (A * MINDMetric))
    (m : MINDMetric) :
  (forall sigma m0,
     F (set_MINDSigma sigma m0)
     = option_map (fun x => (fst x, set_MINDSigma sigma (snd x))) (F m0)) ->
  up_to_sigma (F m) = up_to_sigma (F (set_MINDSigma 0 m)).
Proof.
  intros H. rewrite H. unfold up_to_sigma.
  destruct (F m) as [[a m']|]; reflexivity.
Qed.

(** C9: two states that differ only in the value passed to SetMINDSigma
    yield the same patch distances and the same features for every image,
    and the same value, residuals and Jacobian, with successor states that
    again differ only in that member. *)
Theorem mind_sigma_has_no_effect (m1 m2 : MINDMetric) :
  differ_only_in_sigma m1 m2 ->
  (forall image, ComputePatchDistances m1 image = ComputePatchDistances m2 image)
  /\ (forall image, ComputeMINDFeatures m1 image = ComputeMINDFeatures m2 image)
  /\ up_to_sigma (GetValue m1) = up_to_sigma (GetValue m2)
  /\ up_to_sigma (GetResiduals m1) = up_to_sigma (GetResiduals m2)
  /\ up_to_sigma (GetResidualsAndJacobian m1)
     = up_to_sigma (GetResidualsAndJacobian m2).
Proof.
  unfold differ_only_in_sigma. intros H.
  assert (HP : forall image,
            ComputePatchDistances m1 image = ComputePatchDistances m2 image).
  { intros image.
    change (ComputePatchDistances (set_MINDSigma 0 m1) image
            = ComputePatchDistances (set_MINDSigma 0 m2) image).
    now rewrite H. }
  assert (HF : forall image,
            ComputeMINDFeatures m1 image = ComputeMINDFeatures m2 image).
  { intros image.
    change (ComputeMINDFeatures (set_MINDSigma 0 m1) image
            = ComputeMINDFeatures (set_MINDSigma 0 m2) image).
    now rewrite H. }
  repeat split; auto.
  - rewrite (up_to_sigma_erase GetValue m1 GetValue_sigma),
            (up_to_sigma_erase GetValue m2 GetValue_sigma).
    now rewrite H.
  - rewrite (up_to_sigma_erase GetResiduals m1 GetResiduals_sigma),
            (up_to_sigma_erase GetResiduals m2 GetResiduals_sigma).
    now rewrite H.
  - rewrite (up_to_sigma_erase GetResidualsAndJacobian m1
               GetResidualsAndJacobian_sigma),
            (up_to_sigma_erase GetResidualsAndJacobian m2
               GetResidualsAndJacobian_sigma).
    now rewrite H.
Qed.

End Sigma.

Lemma mind_sigma_witness :
  differ_only_in_sigma (one_sample_metric identity_transform)
    (SetMINDSigma 2.5 (one_sample_metric identity_transform))
  /\ up_to_sigma (GetValue (one_sample_metric identity_transform))
     = up_to_sigma
         (GetValue (SetMINDSigma 2.5 (one_sample_metric identity_transform))).
Proof.
  split; [reflexivity|].
  apply (mind_sigma_has_no_effect (one_sample_metric identity_transform)
           (SetMINDSigma 2.5 (one_sample_metric identity_transform))).
  reflexivity.
Defined.

(** *** Sampling and the random seed *)

Section Seed.

Context {itk : Itk} {rng : RandomEngine} {libm : Libm}.

Lemma SampleFixedImage_seed (seed : N) (m : MINDMetric) :
  SampleFixedImage (SetRandomSeed seed m)
  = option_map (SetRandomSeed seed) (SampleFixedImage m).
Proof.
  unfold SampleFixedImage.
  change (m_UseStratifiedSampling (SetRandomSeed seed m))
    with (m_UseStratifiedSampling m).
  destruct (m_UseStratifiedSampling m).
  - unfold SampleFixedImageStratified.
    change (m_FixedImage (SetRandomSeed seed m)) with (m_FixedImage m).
    destruct (m_FixedImage m) as [fixedPtr|]; [|reflexivity].
    destruct (size (target fixedPtr)) as [[sx sy] szz] eqn:Esz.
    cbn [m_SamplingPercentage m_MINDRadius SetRandomSeed set_UseFixedSeed
         set_RandomSeed].
    destruct (targetSamples_of _ _) as [targetSamples|]; [|reflexivity].
    destruct (traversal _ _ _) as [[|]|]; try reflexivity.
    destruct (step_of _ _) as [step|]; [|reflexivity].
    destruct (counters_fit _ _ _); [|reflexivity].
    rewrite (stratified_loop_ext _ m) by reflexivity. reflexivity.
  - unfold SampleFixedImageRandom.
    change (m_FixedImage (SetRandomSeed seed m)) with (m_FixedImage m).
    destruct (m_FixedImage m) as [fixedPtr|]; [|reflexivity].
    destruct (size (target fixedPtr)) as [[sx sy] szz] eqn:Esz.
    cbn [m_SamplingPercentage m_MINDRadius m_RandomGenerator SetRandomSeed
         set_UseFixedSeed set_RandomSeed].
    destruct (targetSamples_of _ _) as [targetSamples|]; [|reflexivity].
    rewrite (random_loop_ext _ m) by reflexivity.
    destruct (random_loop m (target fixedPtr) _ _ _ _ _) as [samples gen].
    reflexivity.
Qed.

Lemma refresh_features_seed (seed : N) (fixedPtr movingPtr : Pointer)
    (m : MINDMetric) :
  refresh_features fixedPtr movingPtr (SetRandomSeed seed m)
  = (SetRandomSeed seed (fst (refresh_features fixedPtr movingPtr m)),
     snd (refresh_features fixedPtr movingPtr m)).
Proof.
  unfold refresh_features, SetRandomSeed. destruct m. simpl.
  match goal with
  | |- context [if ?c then _ else _] => destruct c
  end; simpl;
  match goal with
  | |- context [if ?c then _ else _] => destruct c
  end; reflexivity.
Qed.

(** SetRandomSeed before Initialize changes the stored seed and the
    engine Initialize leaves, and nothing else. *)
Lemma Initialize_seed (seed : N) (m : MINDMetric) :
  Initialize (SetRandomSeed seed m)
  = option_map
      (fun r => (set_RandomGenerator (seed_engine seed)
                   (SetRandomSeed seed (fst r)), snd r))
      (Initialize m).
Proof.
  unfold Initialize.
  change (m_FixedImage (SetRandomSeed seed m)) with (m_FixedImage m).
  change (m_MovingImage (SetRandomSeed seed m)) with (m_MovingImage m).
  change (m_Transform (SetRandomSeed seed m)) with (m_Transform m).
  destruct (m_FixedImage m) as [fixedPtr|]; [|reflexivity].
  destruct (m_MovingImage m) as [movingPtr|]; [|reflexivity].
  destruct (m_Transform m) as [T|]; [|reflexivity].
  change (InitializeNeighborhoodOffsets (SetRandomSeed seed m))
    with (SetRandomSeed seed (InitializeNeighborhoodOffsets m)).
  rewrite refresh_features_seed.
  destruct (refresh_features fixedPtr movingPtr
              (InitializeNeighborhoodOffsets m)) as [m1 log].
  cbn [fst snd]. rewrite SampleFixedImage_seed.
  destruct (SampleFixedImage m1) as [m2|]; reflexivity.
Qed.

(** C10: the samples of Initialize do not depend on the value passed to
    SetRandomSeed beforehand: the sampling draws from the engine as it
    stood, and only afterwards is the engine seeded with the configured
    seed, to be used by later samplings. *)
Theorem first_sampling_ignores_seed (m : MINDMetric) (seed1 seed2 : N) :
  option_map (fun r => m_SamplePoints (fst r))
    (Initialize (SetRandomSeed seed1 m))
  = option_map (fun r => m_SamplePoints (fst r))
      (Initialize (SetRandomSeed seed2 m))
  /\ option_map (fun r => m_RandomGenerator (fst r))
       (Initialize (SetRandomSeed seed1 m))
     = option_map (fun _ => seed_engine seed1)
         (Initialize (SetRandomSeed seed1 m)).
Proof.
  rewrite !Initialize_seed.
  destruct (Initialize m) as [[m' log]|]; split; reflexivity.
Qed.

End Seed.

(** *** The feature cache *)

Section Cache.

Context {itk : Itk} {rng : RandomEngine} {libm : Libm}.

(** Sampling writes the samples and the engine and nothing else. *)
Lemma SampleFixedImage_frame (m m' : MINDMetric) :
  SampleFixedImage m = Some m' ->
  m' = set_RandomGenerator (m_RandomGenerator m')
         (set_SamplePoints (m_SamplePoints m') m).
Proof.
  unfold SampleFixedImage, SampleFixedImageStratified, SampleFixedImageRandom.
  destruct (m_UseStratifiedSampling m);
    (destruct (m_FixedImage m) as [fixedPtr|]; [|discriminate]);
    destruct (size (target fixedPtr)) as [[sx sy] szz].
  - destruct (targetSamples_of _ _) as [targetSamples|]; [|discriminate].
    destruct (traversal _ _ _) as [[|]|]; [| |discriminate].
    + destruct (step_of _ _) as [step|]; [|discriminate].
      destruct (counters_fit _ _ _); [|discriminate].
      intros H; inversion H; subst. destruct m; reflexivity.
    + intros H; inversion H; subst. destruct m; reflexivity.
  - destruct (targetSamples_of _ _) as [targetSamples|]; [|discriminate].
    destruct (random_loop _ _ _ _ _ _ _) as [samples gen].
    intros H; inversion H; subst. destruct m; reflexivity.
Qed.

Lemma SampleFixedImage_defined (m : MINDMetric) :
  sampling_defined m = true -> exists m', SampleFixedImage m = Some m'.
Proof.
  unfold sampling_defined, SampleFixedImage, SampleFixedImageStratified,
    SampleFixedImageRandom.
  destruct (m_FixedImage m) as [fixedPtr|]; [|discriminate].
  destruct (m_UseStratifiedSampling m);
    destruct (size (target fixedPtr)) as [[sx sy] szz];
    (destruct (targetSamples_of _ _) as [targetSamples|]; [|discriminate]).
  - destruct (traversal _ _ _) as [[|]|]; [| |discriminate].
    + destruct (step_of _ _) as [step|]; [|discriminate].
      intros ->. eexists; reflexivity.
    + intros _. eexists; reflexivity.
  - intros _. destruct (random_loop _ _ _ _ _ _ _) as [samples gen].
    eexists; reflexivity.
Qed.

(** What the two cache tests leave. *)
Lemma refresh_features_spec (fixedPtr movingPtr : Pointer) (m : MINDMetric) :
  let m' := fst (refresh_features fixedPtr movingPtr m) in
  snd (refresh_features fixedPtr movingPtr m)
  = [if fixed_cache_hit m
     then UsedCachedFixedFeatures else ComputedFixedFeatures;
     if moving_cache_hit m
     then UsedCachedMovingFeatures else ComputedMovingFeatures]
  /\ m_FixedMINDFeatures m'
     = (if fixed_cache_hit m then m_FixedMINDFeatures m
        else ComputeMINDFeatures m (target fixedPtr))
  /\ m_MovingMINDFeatures m'
     = (if moving_cache_hit m then m_MovingMINDFeatures m
        else ComputeMINDFeatures m (target movingPtr))
  /\ m_MovingMINDFeatureGradients m'
     = (if moving_cache_hit m then m_MovingMINDFeatureGradients m
        else map GradientImageFilter
               (ComputeMINDFeatures m (target movingPtr)))
  /\ m_CachedFixedImage m'
     = (if fixed_cache_hit m then m_CachedFixedImage m else m_FixedImage m)
  /\ m_CachedMovingImage m'
     = (if moving_cache_hit m then m_CachedMovingImage m else m_MovingImage m)
  /\ m_FixedMINDFeaturesValid m' = true
  /\ m_MovingMINDFeaturesValid m' = true
  /\ m_FixedImage m' = m_FixedImage m
  /\ m_MovingImage m' = m_MovingImage m
  /\ m_Transform m' = m_Transform m
  /\ m_MINDRadius m' = m_MINDRadius m
  /\ m_NeighborhoodType m' = m_NeighborhoodType m
  /\ m_UseStratifiedSampling m' = m_UseStratifiedSampling m
  /\ m_SamplingPercentage m' = m_SamplingPercentage m
  /\ m_NeighborhoodOffsets m' = m_NeighborhoodOffsets m
  /\ m_MovingMINDInterpolators m'
     = (if moving_cache_hit m then m_MovingMINDInterpolators m
        else ComputeMINDFeatures m (target movingPtr)).
Proof.
  unfold refresh_features, fixed_cache_hit, moving_cache_hit.
  destruct m. simpl.
  destruct (ptr_neq m_CachedFixedImage0 m_FixedImage0);
    destruct m_FixedMINDFeaturesValid0; simpl;
    destruct (ptr_neq m_CachedMovingImage0 m_MovingImage0);
    destruct m_MovingMINDFeaturesValid0; simpl;
    repeat split; reflexivity.
Qed.

(** What a successful Initialize leaves. *)
Lemma Initialize_spec (m m' : MINDMetric) (log : list Event) :
  Initialize m = Some (m', log) ->
  exists fixedPtr movingPtr,
    m_FixedImage m = Some fixedPtr
    /\ m_MovingImage m = Some movingPtr
    /\ log = [if fixed_cache_hit m
              then UsedCachedFixedFeatures else ComputedFixedFeatures;
              if moving_cache_hit m
              then UsedCachedMovingFeatures else ComputedMovingFeatures]
    /\ m_FixedMINDFeatures m'
       = (if fixed_cache_hit m then m_FixedMINDFeatures m
          else ComputeMINDFeatures (InitializeNeighborhoodOffsets m)
                 (target fixedPtr))
    /\ m_MovingMINDFeatures m'
       = (if moving_cache_hit m then m_MovingMINDFeatures m
          else ComputeMINDFeatures (InitializeNeighborhoodOffsets m)
                 (target movingPtr))
    /\ m_MovingMINDFeatureGradients m'
       = (if moving_cache_hit m then m_MovingMINDFeatureGradients m
          else map GradientImageFilter
                 (ComputeMINDFeatures (InitializeNeighborhoodOffsets m)
                    (target movingPtr)))
    /\ m_CachedFixedImage m'
       = (if fixed_cache_hit m then m_CachedFixedImage m else m_FixedImage m)
    /\ m_CachedMovingImage m'
       = (if moving_cache_hit m then m_CachedMovingImage m
          else m_MovingImage m)
    /\ m_FixedMINDFeaturesValid m' = true
    /\ m_MovingMINDFeaturesValid m' = true
    /\ m_FixedImage m' = m_FixedImage m
    /\ m_MovingImage m' = m_MovingImage m
    /\ m_Transform m' = m_Transform m
    /\ m_MINDRadius m' = m_MINDRadius m
    /\ m_NeighborhoodType m' = m_NeighborhoodType m
    /\ m_UseStratifiedSampling m' = m_UseStratifiedSampling m
    /\ m_SamplingPercentage m' = m_SamplingPercentage m
    /\ m_NeighborhoodOffsets m' = offsets_of (m_NeighborhoodType m)
    /\ m_MovingMINDInterpolators m'
       = (if moving_cache_hit m then m_MovingMINDInterpolators m
          else ComputeMINDFeatures (InitializeNeighborhoodOffsets m)
                 (target movingPtr)).
Proof.
  unfold Initialize.
  destruct (m_FixedImage m) as [fixedPtr|] eqn:EF; [|discriminate].
  destruct (m_MovingImage m) as [movingPtr|] eqn:EM; [|discriminate].
  destruct (m_Transform m) as [T|] eqn:ET; [|discriminate].
  pose proof (refresh_features_spec fixedPtr movingPtr
                (InitializeNeighborhoodOffsets m)) as S.
  destruct (refresh_features fixedPtr movingPtr
              (InitializeNeighborhoodOffsets m)) as [m1 log1].
  cbn [fst snd] in S.
  destruct (SampleFixedImage m1) as [m2|] eqn:ES; [|discriminate].
  intros H; inversion H; subst; clear H.
  rewrite (SampleFixedImage_frame m1 m2 ES).
  cbn [set_RandomGenerator set_SamplePoints m_FixedMINDFeatures
       m_MovingMINDFeatures m_MovingMINDFeatureGradients m_CachedFixedImage
       m_CachedMovingImage m_FixedMINDFeaturesValid m_MovingMINDFeaturesValid
       m_FixedImage m_MovingImage m_Transform m_MINDRadius m_NeighborhoodType
       m_UseStratifiedSampling m_SamplingPercentage m_NeighborhoodOffsets
       m_MovingMINDInterpolators].
  exists fixedPtr, movingPtr.
  change (fixed_cache_hit (InitializeNeighborhoodOffsets m))
    with (fixed_cache_hit m) in S.
  change (moving_cache_hit (InitializeNeighborhoodOffsets m))
    with (moving_cache_hit m) in S.
  destruct S as (S1 & S2 & S3 & S4 & S5 & S6 & S7 & S8 & S9 & S10 & S11
                 & S12 & S13 & S14 & S15 & S16 & S17).
  cbn [InitializeNeighborhoodOffsets set_NeighborhoodOffsets
       m_FixedMINDFeatures m_MovingMINDFeatures m_MovingMINDFeatureGradients
       m_CachedFixedImage m_CachedMovingImage m_FixedImage m_MovingImage
       m_Transform m_MINDRadius m_NeighborhoodType m_UseStratifiedSampling
       m_SamplingPercentage m_NeighborhoodOffsets m_MovingMINDInterpolators]
    in S2, S3, S4, S5, S6, S9, S10, S11, S12, S13, S14, S15, S16, S17.
  rewrite EF in *. rewrite EM in *.
  repeat split; first [assumption | reflexivity | congruence].
Qed.

Lemma SampleFixedImage_defined_iff (m : MINDMetric) :
  (exists m', SampleFixedImage m = Some m') <-> sampling_defined m = true.
Proof.
  split; [|apply SampleFixedImage_defined].
  unfold sampling_defined, SampleFixedImage, SampleFixedImageStratified,
    SampleFixedImageRandom.
  intros [m' H].
  destruct (m_UseStratifiedSampling m);
    (destruct (m_FixedImage m) as [fixedPtr|]; [|discriminate]);
    destruct (size (target fixedPtr)) as [[sx sy] szz];
    (destruct (targetSamples_of _ _) as [targetSamples|]; [|discriminate]);
    [|reflexivity].
  destruct (traversal _ _ _) as [[|]|]; [|reflexivity|discriminate].
  destruct (step_of _ _) as [step|]; [|discriminate].
  destruct (counters_fit _ _ _); [reflexivity|discriminate].
Qed.

Lemma sampling_defined_refresh (fixedPtr movingPtr : Pointer)
    (m : MINDMetric) :
  sampling_defined (fst (refresh_features fixedPtr movingPtr m))
  = sampling_defined m.
Proof.
  pose proof (refresh_features_spec fixedPtr movingPtr m) as S.
  cbv zeta in S.
  destruct S as (_ & _ & _ & _ & _ & _ & _ & _ & S9 & _ & _ & S12 & _ & S14
                 & S15 & _).
  unfold sampling_defined. now rewrite S9, S12, S14, S15.
Qed.

(** When Initialize succeeds. *)
Lemma Initialize_defined_iff (m : MINDMetric) :
  (exists m' log, Initialize m = Some (m', log)) <->
  m_FixedImage m <> None /\ m_MovingImage m <> None
  /\ m_Transform m <> None /\ sampling_defined m = true.
Proof.
  unfold Initialize.
  destruct (m_FixedImage m) as [fixedPtr|] eqn:EF.
  2:{ split; [intros [? [? H]]; discriminate|intros [H _]; congruence]. }
  destruct (m_MovingImage m) as [movingPtr|] eqn:EM.
  2:{ split; [intros [? [? H]]; discriminate|intros [_ [H _]]; congruence]. }
  destruct (m_Transform m) as [T|] eqn:ET.
  2:{ split; [intros [? [? H]]; discriminate
             |intros [_ [_ [H _]]]; congruence]. }
  pose proof (sampling_defined_refresh fixedPtr movingPtr
                (InitializeNeighborhoodOffsets m)) as SD.
  change (sampling_defined (InitializeNeighborhoodOffsets m))
    with (sampling_defined m) in SD.
  destruct (refresh_features fixedPtr movingPtr
              (InitializeNeighborhoodOffsets m)) as [m1 log1].
  cbn [fst] in SD. rewrite <- SD.
  rewrite <- (SampleFixedImage_defined_iff m1).
  destruct (SampleFixedImage m1) as [m2|].
  - split.
    + intros _. repeat split; try discriminate. now exists m2.
    + intros _. eexists; eexists; reflexivity.
  - split.
    + intros [? [? H]]; discriminate.
    + intros [_ [_ [_ [? H]]]]; discriminate.
Qed.

Lemma ptr_neq_refl (p : option Pointer) : ptr_neq p p = false.
Proof.
  destruct p as [a|]; simpl; auto. now rewrite Nat.eqb_refl.
Qed.

(** After Initialize both caches are valid. *)
Lemma cache_valid_after_Initialize (m m' : MINDMetric) (log : list Event) :
  Initialize m = Some (m', log) ->
  fixed_cache_hit m' = true /\ moving_cache_hit m' = true.
Proof.
  intros H.
  destruct (Initialize_spec m m' log H)
    as (fixedPtr & movingPtr & EF & EM & L & F1 & F2 & F3 & C1 & C2 & V1
        & V2 & I1 & I2 & I3 & P1 & P2 & P3).
  split.
  - unfold fixed_cache_hit. rewrite C1, I1, V1.
    destruct (fixed_cache_hit m) eqn:E.
    + unfold fixed_cache_hit in E. apply andb_prop in E. destruct E as [E _].
      now rewrite E.
    + now rewrite ptr_neq_refl.
  - unfold moving_cache_hit. rewrite C2, I2, V2.
    destruct (moving_cache_hit m) eqn:E.
    + unfold moving_cache_hit in E. apply andb_prop in E.
      destruct E as [E _]. now rewrite E.
    + now rewrite ptr_neq_refl.
Qed.

(** The value queries write the value and the count of valid samples and
    nothing else. *)
Lemma GetValue_frame (m m' : MINDMetric) (v : R) :
  GetValue m = Some (v, m') ->
  m' = set_CurrentValue v
         (set_NumberOfValidSamples (m_NumberOfValidSamples m') m).
Proof.
  unfold GetValue, ComputeMINDSSD.
  destruct (transform_in_loop m) as [T|]; [|discriminate].
  destruct (ssd_loop m T) as [total count].
  destruct (if (0 <? count)%nat then _ else _) as [w|]; [|discriminate].
  intros H; inversion H; subst. reflexivity.
Qed.

Lemma GetResiduals_frame (m m' : MINDMetric) (residuals : list R) :
  GetResiduals m = Some (residuals, m') ->
  m' = set_NumberOfValidSamples (m_NumberOfValidSamples m') m.
Proof.
  unfold GetResiduals.
  destruct (transform_in_loop m) as [T|]; [|discriminate].
  destruct (fold_left _ _ _) as [r count].
  intros H; inversion H; subst. reflexivity.
Qed.

Lemma GetResidualsAndJacobian_frame (m m' : MINDMetric)
    (residuals : list R) (jacobian : list (list R)) :
  GetResidualsAndJacobian m = Some (residuals, jacobian, m') ->
  m' = set_NumberOfValidSamples (m_NumberOfValidSamples m') m.
Proof.
  unfold GetResidualsAndJacobian.
  destruct (m_JacobianFunction m) as [jf|]; [|discriminate].
  destruct (transform_in_loop m) as [T|]; [|discriminate].
  destruct (fold_left _ _ _) as [[r j] count].
  intros H; inversion H; subst. reflexivity.
Qed.

(** ReinitializeSampling writes the moving features, their gradients, the
    samples and the engine. *)
Lemma ReinitializeSampling_frame (m m' : MINDMetric) :
  ReinitializeSampling m = Some m' ->
  exists movingPtr,
    m_MovingImage m = Some movingPtr
    /\ m' = set_RandomGenerator (m_RandomGenerator m')
              (set_SamplePoints (m_SamplePoints m')
                 (ComputeMINDFeatureGradients
                    (set_MovingMINDFeatures
                       (ComputeMINDFeatures m (target movingPtr)) m))).
Proof.
  unfold ReinitializeSampling.
  destruct (m_MovingImage m) as [movingPtr|]; [|discriminate].
  intros H. exists movingPtr. split; [reflexivity|].
  exact (SampleFixedImage_frame _ _ H).
Qed.

(** What a call other than Initialize does to the members the cache tests
    read: it leaves the fixed bundle and the value interpolators alone, and
    it leaves the pointers and the validity flag of a bundle alone unless it
    clears that flag. *)
Lemma apply_call_cache (c : Call) (m m' : MINDMetric) :
  apply_call c m = Some m' ->
  m_FixedMINDFeatures m' = m_FixedMINDFeatures m
  /\ m_MovingMINDInterpolators m' = m_MovingMINDInterpolators m
  /\ (if invalidates_fixed c then m_FixedMINDFeaturesValid m' = false
      else m_FixedImage m' = m_FixedImage m
           /\ m_CachedFixedImage m' = m_CachedFixedImage m
           /\ m_FixedMINDFeaturesValid m' = m_FixedMINDFeaturesValid m)
  /\ (if invalidates_moving c then m_MovingMINDFeaturesValid m' = false
      else m_MovingImage m' = m_MovingImage m
           /\ m_CachedMovingImage m' = m_CachedMovingImage m
           /\ m_MovingMINDFeaturesValid m' = m_MovingMINDFeaturesValid m).
Proof.
  destruct c; cbn [apply_call invalidates_fixed invalidates_moving];
    try (intros H; inversion H; subst; clear H; repeat split; reflexivity).
  - intros H. apply ReinitializeSampling_frame in H.
    destruct H as [movingPtr [_ ->]]. repeat split; reflexivity.
  - destruct (GetValue m) as [[v m1]|] eqn:E; [|discriminate].
    intros H; inversion H; subst; clear H. cbn [snd].
    rewrite (GetValue_frame _ _ _ E). repeat split; reflexivity.
  - destruct (GetResiduals m) as [[r m1]|] eqn:E; [|discriminate].
    intros H; inversion H; subst; clear H. cbn [snd].
    rewrite (GetResiduals_frame _ _ _ E). repeat split; reflexivity.
  - destruct (GetResidualsAndJacobian m) as [[[r j] m1]|] eqn:E;
      [|discriminate].
    intros H; inversion H; subst; clear H. cbn [snd].
    rewrite (GetResidualsAndJacobian_frame _ _ _ _ E).
    repeat split; reflexivity.
Qed.

(** The same over a sequence of calls: a flag that was set stays set, and
    the pointers stay equal, exactly when no call of the sequence clears
    it. *)
Lemma apply_calls_cache (calls : list Call) (m m' : MINDMetric) :
  apply_calls calls m = Some m' ->
  m_FixedMINDFeatures m' = m_FixedMINDFeatures m
  /\ m_MovingMINDInterpolators m' = m_MovingMINDInterpolators m
  /\ (existsb invalidates_fixed calls = false ->
      fixed_cache_hit m' = fixed_cache_hit m)
  /\ (existsb invalidates_moving calls = false ->
      moving_cache_hit m' = moving_cache_hit m)
  /\ (existsb invalidates_fixed calls = true \/
      m_FixedMINDFeaturesValid m = false ->
      m_FixedMINDFeaturesValid m' = false)
  /\ (existsb invalidates_moving calls = true \/
      m_MovingMINDFeaturesValid m = false ->
      m_MovingMINDFeaturesValid m' = false).
Proof.
  revert m. induction calls as [|c calls IH]; intros m; cbn [apply_calls].
  - intros H; inversion H; subst. cbn [existsb].
    repeat split; try reflexivity; intros [E|E]; congruence.
  - destruct (apply_call c m) as [m1|] eqn:E; [|discriminate].
    intros H. destruct (IH m1 H) as (A1 & A2 & A3 & A4 & A5 & A6).
    destruct (apply_call_cache c m m1 E) as (B1 & B2 & B3 & B4).
    cbn [existsb].
    split; [congruence|]. split; [congruence|].
    split; [|split; [|split]].
    + intros N. apply orb_false_elim in N. destruct N as [N1 N2].
      rewrite N1 in B3. destruct B3 as (X & Y & Z).
      rewrite (A3 N2). unfold fixed_cache_hit. now rewrite X, Y, Z.
    + intros N. apply orb_false_elim in N. destruct N as [N1 N2].
      rewrite N1 in B4. destruct B4 as (X & Y & Z).
      rewrite (A4 N2). unfold moving_cache_hit. now rewrite X, Y, Z.
    + intros N. apply A5.
      destruct (existsb invalidates_fixed calls); [now left|right].
      destruct (invalidates_fixed c); [exact B3|].
      destruct B3 as (_ & _ & ->).
      destruct N as [N|N]; [discriminate|exact N].
    + intros N. apply A6.
      destruct (existsb invalidates_moving calls); [now left|right].
      destruct (invalidates_moving c); [exact B4|].
      destruct B4 as (_ & _ & ->).
      destruct N as [N|N]; [discriminate|exact N].
Qed.

(** The sampling reads four members to decide whether it is defined. *)
Lemma sampling_defined_ext (m1 m2 : MINDMetric) :
  m_FixedImage m1 = m_FixedImage m2 ->
  m_MINDRadius m1 = m_MINDRadius m2 ->
  m_UseStratifiedSampling m1 = m_UseStratifiedSampling m2 ->
  m_SamplingPercentage m1 = m_SamplingPercentage m2 ->
  sampling_defined m1 = sampling_defined m2.
Proof.
  intros A B C D. unfold sampling_defined. now rewrite A, B, C, D.
Qed.

(** A second Initialize succeeds after ResetCache whenever the first did. *)
Lemma Initialize_after_ResetCache (m m1 : MINDMetric) (log1 : list Event) :
  Initialize m = Some (m1, log1) ->
  exists m2,
    Initialize (ResetCache m1)
    = Some (m2, [ComputedFixedFeatures; ComputedMovingFeatures]).
Proof.
  intros H.
  destruct (Initialize_spec m m1 log1 H)
    as (fixedPtr & movingPtr & EF & EM & L & F1 & F2 & F3 & C1 & C2 & V1
        & V2 & I1 & I2 & I3 & P1 & P2 & P3 & P4 & P5 & P6).
  assert (D : exists m' log, Initialize m = Some (m', log))
    by (now exists m1, log1).
  apply Initialize_defined_iff in D. destruct D as (D1 & D2 & D3 & D4).
  assert (D' : exists m2 log2, Initialize (ResetCache m1) = Some (m2, log2)).
  { apply Initialize_defined_iff.
    change (m_FixedImage (ResetCache m1)) with (m_FixedImage m1).
    change (m_MovingImage (ResetCache m1)) with (m_MovingImage m1).
    change (m_Transform (ResetCache m1)) with (m_Transform m1).
    change (sampling_defined (ResetCache m1)) with (sampling_defined m1).
    rewrite I1, I2, I3. repeat split; try assumption.
    now rewrite (sampling_defined_ext m1 m I1 P1 P3 P4). }
  destruct D' as [m2 [log2 E]]. exists m2. rewrite E. f_equal. f_equal.
  destruct (Initialize_spec _ _ _ E) as (f' & g' & EF' & EM' & L' & _).
  rewrite L'. unfold fixed_cache_hit, moving_cache_hit.
  cbn [ResetCache set_MovingMINDFeaturesValid set_FixedMINDFeaturesValid
       set_CachedMovingImage set_CachedFixedImage m_CachedFixedImage
       m_CachedMovingImage m_FixedMINDFeaturesValid
       m_MovingMINDFeaturesValid].
  rewrite !andb_false_r. reflexivity.
Qed.

(** C8 (as amended): between two successful calls of Initialize let any
    sequence of other public member functions be called.  The second
    Initialize reuses the fixed bundle exactly when none of those calls is
    SetFixedImage or ResetCache, and the moving bundle exactly when none is
    SetMovingImage or ResetCache, whatever values SetMINDRadius and
    SetNeighborhoodType were given in between; a reused fixed bundle is the
    one the first Initialize left, a reused moving bundle (with its
    gradients) is the one in place before the call; a recomputed bundle is
    computed from the current image with the current parameters; afterwards
    both caches are valid; and after ResetCache alone the next Initialize
    succeeds and recomputes both bundles. *)
Theorem initialize_cache_policy (m m1 m' m2 : MINDMetric)
    (calls : list Call) (log1 log2 : list Event) :
  Initialize m = Some (m1, log1) ->
  apply_calls calls m1 = Some m' ->
  Initialize m' = Some (m2, log2) ->
  log2 = [if existsb invalidates_fixed calls
          then ComputedFixedFeatures else UsedCachedFixedFeatures;
          if existsb invalidates_moving calls
          then ComputedMovingFeatures else UsedCachedMovingFeatures]
  /\ (In UsedCachedFixedFeatures log2 <->
      existsb invalidates_fixed calls = false)
  /\ (In UsedCachedMovingFeatures log2 <->
      existsb invalidates_moving calls = false)
  /\ (existsb invalidates_fixed calls = false ->
      m_FixedMINDFeatures m2 = m_FixedMINDFeatures m1)
  /\ (existsb invalidates_moving calls = false ->
      m_MovingMINDFeatures m2 = m_MovingMINDFeatures m'
      /\ m_MovingMINDFeatureGradients m2 = m_MovingMINDFeatureGradients m'
      /\ m_MovingMINDInterpolators m2 = m_MovingMINDInterpolators m1)
  /\ (existsb invalidates_fixed calls = true ->
      exists fixedPtr, m_FixedImage m' = Some fixedPtr
        /\ m_FixedMINDFeatures m2
           = ComputeMINDFeatures (InitializeNeighborhoodOffsets m')
               (target fixedPtr))
  /\ (existsb invalidates_moving calls = true ->
      exists movingPtr, m_MovingImage m' = Some movingPtr
        /\ m_MovingMINDFeatures m2
           = ComputeMINDFeatures (InitializeNeighborhoodOffsets m')
               (target movingPtr))
  /\ fixed_cache_hit m2 = true
  /\ moving_cache_hit m2 = true
  /\ exists m3,
       Initialize (ResetCache m1)
       = Some (m3, [ComputedFixedFeatures; ComputedMovingFeatures]).
Proof.
  intros H1 HC H2.
  destruct (cache_valid_after_Initialize m m1 log1 H1) as [HF1 HM1].
  destruct (apply_calls_cache calls m1 m' HC)
    as (A1 & A2 & A3 & A4 & A5 & A6).
  destruct (Initialize_spec m' m2 log2 H2)
    as (fixedPtr & movingPtr & EF & EM & L & F1 & F2 & F3 & C1 & C2 & V1
        & V2 & I1 & I2 & I3 & P1 & P2 & P3 & P4 & P5 & P6).
  destruct (cache_valid_after_Initialize m' m2 log2 H2) as [HF2 HM2].
  assert (HitF : fixed_cache_hit m'
                 = negb (existsb invalidates_fixed calls)).
  { destruct (existsb invalidates_fixed calls) eqn:E.
    - unfold fixed_cache_hit. rewrite (A5 (or_introl eq_refl)).
      apply andb_false_r.
    - now rewrite (A3 eq_refl), HF1. }
  assert (HitM : moving_cache_hit m'
                 = negb (existsb invalidates_moving calls)).
  { destruct (existsb invalidates_moving calls) eqn:E.
    - unfold moving_cache_hit. rewrite (A6 (or_introl eq_refl)).
      apply andb_false_r.
    - now rewrite (A4 eq_refl), HM1. }
  rewrite HitF in L, F1, C1. rewrite HitM in L, F2, F3, C2, P6.
  assert (HL : log2
               = [if existsb invalidates_fixed calls
                  then ComputedFixedFeatures else UsedCachedFixedFeatures;
                  if existsb invalidates_moving calls
                  then ComputedMovingFeatures else UsedCachedMovingFeatures]).
  { rewrite L. destruct (existsb invalidates_fixed calls);
      destruct (existsb invalidates_moving calls); reflexivity. }
  split; [exact HL|].
  split; [|split].
  - rewrite HL. destruct (existsb invalidates_fixed calls);
      destruct (existsb invalidates_moving calls); split; intros X;
      cbn in *; try reflexivity; try discriminate;
      intuition (try discriminate).
  - rewrite HL. destruct (existsb invalidates_fixed calls);
      destruct (existsb invalidates_moving calls); split; intros X;
      cbn in *; try reflexivity; try discriminate;
      intuition (try discriminate).
  - split; [|split; [|split; [|split; [|split; [|split]]]]].
    + intros E. rewrite E in F1. cbn [negb] in F1. congruence.
    + intros E. rewrite E in F2, F3, P6. cbn [negb] in F2, F3, P6.
      split; [exact F2|]. split; [exact F3|]. congruence.
    + intros E. rewrite E in F1. cbn [negb] in F1.
      exists fixedPtr. split; [exact EF|exact F1].
    + intros E. rewrite E in F2. cbn [negb] in F2.
      exists movingPtr. split; [exact EM|exact F2].
    + exact HF2.
    + exact HM2.
    + exact (Initialize_after_ResetCache m m1 log1 H1).
Qed.

End Cache.

Local Abbreviation m0 := (constructed identity_transform).

Lemma sampling_defined_constructed : sampling_defined m0 = true.
Proof. vm_compute. reflexivity. Qed.

Lemma constructed_initializes :
  exists m1 log1, Initialize m0 = Some (m1, log1).
Proof.
  apply Initialize_defined_iff.
  split; [discriminate|]. split; [discriminate|]. split; [discriminate|].
  exact sampling_defined_constructed.
Qed.

(** After the first Initialize of the concrete metric, a second one
    succeeds once the members the sampling reads are known. *)
Lemma initializes_again (m1 m' : MINDMetric) (log1 : list Event)
    (radius : nat) :
  Initialize m0 = Some (m1, log1) ->
  m_FixedImage m' = Some ramp_fixed ->
  m_MovingImage m' = Some ramp_moving ->
  m_Transform m' = m_Transform m1 ->
  m_MINDRadius m' = radius ->
  m_UseStratifiedSampling m' = m_UseStratifiedSampling m1 ->
  m_SamplingPercentage m' = m_SamplingPercentage m1 ->
  sampling_defined (SetMINDRadius radius m0) = true ->
  exists m2 log2, Initialize m' = Some (m2, log2).
Proof.
  intros E A B C D F G S.
  destruct (Initialize_spec m0 m1 log1 E)
    as (fixedPtr & movingPtr & EF & EM & L & F1 & F2 & F3 & C1 & C2 & V1
        & V2 & I1 & I2 & I3 & P1 & P2 & P3 & P4 & P5 & P6).
  apply Initialize_defined_iff.
  rewrite A, B, C, I3.
  split; [discriminate|]. split; [discriminate|]. split; [discriminate|].
  rewrite <- S. apply sampling_defined_ext.
  - exact A.
  - exact D.
  - now rewrite F, P3.
  - now rewrite G, P4.
Qed.

Lemma initialize_cache_policy_witness :
  exists m1 log1 m2 log2,
    Initialize m0 = Some (m1, log1)
    /\ apply_calls [CallSetMINDRadius 2;
                    CallSetNeighborhoodType TwentySixConnected;
                    CallSetMovingImage (Some ramp_moving)] m1
       = Some (SetMovingImage (Some ramp_moving)
                 (SetNeighborhoodType TwentySixConnected
                    (SetMINDRadius 2 m1)))
    /\ Initialize (SetMovingImage (Some ramp_moving)
                     (SetNeighborhoodType TwentySixConnected
                        (SetMINDRadius 2 m1)))
       = Some (m2, log2)
    /\ log2 = [UsedCachedFixedFeatures; ComputedMovingFeatures]
    /\ m_FixedMINDFeatures m2 = m_FixedMINDFeatures m1.
Proof.
  destruct constructed_initializes as [m1 [log1 E]].
  destruct (Initialize_spec m0 m1 log1 E)
    as (_ & _ & _ & _ & _ & _ & _ & _ & _ & _ & _ & _ & I1 & _).
  destruct (initializes_again m1
              (SetMovingImage (Some ramp_moving)
                 (SetNeighborhoodType TwentySixConnected
                    (SetMINDRadius 2 m1)))
              log1 2 E I1 eq_refl eq_refl eq_refl eq_refl eq_refl)
    as [m2 [log2 E2]].
  { vm_compute. reflexivity. }
  exists m1, log1, m2, log2.
  split; [exact E|]. split; [reflexivity|]. split; [exact E2|].
  destruct (initialize_cache_policy m0 m1 _ m2
              [CallSetMINDRadius 2;
               CallSetNeighborhoodType TwentySixConnected;
               CallSetMovingImage (Some ramp_moving)]
              log1 log2 E eq_refl E2)
    as (L & _ & _ & F & _).
  split; [exact L|]. exact (F eq_refl).
Defined.

(** C8 (as stated) fails in both directions.  After a first Initialize,
    SetMINDRadius(2) changes a descriptor parameter, and the next
    Initialize still reuses both bundles; SetFixedImage with the very same
    volume changes neither reference nor parameters, and the next
    Initialize recomputes the fixed bundle. *)
Lemma cache_reuse_not_as_claimed :
  exists m1 log1,
    Initialize m0 = Some (m1, log1)
    /\ (exists m2 log2,
          Initialize (SetMINDRadius 2 m1) = Some (m2, log2)
          /\ log2 = [UsedCachedFixedFeatures; UsedCachedMovingFeatures]
          /\ ~ reuse_as_claimed m0 (SetMINDRadius 2 m1) log2)
    /\ (exists m3 log3,
          Initialize (SetFixedImage (Some ramp_fixed) m1) = Some (m3, log3)
          /\ log3 = [ComputedFixedFeatures; UsedCachedMovingFeatures]
          /\ ~ reuse_as_claimed m0 (SetFixedImage (Some ramp_fixed) m1) log3).
Proof.
  destruct constructed_initializes as [m1 [log1 E]].
  exists m1, log1. split; [exact E|].
  destruct (cache_valid_after_Initialize m0 m1 log1 E) as [HF HM].
  destruct (Initialize_spec m0 m1 log1 E)
    as (fixedPtr & movingPtr & EF & EM & L & F1 & F2 & F3 & C1 & C2 & V1
        & V2 & I1 & I2 & I3 & P1 & P2 & P3 & P4 & P5 & P6).
  cbn in I1, I2, I3, P1, P2, P3.
  split.
  - assert (D : exists m2 log2,
              Initialize (SetMINDRadius 2 m1) = Some (m2, log2)).
    { apply (initializes_again m1 (SetMINDRadius 2 m1) log1 2 E I1 I2
               eq_refl eq_refl eq_refl eq_refl).
      vm_compute. reflexivity. }
    destruct D as [m2 [log2 E2]]. exists m2, log2.
    destruct (Initialize_spec _ _ _ E2) as (_ & _ & _ & _ & L2 & _).
    change (fixed_cache_hit (SetMINDRadius 2 m1)) with (fixed_cache_hit m1)
      in L2.
    change (moving_cache_hit (SetMINDRadius 2 m1)) with (moving_cache_hit m1)
      in L2.
    rewrite HF, HM in L2.
    split; [exact E2|]. split; [exact L2|].
    intros [[H _] _]. rewrite L2 in H.
    destruct (H (or_introl eq_refl)) as (_ & R & _).
    cbn in R. discriminate.
  - assert (D : exists m3 log3,
              Initialize (SetFixedImage (Some ramp_fixed) m1)
              = Some (m3, log3)).
    { apply (initializes_again m1 (SetFixedImage (Some ramp_fixed) m1)
               log1 1 E eq_refl I2 eq_refl P1 eq_refl eq_refl).
      vm_compute. reflexivity. }
    destruct D as [m3 [log3 E3]]. exists m3, log3.
    destruct (Initialize_spec _ _ _ E3) as (_ & _ & _ & _ & L3 & _).
    change (moving_cache_hit (SetFixedImage (Some ramp_fixed) m1))
      with (moving_cache_hit m1) in L3.
    assert (HF3 : fixed_cache_hit (SetFixedImage (Some ramp_fixed) m1)
                  = false).
    { unfold fixed_cache_hit. cbn. apply andb_false_r. }
    rewrite HF3, HM in L3.
    split; [exact E3|]. split; [exact L3|].
    intros [[_ H] _]. rewrite L3 in H.
    assert (In UsedCachedFixedFeatures
              [ComputedFixedFeatures; UsedCachedMovingFeatures]).
    { apply H. cbn. rewrite P1, P2. repeat split. }
    destruct H0 as [H0|[H0|[]]]; discriminate.
Qed.

(** *** The states the interface reaches *)

Section Reachable.

Context {itk : Itk} {rng : RandomEngine} {libm : Libm}.

Lemma ComputeMINDFeatures_length (m : MINDMetric) (image : Image) :
  length (ComputeMINDFeatures m image) = length (m_NeighborhoodOffsets m).
Proof.
  assert (Hlen : length (ComputePatchDistances m image)
                 = length (m_NeighborhoodOffsets m))
    by (unfold ComputePatchDistances; apply length_map).
  unfold ComputeMINDFeatures.
  destruct (ComputePatchDistances m image) as [|dp0 rest].
  - exact Hlen.
  - now rewrite !length_map.
Qed.

Lemma ComputeMINDFeatures_nonempty (m : MINDMetric) (image : Image) :
  m_NeighborhoodOffsets m <> [] -> ComputeMINDFeatures m image <> [].
Proof.
  intros H E. apply H. apply length_zero_iff_nil.
  now rewrite <- (ComputeMINDFeatures_length m image), E.
Qed.

Lemma offsets_of_nonempty (t : NeighborhoodType) : offsets_of t <> [].
Proof. destruct t; cbn; discriminate. Qed.

Lemma apply_call_has_channels (c : Call) (m m' : MINDMetric) :
  apply_call c m = Some m' -> has_channels m -> has_channels m'.
Proof.
  unfold has_channels. intros H (A & B & C).
  destruct c; cbn [apply_call] in H;
    try (inversion H; subst; clear H; cbn; repeat split;
         first [assumption | discriminate | apply offsets_of_nonempty]).
  - apply ReinitializeSampling_frame in H.
    destruct H as [movingPtr [_ ->]]. cbn.
    pose proof (ComputeMINDFeatures_nonempty m (target movingPtr) A).
    repeat split; auto.
  - destruct (GetValue m) as [[v m1]|] eqn:E; [|discriminate].
    inversion H; subst; clear H. cbn [snd].
    rewrite (GetValue_frame _ _ _ E). cbn. auto.
  - destruct (GetResiduals m) as [[r m1]|] eqn:E; [|discriminate].
    inversion H; subst; clear H. cbn [snd].
    rewrite (GetResiduals_frame _ _ _ E). cbn. auto.
  - destruct (GetResidualsAndJacobian m) as [[[r j] m1]|] eqn:E;
      [|discriminate].
    inversion H; subst; clear H. cbn [snd].
    rewrite (GetResidualsAndJacobian_frame _ _ _ _ E). cbn. auto.
Qed.

Lemma Initialize_has_channels (m m' : MINDMetric) (log : list Event) :
  Initialize m = Some (m', log) -> has_channels m -> has_channels m'.
Proof.
  unfold has_channels. intros H (A & B & C).
  destruct (Initialize_spec m m' log H)
    as (fixedPtr & movingPtr & EF & EM & L & F1 & F2 & F3 & C1 & C2 & V1
        & V2 & I1 & I2 & I3 & P1 & P2 & P3 & P4 & P5 & P6).
  assert (HF : m_MovingMINDFeatures m' <> []).
  { rewrite F2. destruct (moving_cache_hit m) eqn:E.
    - apply B. unfold moving_cache_hit in E.
      apply andb_prop in E. now destruct E.
    - apply ComputeMINDFeatures_nonempty. cbn. apply offsets_of_nonempty. }
  split; [rewrite P5; apply offsets_of_nonempty|]. split; auto.
Qed.

(** Every state the interface reaches holds samples only together with
    moving channels. *)
Lemma reachable_has_channels (m : MINDMetric) :
  reachable m -> has_channels m.
Proof.
  induction 1 as [|c m m' _ IH E|m m' log _ IH E].
  - unfold has_channels. cbn. repeat split; [discriminate|discriminate|].
    now left.
  - exact (apply_call_has_channels c m m' E IH).
  - exact (Initialize_has_channels m m' log E IH).
Qed.

Lemma ssd_loop_total_nonneg (m : MINDMetric) (T : Point -> Point) :
  0 <= fst (ssd_loop m T).
Proof. unfold ssd_loop. apply ssd_fold_nonneg. lra. Qed.

(** The value of a state whose samples come with channels. *)
Lemma GetValue_with_channels (m : MINDMetric) (T : Point -> Point) :
  transform_in_loop m = Some T ->
  m_SamplePoints m = [] \/ m_MovingMINDFeatures m <> [] ->
  exists v m',
    GetValue m = Some (v, m')
    /\ m_CurrentValue m' = v
    /\ 0 <= v
    /\ (no_valid_sample m T -> v = 0 /\ m_NumberOfValidSamples m' = 0%nat).
Proof.
  intros HT HC. unfold GetValue, ComputeMINDSSD. rewrite HT.
  pose proof (ssd_loop_total_nonneg m T) as Htot.
  destruct (ssd_loop m T) as [total count] eqn:L. cbn [fst] in Htot.
  destruct count as [|count].
  - cbn [Nat.ltb Nat.leb]. eexists. eexists.
    split; [reflexivity|]. split; [reflexivity|]. split; [lra|].
    intros _. split; reflexivity.
  - assert (Hch : m_MovingMINDFeatures m <> []).
    { destruct HC as [HC|HC]; [|exact HC]. exfalso.
      unfold ssd_loop in L. rewrite HC in L. cbn in L. congruence. }
    assert (Hn : (S count * length (m_MovingMINDFeatures m))%nat <> 0%nat).
    { destruct (m_MovingMINDFeatures m); [congruence|]. cbn. lia. }
    change (0 <? S count)%nat with true. cbv iota.
    unfold divide. destruct (Nat.eqb_spec
      (S count * length (m_MovingMINDFeatures m)) 0) as [E|_]; [congruence|].
    eexists. eexists.
    split; [reflexivity|]. split; [reflexivity|]. split.
    + unfold Rdiv. apply Rmult_le_pos; [exact Htot|].
      left. apply Rinv_0_lt_compat. apply lt_0_INR. lia.
    + intros Hnone. exfalso. unfold ssd_loop in L.
      rewrite (ssd_fold_no_valid m T _ _ Hnone) in L. congruence.
Qed.


End Reachable.

(** *** Stratified sampling *)

Lemma cube_lt (a b : R) : 0 <= a -> a < b -> a ^ 3 < b ^ 3.
Proof.
  intros Ha Hab. simpl.
  assert (H1 : 0 < b - a) by lra.
  assert (H2 : 0 < b * b + a * b + a * a) by nra.
  assert (H3 : 0 < (b - a) * (b * b + a * b + a * a))
    by (now apply Rmult_lt_0_compat).
  nra.
Qed.

Lemma cube_le (a b : R) : 0 <= a -> a <= b -> a ^ 3 <= b ^ 3.
Proof. intros Ha Hab. apply pow_incr. lra. Qed.

Lemma cbrt_pos (x : R) : 0 < x -> 0 < real_cbrt x.
Proof.
  intros Hx. unfold real_cbrt. destruct (Rlt_dec 0 x); [|lra].
  unfold Rpower. apply exp_pos.
Qed.

Lemma cbrt_cube (x : R) : 0 < x -> real_cbrt x ^ 3 = x.
Proof.
  intros Hx. pose proof (cbrt_pos x Hx) as Hc. unfold real_cbrt in *.
  destruct (Rlt_dec 0 x); [|lra].
  rewrite <- (Rpower_pow 3 _ Hc), Rpower_mult.
  replace (/ 3 * INR 3) with 1 by (simpl; lra).
  now apply Rpower_1.
Qed.

(** The cube root lies where its cube does. *)
Lemma cbrt_ge (a x : R) : 0 <= a -> 0 < x -> a ^ 3 <= x -> a <= real_cbrt x.
Proof.
  intros Ha Hx H. destruct (Rle_lt_dec a (real_cbrt x)) as [|Hlt]; auto.
  exfalso. pose proof (cbrt_pos x Hx).
  apply cube_lt in Hlt; [|lra]. rewrite cbrt_cube in Hlt by exact Hx. lra.
Qed.

Lemma cbrt_gt (a x : R) : 0 <= a -> 0 < x -> a ^ 3 < x -> a < real_cbrt x.
Proof.
  intros Ha Hx H. destruct (Rlt_le_dec a (real_cbrt x)) as [|Hle]; auto.
  exfalso. pose proof (cbrt_pos x Hx).
  apply cube_le in Hle; [|lra]. rewrite cbrt_cube in Hle by exact Hx. lra.
Qed.

Lemma cbrt_lt (b x : R) : 0 < x -> x < b ^ 3 -> real_cbrt x < b.
Proof.
  intros Hx H. destruct (Rlt_le_dec (real_cbrt x) b) as [|Hle]; auto.
  exfalso. pose proof (cbrt_pos x Hx).
  assert (Hb : 0 <= b).
  { destruct (Rle_lt_dec 0 b); auto. exfalso.
    assert (b ^ 3 <= 0) by (simpl; nra). lra. }
  apply cube_le in Hle; [|exact Hb]. rewrite cbrt_cube in Hle by exact Hx.
  lra.
Qed.

Lemma cbrt_le (b x : R) : 0 <= b -> 0 < x -> x <= b ^ 3 -> real_cbrt x <= b.
Proof.
  intros Hb Hx H. destruct (Rle_lt_dec (real_cbrt x) b) as [|Hlt]; auto.
  exfalso. apply cube_lt in Hlt; [|exact Hb].
  rewrite cbrt_cube in Hlt by exact Hx. lra.
Qed.

(** A power of two with a non-negative exponent, as an integer. *)
Lemma powerRZ_2_nonneg (e : Z) :
  (0 <= e)%Z -> powerRZ 2 e = IZR (2 ^ e).
Proof.
  intros He. destruct e as [|p|p]; [reflexivity| |lia].
  change (2 ^ Z.pos p)%Z with (Z.pow_pos 2 p).
  now rewrite Zpower_pos_powerRZ.
Qed.

Lemma truncate_spec (x : float) (v : Z) :
  truncate x = Some v ->
  (0 <= v)%Z /\ IZR v <= Rabs (float_value x) < IZR v + 1.
Proof.
  unfold truncate, float_value.
  destruct (Prim2SF x) as [s|s| |s m e]; try discriminate.
  - intros H; inversion H; subst. rewrite Rabs_R0. split; [lia|lra].
  - set (w := if (0 <=? e)%Z then (Z.pos m * 2 ^ e)%Z
              else (Z.pos m / 2 ^ (- e))%Z).
    assert (Hm : 0 < IZR (Z.pos m)) by (apply IZR_lt; lia).
    assert (Hp : 0 < powerRZ 2 e) by (apply powerRZ_lt; lra).
    assert (Habs : Rabs ((if s then - IZR (Z.pos m) else IZR (Z.pos m))
                         * powerRZ 2 e)
                   = IZR (Z.pos m) * powerRZ 2 e).
    { rewrite Rabs_mult, (Rabs_pos_eq (powerRZ 2 e)) by lra.
      destruct s; [rewrite Rabs_Ropp|]; rewrite Rabs_pos_eq by lra;
        reflexivity. }
    rewrite Habs.
    assert (Hw : (0 <= w)%Z
                 /\ IZR w <= IZR (Z.pos m) * powerRZ 2 e < IZR w + 1).
    { unfold w. destruct (0 <=? e)%Z eqn:E.
      - apply Z.leb_le in E. rewrite (powerRZ_2_nonneg e E).
        rewrite <- mult_IZR. split; [|lra].
        apply Z.mul_nonneg_nonneg; [lia|]. apply Z.pow_nonneg. lia.
      - apply Z.leb_gt in E.
        assert (Hk : (0 <= - e)%Z) by lia.
        assert (Hpw : powerRZ 2 e = / IZR (2 ^ (- e))).
        { rewrite <- (powerRZ_2_nonneg _ Hk), <- powerRZ_neg'.
          now rewrite Z.opp_involutive. }
        rewrite Hpw.
        set (d := (2 ^ (- e))%Z).
        assert (Hd : (0 < d)%Z) by (apply Z.pow_pos_nonneg; lia).
        assert (HdR : 0 < IZR d) by (now apply IZR_lt).
        pose proof (Z.div_mod (Z.pos m) d ltac:(lia)) as Hdiv.
        pose proof (Z.mod_pos_bound (Z.pos m) d Hd) as Hmod.
        set (q := (Z.pos m / d)%Z) in *. set (r := (Z.pos m mod d)%Z) in *.
        assert (Hq : (0 <= q)%Z) by (apply Z.div_pos; lia).
        split; [exact Hq|].
        assert (HmR : IZR (Z.pos m) = IZR d * IZR q + IZR r).
        { rewrite <- mult_IZR, <- plus_IZR. now f_equal. }
        assert (Hr0 : 0 <= IZR r) by (apply IZR_le; lia).
        assert (Hr1 : IZR r < IZR d) by (apply IZR_lt; lia).
        rewrite HmR.
        replace ((IZR d * IZR q + IZR r) * / IZR d)
          with (IZR q + IZR r * / IZR d) by (field; lra).
        assert (0 <= IZR r * / IZR d).
        { apply Rmult_le_pos; [exact Hr0|].
          left. now apply Rinv_0_lt_compat. }
        assert (IZR r * / IZR d < 1).
        { apply (Rmult_lt_reg_r (IZR d)); [exact HdR|].
          rewrite Rmult_assoc, Rinv_l, Rmult_1_r, Rmult_1_l by lra.
          exact Hr1. }
        lra. }
    destruct Hw as [Hw0 Hw1].
    destruct s.
    + destruct (w =? 0)%Z eqn:E; [|discriminate].
      apply Z.eqb_eq in E. intros H; inversion H; subst.
      rewrite E in Hw1. split; [lia|exact Hw1].
    + intros H; inversion H; subst. split; [exact Hw0|exact Hw1].
Qed.

Lemma cast_unsigned_spec (bits : Z) (x : float) (v : Z) :
  cast_unsigned bits x = Some v ->
  (0 <= v < 2 ^ bits)%Z /\ IZR v <= Rabs (float_value x) < IZR v + 1.
Proof.
  unfold cast_unsigned.
  destruct (truncate x) as [w|] eqn:E; [|discriminate].
  destruct (w <? 2 ^ bits)%Z eqn:B; [|discriminate].
  intros H; inversion H; subst.
  apply Z.ltb_lt in B. destruct (truncate_spec x v E) as [H0 H1].
  split; [lia|exact H1].
Qed.

(** The truncation of a real that lies in [z, z+1). *)
Lemma Int_part_between (r : R) (z : Z) :
  IZR z <= r -> r < IZR z + 1 -> Int_part r = z.
Proof.
  intros H1 H2. symmetry. apply Int_part_spec. lra.
Qed.

(** The values of a counting loop: every [step]-th value from [from] up
    to, but not including, [bound]. *)
Lemma In_loop_values (fuel : nat) (x bound step y : Z) :
  (1 <= step)%Z -> (bound - x <= Z.of_nat fuel)%Z ->
  In y (loop_values fuel x bound step) <->
  (x <= y < bound)%Z /\ (step | y - x)%Z.
Proof.
  intros Hs. revert x; induction fuel as [|k IH]; intros x Hf; simpl.
  - split; [intros []|]. intros [H _]. lia.
  - destruct (x <? bound)%Z eqn:E.
    + apply Z.ltb_lt in E. simpl. rewrite IH by lia. split.
      * intros [<-|[H1 [q Hq]]].
        -- split; [lia|]. exists 0%Z. lia.
        -- split; [lia|]. exists (q + 1)%Z. lia.
      * intros [H1 [q Hq]].
        destruct (Z.eq_dec y x) as [->|Hne]; [now left|]. right.
        assert (Hq1 : (1 <= q)%Z) by nia.
        split; [nia|]. exists (q - 1)%Z. lia.
    + apply Z.ltb_ge in E. split; [intros []|]. intros [H _]. lia.
Qed.

Lemma In_for_range (from bound step y : Z) :
  (1 <= step)%Z ->
  In y (for_range from bound step) <->
  (from <= y < bound)%Z /\ (step | y - from)%Z.
Proof.
  intros Hs. unfold for_range. apply In_loop_values; [exact Hs|lia].
Qed.

(** The lattice of candidates. *)
Lemma In_lattice (sz : Index) (padding step x y z : Z) :
  (1 <= step)%Z ->
  In (x, y, z) (lattice sz padding step) <->
  let '(sx, sy, szz) := sz in
  ((padding <= x < sx - padding)%Z /\ (step | x - padding)%Z)
  /\ ((padding <= y < sy - padding)%Z /\ (step | y - padding)%Z)
  /\ ((padding <= z < szz - padding)%Z /\ (step | z - padding)%Z).
Proof.
  intros Hs. destruct sz as [[sx sy] szz]. unfold lattice.
  rewrite in_flat_map. split.
  - intros [z' [Hz H]]. apply in_flat_map in H. destruct H as [y' [Hy H]].
    apply in_map_iff in H. destruct H as [x' [E Hx]].
    inversion E; subst.
    apply In_for_range in Hx, Hy, Hz; auto.
  - intros [Hx [Hy Hz]]. exists z. split; [now apply In_for_range|].
    apply in_flat_map. exists y. split; [now apply In_for_range|].
    apply in_map_iff. exists x. split; [reflexivity|now apply In_for_range].
Qed.

Lemma In_firstn {A : Type} (n : nat) (l : list A) (x : A) :
  In x (firstn n l) -> In x l.
Proof.
  revert l; induction n as [|n IH]; intros l; destruct l as [|a l]; simpl;
    try tauto.
  intros [H|H]; [now left|right; now apply IH].
Qed.

(** *** The order of the visit *)

Lemma loop_values_ge (fuel : nat) (x bound step y : Z) :
  (1 <= step)%Z -> In y (loop_values fuel x bound step) -> (x <= y)%Z.
Proof.
  intros Hs. revert x; induction fuel as [|k IH]; intros x; simpl;
    [intros []|].
  destruct (x <? bound)%Z; [|intros []].
  intros [<-|H]; [lia|]. apply IH in H. lia.
Qed.

Lemma loop_values_sorted (fuel : nat) (x bound step : Z) :
  (1 <= step)%Z -> StronglySorted Z.lt (loop_values fuel x bound step).
Proof.
  intros Hs. revert x; induction fuel as [|k IH]; intros x; simpl;
    [constructor|].
  destruct (x <? bound)%Z; [|constructor].
  constructor; [apply IH|].
  apply Forall_forall. intros y Hy.
  apply (loop_values_ge _ _ _ _ _ Hs) in Hy. lia.
Qed.

Lemma StronglySorted_app {A : Type} (R : A -> A -> Prop) (l1 l2 : list A) :
  StronglySorted R l1 -> StronglySorted R l2 ->
  (forall x y, In x l1 -> In y l2 -> R x y) ->
  StronglySorted R (l1 ++ l2).
Proof.
  induction l1 as [|a l1 IH]; intros H1 H2 H; simpl; [exact H2|].
  inversion H1; subst. constructor.
  - apply IH; auto. intros x y Hx Hy. apply H; [now right|exact Hy].
  - apply Forall_app. split; [assumption|].
    apply Forall_forall. intros y Hy. apply H; [now left|exact Hy].
Qed.

Lemma StronglySorted_flat_map {A B : Type} (Q : A -> A -> Prop)
    (R : B -> B -> Prop) (f : A -> list B) (l : list A) :
  StronglySorted Q l ->
  (forall a, In a l -> StronglySorted R (f a)) ->
  (forall a b x y, Q a b -> In x (f a) -> In y (f b) -> R x y) ->
  StronglySorted R (flat_map f l).
Proof.
  induction l as [|a l IH]; intros HQ Hf HR; simpl; [constructor|].
  inversion HQ; subst. apply StronglySorted_app.
  - apply Hf. now left.
  - apply IH; auto. intros b Hb. apply Hf. now right.
  - intros x y Hx Hy. apply in_flat_map in Hy. destruct Hy as [b [Hb Hy]].
    apply (HR a b); auto.
    rewrite Forall_forall in H2. now apply H2.
Qed.

Lemma StronglySorted_map {A B : Type} (Q : A -> A -> Prop)
    (R : B -> B -> Prop) (f : A -> B) (l : list A) :
  (forall a b, Q a b -> R (f a) (f b)) ->
  StronglySorted Q l -> StronglySorted R (map f l).
Proof.
  intros H. induction 1 as [|a l Hl IH Ha]; simpl; constructor; auto.
  apply Forall_forall. intros y Hy. apply in_map_iff in Hy.
  destruct Hy as [b [<- Hb]]. apply H.
  rewrite Forall_forall in Ha. now apply Ha.
Qed.

Lemma StronglySorted_filter {A : Type} (R : A -> A -> Prop)
    (f : A -> bool) (l : list A) :
  StronglySorted R l -> StronglySorted R (filter f l).
Proof.
  induction 1 as [|a l Hl IH Ha]; simpl; [constructor|].
  destruct (f a); [|exact IH]. constructor; [exact IH|].
  apply Forall_forall. intros y Hy. apply filter_In in Hy.
  rewrite Forall_forall in Ha. now apply Ha.
Qed.

Lemma StronglySorted_firstn {A : Type} (R : A -> A -> Prop) (n : nat)
    (l : list A) :
  StronglySorted R l -> StronglySorted R (firstn n l).
Proof.
  intros H. revert n. induction H as [|a l Hl IH Ha]; intros [|n]; simpl;
    try constructor; auto.
  apply Forall_forall. intros y Hy. apply In_firstn in Hy.
  rewrite Forall_forall in Ha. now apply Ha.
Qed.

(** The lattice lists its points in the order the loops visit them. *)
Lemma lattice_sorted (sz : Index) (padding step : Z) :
  (1 <= step)%Z -> StronglySorted visited_before (lattice sz padding step).
Proof.
  intros Hs. destruct sz as [[sx sy] szz]. unfold lattice, for_range.
  apply (StronglySorted_flat_map Z.lt).
  - now apply loop_values_sorted.
  - intros z _. apply (StronglySorted_flat_map Z.lt).
    + now apply loop_values_sorted.
    + intros y _. apply (StronglySorted_map Z.lt).
      * intros a b Hab. cbn. right. split; [reflexivity|]. right. now split.
      * now apply loop_values_sorted.
    + intros a b p q Hab Hp Hq.
      apply in_map_iff in Hp, Hq.
      destruct Hp as [x1 [<- _]]. destruct Hq as [x2 [<- _]].
      cbn. right. split; [reflexivity|]. now left.
  - intros a b p q Hab Hp Hq.
    apply in_flat_map in Hp, Hq.
    destruct Hp as [y1 [_ Hp]]. destruct Hq as [y2 [_ Hq]].
    apply in_map_iff in Hp, Hq.
    destruct Hp as [x1 [<- _]]. destruct Hq as [x2 [<- _]].
    cbn. now left.
Qed.

(** A lattice with an axis whose loop is not entered has no point. *)
Lemma for_range_empty (from bound step : Z) :
  (bound <= from)%Z -> for_range from bound step = [].
Proof.
  intros H. unfold for_range.
  replace (Z.to_nat (bound - from)) with 0%nat by lia. reflexivity.
Qed.

Lemma flat_map_nil {A B : Type} (l : list A) :
  flat_map (fun _ : A => @nil B) l = [].
Proof. induction l; simpl; auto. Qed.

Lemma lattice_empty (sx sy szz padding step : Z) :
  (sx - padding <= padding \/ sy - padding <= padding
   \/ szz - padding <= padding)%Z ->
  lattice (sx, sy, szz) padding step = [].
Proof.
  intros H. unfold lattice.
  destruct (Z_le_gt_dec (szz - padding) padding) as [Hz|Hz].
  { now rewrite (for_range_empty padding (szz - padding)). }
  destruct (Z_le_gt_dec (sy - padding) padding) as [Hy|Hy].
  { rewrite (for_range_empty padding (sy - padding)) by exact Hy.
    apply flat_map_nil. }
  rewrite (for_range_empty padding (sx - padding)) by lia.
  cbn [map]. rewrite flat_map_nil. apply flat_map_nil.
Qed.

Section Sampling.

Context {itk : Itk} {rng : RandomEngine} {libm : Libm}.

(** The nested loops keep, in the order of the lattice, the candidates the
    mask lets through, until the target count is reached. *)
Lemma stratified_loop_spec (m : MINDMetric) (fixed : Image) (n : nat)
    (candidates : list Index) (samples : list SamplePoint) :
  stratified_loop m fixed n candidates samples
  = samples
    ++ map (make_sample m fixed)
         (firstn (n - length samples)
            (filter (fun idx => negb (mask_rejects m (toPhysical fixed idx)))
               candidates)).
Proof.
  revert samples; induction candidates as [|c cs IH]; intros samples; simpl.
  - now rewrite firstn_nil, app_nil_r.
  - destruct (n <=? length samples)%nat eqn:E.
    + apply Nat.leb_le in E.
      replace (n - length samples)%nat with 0%nat by lia.
      simpl. now rewrite app_nil_r.
    + apply Nat.leb_gt in E.
      destruct (mask_rejects m (toPhysical fixed c)); simpl.
      * apply IH.
      * rewrite IH, length_app. simpl.
        replace (n - length samples)%nat
          with (S (n - (length samples + 1)))%nat by lia.
        simpl. now rewrite <- app_assoc.
Qed.

(** With representable sizes and no wrapped bound, a loop is entered when
    its range is not empty. *)
Lemma enters_fits (sz padding : Z) :
  (0 <= sz < 2 ^ 64)%Z -> (0 <= padding <= sz)%Z ->
  enters sz padding = (padding <? sz - padding)%Z.
Proof.
  intros H1 H2. unfold enters, loop_bound.
  now rewrite Z.mod_small by lia.
Qed.

(** The loops that take no sample: the closed form is empty as well. *)
Lemma traversal_no_sample (sz : Index) (padding step : Z)
    (targetSamples : nat) (f : Index -> bool) :
  (0 <= padding)%Z ->
  representable sz padding = true ->
  padding_fits sz padding = true ->
  traversal sz padding targetSamples = Some false ->
  firstn targetSamples (filter f (lattice sz padding step)) = [].
Proof.
  destruct sz as [[sx sy] szz]. unfold padding_fits, traversal.
  intros Hp HR HP. rewrite HR. cbn [negb]. unfold representable in HR.
  repeat (apply andb_prop in HR; destruct HR as [HR ?]).
  repeat (apply andb_prop in HP; destruct HP as [HP ?]).
  repeat match goal with
         | H : (_ <=? _)%Z = true |- _ => apply Z.leb_le in H
         | H : (_ <? _)%Z = true |- _ => apply Z.ltb_lt in H
         end.
  rewrite !enters_fits by lia.
  destruct (padding <? szz - padding)%Z eqn:Ez; cbn [negb].
  2:{ intros _. apply Z.ltb_ge in Ez.
      rewrite lattice_empty by lia. cbn. apply firstn_nil. }
  destruct (padding <? sy - padding)%Z eqn:Ey; cbn [negb].
  2:{ intros _. apply Z.ltb_ge in Ey.
      rewrite lattice_empty by lia. cbn. apply firstn_nil. }
  destruct (padding <? sx - padding)%Z eqn:Ex; cbn [negb].
  2:{ intros _. apply Z.ltb_ge in Ex.
      rewrite lattice_empty by lia. cbn. apply firstn_nil. }
  destruct (targetSamples =? 0)%nat eqn:Et.
  - intros _. apply Nat.eqb_eq in Et. now subst.
  - match goal with
    | |- (if ?c then _ else _) = _ -> _ => destruct c; discriminate
    end.
Qed.

Lemma traversal_fits (sz : Index) (padding : Z) (targetSamples : nat) :
  representable sz padding = true ->
  padding_fits sz padding = true ->
  traversal sz padding targetSamples <> None.
Proof.
  destruct sz as [[sx sy] szz]. unfold traversal, wraps. intros HR HP.
  rewrite HR, HP. cbn [negb]. unfold padding_fits in HP.
  repeat (apply andb_prop in HP; destruct HP as [HP ?]).
  repeat match goal with
         | H : (_ <=? _)%Z = true |- _ => apply Z.leb_le in H
         end.
  replace (szz <? padding)%Z with false by (symmetry; apply Z.ltb_ge; lia).
  replace (sy <? padding)%Z with false by (symmetry; apply Z.ltb_ge; lia).
  cbn [orb].
  destruct (enters szz padding); cbn [negb]; [|discriminate].
  destruct (enters sy padding); cbn [negb]; [|discriminate].
  destruct (enters sx padding); cbn [negb]; [|discriminate].
  destruct (targetSamples =? 0)%nat; discriminate.
Qed.

(** With a target of zero the loops take no sample, whatever the step. *)
Lemma traversal_zero (sz : Index) (padding : Z) :
  representable sz padding = true ->
  padding_fits sz padding = true ->
  traversal sz padding 0 = Some false.
Proof.
  intros HR HP. pose proof (traversal_fits sz padding 0 HR HP) as HN.
  destruct sz as [[sx sy] szz]. unfold traversal in *.
  rewrite HR in *. cbn [negb] in *.
  destruct (enters szz padding); cbn [negb] in *; [|reflexivity].
  destruct (enters sy padding); cbn [negb] in *.
  2:{ destruct (wraps szz padding); [congruence|reflexivity]. }
  destruct (enters sx padding); cbn [negb] in *.
  2:{ destruct (wraps szz padding || wraps sy padding); [congruence|].
      reflexivity. }
  reflexivity.
Qed.

(** SampleFixedImageStratified in closed form. *)
Lemma SampleFixedImageStratified_eq (m : MINDMetric) (fixedPtr : Pointer)
    (targetSamples : nat) (step : Z) :
  m_FixedImage m = Some fixedPtr ->
  let fixed := target fixedPtr in
  let totalVoxels :=
    ((fst (fst (size fixed)) * snd (fst (size fixed)) * snd (size fixed))
     mod 2 ^ 64)%Z in
  let padding := (Z.of_nat (m_MINDRadius m) + 1)%Z in
  representable (size fixed) padding = true ->
  padding_fits (size fixed) padding = true ->
  targetSamples_of totalVoxels (m_SamplingPercentage m) = Some targetSamples ->
  step_of totalVoxels targetSamples = Some step ->
  counters_fit (size fixed) padding step = true ->
  SampleFixedImageStratified m
  = Some (set_SamplePoints
            (map (make_sample m fixed)
               (firstn targetSamples
                  (filter
                     (fun idx =>
                        negb (mask_rejects m (toPhysical fixed idx)))
                     (lattice (size fixed) padding step))))
            m).
Proof.
  intros EF. cbv zeta. intros HR HP HT HS HC.
  unfold SampleFixedImageStratified. rewrite EF.
  pose proof (traversal_fits _ _ targetSamples HR HP) as HN.
  pose proof (fun f => traversal_no_sample (size (target fixedPtr))
                         (Z.of_nat (m_MINDRadius m) + 1) step targetSamples f
                         ltac:(lia) HR HP) as HE.
  destruct (size (target fixedPtr)) as [[sx sy] szz] eqn:Esz.
  cbn [fst snd] in *. rewrite HT.
  destruct (traversal _ _ _) as [[|]|]; [| |congruence].
  - rewrite HS, HC, stratified_loop_spec. simpl app.
    now rewrite Nat.sub_0_r.
  - now rewrite HE.
Qed.

(** The sample count is the double product truncated. *)
Lemma targetSamples_of_spec (totalVoxels : Z) (percentage : float)
    (targetSamples : nat) :
  targetSamples_of totalVoxels percentage = Some targetSamples ->
  (Z.of_nat targetSamples < 2 ^ 64)%Z
  /\ IZR (Z.of_nat targetSamples)
     <= Rabs (float_value (to_double totalVoxels * percentage)%float)
     < IZR (Z.of_nat targetSamples) + 1.
Proof.
  unfold targetSamples_of.
  destruct (cast_unsigned 64 _) as [v|] eqn:E; [|discriminate].
  intros H; inversion H; subst.
  destruct (cast_unsigned_spec _ _ _ E) as [H0 H1].
  rewrite Z2Nat.id by lia. split; [lia|exact H1].
Qed.

(** The step is the double cube root truncated, and at least 1. *)
Lemma step_of_spec (totalVoxels : Z) (targetSamples : nat) (step : Z) :
  step_of totalVoxels targetSamples = Some step ->
  exists interval,
    step = Z.max 1 interval
    /\ (0 <= interval < 2 ^ 32)%Z
    /\ IZR interval
       <= Rabs (float_value (samplingInterval_of totalVoxels targetSamples))
       < IZR interval + 1.
Proof.
  unfold step_of.
  destruct (cast_unsigned 32 _) as [v|] eqn:E; [|discriminate].
  intros H; inversion H; subst. exists v.
  destruct (cast_unsigned_spec _ _ _ E) as [H0 H1].
  split; [reflexivity|]. split; assumption.
Qed.

Lemma map_fixedIndex_make_sample (m : MINDMetric) (fixed : Image)
    (l : list Index) :
  map fixedIndex (map (make_sample m fixed) l) = l.
Proof.
  rewrite map_map. simpl. apply map_id.
Qed.

(** C4 (as amended): with sizes and a pad [mindRadius + 1] that are values
    of their C++ types and a pad that fits in every axis, let [target] be
    the double product [double(total_voxels) * samplingPercentage]
    truncated.  With a target of zero no sample is taken.  Otherwise, with
    the step [max(1, cbrt(double(total_voxels) / double(target)) truncated)]
    and 32-bit counters that do not wrap, the sampling keeps the first
    [target] points the mask lets through of the lattice that runs in each
    axis from the pad to before [size - pad] in that step, visited with [x]
    fastest, then [y], then [z]. *)
Theorem stratified_sampling_spec (m : MINDMetric) (fixedPtr : Pointer)
    (targetSamples : nat) :
  m_FixedImage m = Some fixedPtr ->
  let fixed := target fixedPtr in
  let sx := fst (fst (size fixed)) in
  let sy := snd (fst (size fixed)) in
  let szz := snd (size fixed) in
  let totalVoxels := ((sx * sy * szz) mod 2 ^ 64)%Z in
  let padding := (Z.of_nat (m_MINDRadius m) + 1)%Z in
  let accepted :=
    fun idx => negb (mask_rejects m (toPhysical fixed idx)) in
  representable (size fixed) padding = true ->
  padding_fits (size fixed) padding = true ->
  targetSamples_of totalVoxels (m_SamplingPercentage m) = Some targetSamples ->
  IZR (Z.of_nat targetSamples)
    <= Rabs (float_value
               (to_double totalVoxels * m_SamplingPercentage m)%float)
    < IZR (Z.of_nat targetSamples) + 1
  /\ (targetSamples = 0%nat ->
      SampleFixedImageStratified m = Some (set_SamplePoints [] m))
  /\ forall step : Z,
       step_of totalVoxels targetSamples = Some step ->
       counters_fit (size fixed) padding step = true ->
       exists (interval : Z) (m' : MINDMetric),
         step = Z.max 1 interval
         /\ IZR interval
            <= Rabs (float_value
                       (cbrt (to_double totalVoxels
                              / to_double (Z.of_nat targetSamples))%float))
            < IZR interval + 1
         /\ SampleFixedImageStratified m = Some m'
         /\ m_SamplePoints m'
            = map (make_sample m fixed)
                (firstn targetSamples
                   (filter accepted (lattice (size fixed) padding step)))
         /\ map fixedIndex (m_SamplePoints m')
            = firstn targetSamples
                (filter accepted (lattice (size fixed) padding step))
         /\ (length (m_SamplePoints m') <= targetSamples)%nat
         /\ (forall s, In s (m_SamplePoints m') ->
               mask_rejects m (fixedPoint s) = false)
         /\ (forall x y z,
               In (x, y, z) (lattice (size fixed) padding step) <->
               ((padding <= x < sx - padding)%Z /\ (step | x - padding)%Z)
               /\ ((padding <= y < sy - padding)%Z
                   /\ (step | y - padding)%Z)
               /\ ((padding <= z < szz - padding)%Z
                   /\ (step | z - padding)%Z))
         /\ StronglySorted visited_before (lattice (size fixed) padding step)
         /\ StronglySorted visited_before
              (map fixedIndex (m_SamplePoints m')).
Proof.
  intros EF. cbv zeta. intros HR HP HT.
  destruct (targetSamples_of_spec _ _ _ HT) as [_ Htrunc].
  split; [exact Htrunc|]. split.
  { intros ->. unfold SampleFixedImageStratified. rewrite EF.
    pose proof (traversal_zero _ _ HR HP) as HZ.
    destruct (size (target fixedPtr)) as [[sx sy] szz].
    cbn [fst snd] in HT. rewrite HT, HZ. reflexivity. }
  intros step HS HC.
  destruct (step_of_spec _ _ _ HS) as (interval & -> & _ & Hint).
  assert (Hstep : (1 <= Z.max 1 interval)%Z) by apply Z.le_max_l.
  exists interval. eexists. split; [reflexivity|]. split; [exact Hint|].
  split; [exact (SampleFixedImageStratified_eq m fixedPtr targetSamples
                   (Z.max 1 interval) EF HR HP HT HS HC)|].
  cbn [m_SamplePoints set_SamplePoints].
  split; [reflexivity|].
  rewrite map_fixedIndex_make_sample.
  split; [reflexivity|]. split.
  { rewrite length_map. apply firstn_le_length. }
  split.
  { intros s Hs. apply in_map_iff in Hs. destruct Hs as [idx [<- Hidx]].
    apply In_firstn, filter_In in Hidx. destruct Hidx as [_ Hok].
    simpl. now apply negb_true_iff in Hok. }
  split.
  { intros x y z. rewrite (In_lattice _ _ _ x y z Hstep).
    destruct (size (target fixedPtr)) as [[sx sy] szz]. reflexivity. }
  split; [now apply lattice_sorted|].
  apply StronglySorted_firstn, StronglySorted_filter.
  now apply lattice_sorted.
Qed.

End Sampling.

Lemma stratified_sampling_witness :
  m_FixedImage m0 = Some ramp_fixed
  /\ representable (size ramp) (Z.of_nat (m_MINDRadius m0) + 1) = true
  /\ padding_fits (size ramp) (Z.of_nat (m_MINDRadius m0) + 1) = true
  /\ targetSamples_of 1000 (m_SamplingPercentage m0) = Some 150%nat
  /\ step_of 1000 150 = Some 1%Z
  /\ counters_fit (size ramp) (Z.of_nat (m_MINDRadius m0) + 1) 1 = true
  /\ exists m',
       SampleFixedImageStratified m0 = Some m'
       /\ length (m_SamplePoints m') = 150%nat.
Proof.
  assert (HT : targetSamples_of 1000 (m_SamplingPercentage m0)
               = Some 150%nat) by (vm_compute; reflexivity).
  assert (HS : step_of 1000 150 = Some 1%Z) by (vm_compute; reflexivity).
  split; [reflexivity|]. split; [reflexivity|]. split; [reflexivity|].
  split; [exact HT|]. split; [exact HS|]. split; [reflexivity|].
  destruct (stratified_sampling_spec m0 ramp_fixed 150 eq_refl eq_refl
              eq_refl HT)
    as (_ & _ & H).
  destruct (H 1%Z HS eq_refl) as (interval & m' & _ & _ & E & _ & HI & _).
  exists m'. split; [exact E|].
  rewrite <- (length_map fixedIndex), HI. vm_compute. reflexivity.
Defined.

(** The real number of a positive double with a negative exponent. *)
Lemma float_value_fraction (x : float) (m k : positive) :
  Prim2SF x = S754_finite false m (Z.neg k) ->
  float_value x = IZR (Z.pos m) / IZR (Z.pow_pos 2 k).
Proof.
  intros H. unfold float_value. rewrite H.
  change (Z.neg k) with (- Z.pos k)%Z.
  rewrite powerRZ_neg', <- Zpower_pos_powerRZ. reflexivity.
Qed.

(** C4 (as stated) fails: the sample count is the product truncated, not
    rounded (1000 voxels at 0.19 percent give 1 sample, rounding gives 2),
    and the step is the cube root truncated, not rounded up (the cube root
    of 1000/150, about 1.88, gives 1); on the 10^3 volume the code
    therefore samples index (3,2,2), which the lattice of step 2 does not
    contain. *)
Lemma stratified_sampling_truncates :
  targetSamples_of 1000 0.0019%float = Some 1%nat
  /\ targetSamples_claimed 1000 (float_value 0.0019%float) = 2%nat
  /\ targetSamples_of 1000 0.15%float = Some 150%nat
  /\ step_of 1000 150 = Some 1%Z
  /\ step_claimed 1000 150 = 2%Z
  /\ exists m',
       SampleFixedImageStratified m0 = Some m'
       /\ In (3, 2, 2)%Z (map fixedIndex (m_SamplePoints m'))
       /\ ~ In (3, 2, 2)%Z
            (lattice (10, 10, 10)%Z 2 (step_claimed 1000 150)).
Proof.
  assert (T1 : targetSamples_of 1000 0.0019%float = Some 1%nat)
    by (vm_compute; reflexivity).
  assert (T2 : targetSamples_claimed 1000 (float_value 0.0019%float)
               = 2%nat).
  { unfold targetSamples_claimed.
    erewrite float_value_fraction by (vm_compute; reflexivity).
    match goal with
    | |- context [Z.pow_pos 2 ?k] =>
        let v := eval vm_compute in (Z.pow_pos 2 k) in
        change (Z.pow_pos 2 k) with v
    end.
    rewrite (Int_part_between _ 2); [reflexivity| |]; lra. }
  assert (T3 : targetSamples_of 1000 0.15%float = Some 150%nat)
    by (vm_compute; reflexivity).
  assert (S1 : step_of 1000 150 = Some 1%Z) by (vm_compute; reflexivity).
  assert (Hx : IZR 1000 / INR 150 = 20 / 3).
  { rewrite INR_IZR_INZ. change (Z.of_nat 150) with 150%Z. lra. }
  assert (S2 : step_claimed 1000 150 = 2%Z).
  { unfold step_claimed. rewrite Hx.
    rewrite (Int_part_between _ (-2)); [reflexivity| |].
    - assert (real_cbrt (20 / 3) <= 2) by (apply cbrt_le; simpl; lra). lra.
    - assert (1 < real_cbrt (20 / 3)) by (apply cbrt_gt; simpl; lra). lra. }
  repeat (split; [assumption|]).
  eexists. split.
  { exact (SampleFixedImageStratified_eq m0 ramp_fixed 150 1 eq_refl eq_refl
             eq_refl T3 S1 eq_refl). }
  cbn [m_SamplePoints set_SamplePoints]. split.
  - rewrite map_fixedIndex_make_sample.
    vm_compute. right; left; reflexivity.
  - rewrite S2. intros H. apply In_lattice in H; [|lia].
    destruct H as [[_ [q Hq]] _]. lia.
Qed.

(** *** The value after a far translation *)

Section Samples.

Context {itk : Itk} {rng : RandomEngine} {libm : Libm}.

(** Every channel has the geometry of the image it describes. *)
Lemma ComputeMINDFeatures_geometry (m : MINDMetric) (image f : Image) :
  In f (ComputeMINDFeatures m image) ->
  size f = size image /\ toPhysical f = toPhysical image.
Proof.
  unfold ComputeMINDFeatures.
  destruct (ComputePatchDistances m image) as [|dp0 rest]; [intros []|].
  intros H. apply in_map_iff in H. destruct H as [g [<- _]].
  split; reflexivity.
Qed.

(** The stratified samples are built at points of the lattice. *)
Lemma stratified_samples_on_lattice (m m' : MINDMetric) (s : SamplePoint) :
  SampleFixedImageStratified m = Some m' ->
  In s (m_SamplePoints m') ->
  exists fixedPtr step idx,
    m_FixedImage m = Some fixedPtr
    /\ (1 <= step)%Z
    /\ In idx (lattice (size (target fixedPtr))
                 (Z.of_nat (m_MINDRadius m) + 1) step)
    /\ s = make_sample m (target fixedPtr) idx.
Proof.
  unfold SampleFixedImageStratified.
  destruct (m_FixedImage m) as [fixedPtr|]; [|discriminate].
  destruct (size (target fixedPtr)) as [[sx sy] szz] eqn:Esz.
  destruct (targetSamples_of _ _) as [targetSamples|]; [|discriminate].
  destruct (traversal _ _ _) as [[|]|]; [| |discriminate].
  - destruct (step_of _ _) as [step|] eqn:ES; [|discriminate].
    destruct (counters_fit _ _ _); [|discriminate].
    intros H; inversion H; subst; clear H.
    cbn [m_SamplePoints set_SamplePoints].
    rewrite stratified_loop_spec. cbn [app]. intros Hs.
    apply in_map_iff in Hs. destruct Hs as [idx [<- Hidx]].
    apply In_firstn, filter_In in Hidx. destruct Hidx as [Hidx _].
    exists fixedPtr, step, idx. split; [reflexivity|]. split.
    + unfold step_of in ES.
      destruct (cast_unsigned 32 _) as [v|]; [|discriminate].
      inversion ES. apply Z.le_max_l.
    + split; [rewrite Esz; exact Hidx|reflexivity].
  - intros H; inversion H; subst; clear H. intros [].
Qed.

(** The samples Initialize leaves are those of the sampling, run on a
    state with the images, the radius and the strategy of the call. *)
Lemma Initialize_sampling (m m' : MINDMetric) (log : list Event) :
  Initialize m = Some (m', log) ->
  exists mr m2,
    SampleFixedImage mr = Some m2
    /\ m_SamplePoints m' = m_SamplePoints m2
    /\ m_FixedImage mr = m_FixedImage m
    /\ m_MINDRadius mr = m_MINDRadius m
    /\ m_UseStratifiedSampling mr = m_UseStratifiedSampling m.
Proof.
  unfold Initialize.
  destruct (m_FixedImage m) as [fixedPtr|] eqn:EF; [|discriminate].
  destruct (m_MovingImage m) as [movingPtr|] eqn:EM; [|discriminate].
  destruct (m_Transform m) as [T|] eqn:ET; [|discriminate].
  pose proof (refresh_features_spec fixedPtr movingPtr
                (InitializeNeighborhoodOffsets m)) as S.
  destruct (refresh_features fixedPtr movingPtr
              (InitializeNeighborhoodOffsets m)) as [mr log1].
  cbn [fst snd] in S.
  destruct S as (_ & _ & _ & _ & _ & _ & _ & _ & S9 & _ & _ & S12 & _ & S14
                 & _).
  destruct (SampleFixedImage mr) as [m2|] eqn:ES; [|discriminate].
  intros H; inversion H; subst; clear H.
  exists mr, m2. split; [exact ES|]. split; [reflexivity|].
  cbn in S9, S12, S14. rewrite S9, S12, S14, EF. repeat split.
Qed.

End Samples.

Local Abbreviation far := (constructed far_translation).

Lemma reachable_constructed (T : Point -> Point) : reachable (constructed T).
Proof.
  unfold constructed.
  apply (reach_call (CallSetTransform (Some T)) _ _
           (reach_call (CallSetMovingImage (Some ramp_moving)) _ _
              (reach_call (CallSetFixedImage (Some ramp_fixed)) _ _
                 reach_constructor eq_refl) eq_refl) eq_refl).
Qed.

(** After Initialize of the concrete metric the samples sit on the
    lattice of pad 2 in the 10^3 volume. *)
Lemma constructed_samples (T : Point -> Point) (m1 : MINDMetric)
    (log1 : list Event) (s : SamplePoint) :
  Initialize (constructed T) = Some (m1, log1) ->
  In s (m_SamplePoints m1) ->
  exists step x y z,
    (1 <= step)%Z
    /\ In (x, y, z) (lattice (10, 10, 10)%Z 2 step)
    /\ fixedPoint s = (IZR x, IZR y, IZR z).
Proof.
  intros E Hs.
  destruct (Initialize_sampling _ m1 log1 E)
    as (mr & m2 & ES & HS & R1 & R2 & R3).
  rewrite HS in Hs.
  unfold SampleFixedImage in ES. rewrite R3 in ES.
  change (m_UseStratifiedSampling (constructed T)) with true in ES.
  cbv iota in ES.
  destruct (stratified_samples_on_lattice mr m2 s ES Hs)
    as (fp & step & idx & EF' & Hstep & Hidx & ->).
  rewrite R1 in EF'.
  change (m_FixedImage (constructed T)) with (Some ramp_fixed) in EF'.
  inversion EF'; subst fp.
  rewrite R2 in Hidx.
  destruct idx as [[x y] z].
  exists step, x, y, z. split; [exact Hstep|]. split; [exact Hidx|].
  reflexivity.
Qed.

(** The buffer test of the reference interpolator reads the size only. *)
Lemma inside_buffer_size (a b : Image) (pt : Point) :
  size a = size b -> IsInsideBuffer a pt = inside_buffer b pt.
Proof.
  intros H. change (IsInsideBuffer a pt) with (inside_buffer a pt).
  unfold inside_buffer. now rewrite H.
Qed.

(** The far translation sends the lattice out of the ramp. *)
Lemma far_translation_outside (x y z : Z) :
  (2 <= x)%Z ->
  inside_buffer ramp (far_translation (IZR x, IZR y, IZR z)) = false.
Proof.
  intros Hx. unfold inside_buffer.
  change (size ramp) with (10, 10, 10)%Z.
  cbv beta iota delta [far_translation].
  assert (Hx2 : 2 <= IZR x) by (apply IZR_le; lia).
  destruct (Rle_dec 0 (IZR x + 100)); [|reflexivity].
  destruct (Rle_dec (IZR x + 100) (IZR 10 - 1)); [lra|reflexivity].
Qed.

Lemma far_channels (m1 : MINDMetric) (log1 : list Event) :
  Initialize far = Some (m1, log1) ->
  m_MovingMINDFeatures m1
  = ComputeMINDFeatures (InitializeNeighborhoodOffsets far) ramp
  /\ m_MovingMINDInterpolators m1
     = ComputeMINDFeatures (InitializeNeighborhoodOffsets far) ramp
  /\ length (ComputeMINDFeatures (InitializeNeighborhoodOffsets far) ramp)
     = 6%nat.
Proof.
  intros E.
  destruct (Initialize_spec far m1 log1 E)
    as (fixedPtr & movingPtr & EF & EM & L & F1 & F2 & F3 & C1 & C2 & V1
        & V2 & I1 & I2 & I3 & P1 & P2 & P3 & P4 & P5 & P6).
  assert (EM' : Some ramp_moving = Some movingPtr) by exact EM.
  inversion EM'; subst movingPtr.
  assert (Hhit : moving_cache_hit far = false) by reflexivity.
  rewrite Hhit in F2, P6.
  split; [exact F2|]. split; [exact P6|].
  rewrite ComputeMINDFeatures_length. reflexivity.
Qed.

(** After Initialize with the far translation every sample is sent
    outside the buffer of the first channel. *)
Lemma far_translation_no_valid_sample (m1 : MINDMetric) (log1 : list Event) :
  Initialize far = Some (m1, log1) ->
  no_valid_sample m1 far_translation.
Proof.
  intros E. destruct (far_channels m1 log1 E) as (F2 & P6 & Hlen).
  intros s Hs. exists 0%nat. split.
  { rewrite F2, Hlen. lia. }
  destruct (constructed_samples far_translation m1 log1 s E Hs)
    as (step & x & y & z & Hstep & Hidx & Hpt).
  apply (In_lattice (10, 10, 10)%Z _ step x y z Hstep) in Hidx.
  destruct Hidx as [[Hx _] _].
  rewrite P6, Hpt. unfold interpolator_at.
  assert (Hin : In (nth 0 (ComputeMINDFeatures
                             (InitializeNeighborhoodOffsets far) ramp)
                      null_image)
                  (ComputeMINDFeatures (InitializeNeighborhoodOffsets far)
                     ramp)).
  { apply nth_In. rewrite Hlen. lia. }
  apply ComputeMINDFeatures_geometry in Hin. destruct Hin as [Hsz _].
  rewrite (inside_buffer_size _ ramp _ Hsz).
  apply far_translation_outside. lia.
Qed.


(** *** Values, residuals and the Jacobian *)

Section Queries.

Context {itk : Itk} {rng : RandomEngine} {libm : Libm}.

(** The channel loop of the value is the validity test of the residuals
    followed by the sum of their squares. *)
Lemma channel_loop_residuals (m : MINDMetric) (sample : SamplePoint)
    (tp : Point) (chs : list nat) (acc : R) :
  channel_loop m sample tp chs acc
  = if forallb (fun ch =>
                  IsInsideBuffer
                    (interpolator_at (m_MovingMINDInterpolators m) ch) tp)
               chs
    then Some (acc + Rsum (map (fun r => r * r)
                             (map (residual_at m sample tp) chs)))
    else None.
Proof.
  revert acc; induction chs as [|ch chs IH]; intros acc; simpl.
  - f_equal. lra.
  - destruct (IsInsideBuffer _ tp); simpl; [|reflexivity].
    rewrite IH. destruct (forallb _ chs); [|reflexivity].
    f_equal. unfold residual_at. lra.
Qed.

Lemma Rsum_app (l1 l2 : list R) : Rsum (l1 ++ l2) = Rsum l1 + Rsum l2.
Proof.
  induction l1 as [|a l1 IH]; simpl; [lra|]. unfold Rsum in *. simpl.
  rewrite IH. lra.
Qed.

(** The two sample loops run in step. *)
Lemma loops_in_step (m : MINDMetric) (T : Point -> Point)
    (samples : list SamplePoint) (total : R) (residuals : list R)
    (count : nat) :
  let C := length (m_MovingMINDFeatures m) in
  total = Rsum (map (fun r => r * r) residuals) ->
  length residuals = (count * C)%nat ->
  let '(total', count') :=
    fold_left
      (fun (acc : R * nat) sample =>
         let '(totalSSD, validCount) := acc in
         match channel_loop m sample (T (fixedPoint sample)) (seq 0 C) 0 with
         | Some sampleSSD => (totalSSD + sampleSSD, S validCount)
         | None => (totalSSD, validCount)
         end)
      samples (total, count) in
  let '(residuals', count'') :=
    fold_left
      (fun (acc : list R * nat) sample =>
         let '(residuals, validCount) := acc in
         let transformedPoint := T (fixedPoint sample) in
         if all_channels_inside m transformedPoint then
           (residuals
              ++ map (residual_at m sample transformedPoint) (seq 0 C),
            S validCount)
         else (residuals, validCount))
      samples (residuals, count) in
  count' = count''
  /\ total' = Rsum (map (fun r => r * r) residuals')
  /\ length residuals' = (count' * C)%nat.
Proof.
  cbv zeta.
  revert total residuals count.
  induction samples as [|s samples IH]; intros total residuals count Ht Hl;
    simpl.
  - auto.
  - rewrite channel_loop_residuals. unfold all_channels_inside.
    destruct (forallb _ (seq 0 (length (m_MovingMINDFeatures m)))).
    + apply IH.
      * rewrite map_app, Rsum_app, Ht. lra.
      * rewrite length_app, length_map, length_seq, Hl. simpl. lia.
    + now apply IH.
Qed.

(** X11: the value is the mean of the squared residuals: GetValue and
    GetResiduals count the same valid samples, GetResiduals returns one
    residual per valid sample and channel, and the value is the sum of
    their squares divided by their number (0 when there is none). *)
Theorem value_is_mean_squared_residual (m m1 m2 : MINDMetric) (v : R)
    (residuals : list R) :
  GetValue m = Some (v, m1) ->
  GetResiduals m = Some (residuals, m2) ->
  m_NumberOfValidSamples m1 = m_NumberOfValidSamples m2
  /\ length residuals
     = (m_NumberOfValidSamples m2 * length (m_MovingMINDFeatures m))%nat
  /\ (residuals = [] -> v = 0)
  /\ (residuals <> [] ->
      v = Rsum (map (fun r => r * r) residuals) / INR (length residuals)).
Proof.
  unfold GetValue, ComputeMINDSSD, GetResiduals, ssd_loop.
  destruct (transform_in_loop m) as [T|]; [|discriminate].
  pose proof (loops_in_step m T (m_SamplePoints m) 0 [] 0 eq_refl eq_refl)
    as H.
  destruct (fold_left _ (m_SamplePoints m) (0, 0%nat)) as [total count].
  destruct (fold_left _ (m_SamplePoints m) ([], 0%nat)) as [rs count'].
  destruct H as (Hc & Ht & Hl). subst count'.
  destruct (0 <? count)%nat eqn:E.
  - unfold divide.
    destruct (Nat.eqb_spec (count * length (m_MovingMINDFeatures m)) 0)
      as [Z|NZ]; [discriminate|].
    intros H1 H2; inversion H1; inversion H2; subst; clear H1 H2.
    cbn. split; [reflexivity|]. split; [exact Hl|]. split.
    + intros ->. simpl in Hl. lia.
    + intros _. now rewrite Hl.
  - apply Nat.ltb_ge in E. assert (count = 0%nat) by lia. subst count.
    intros H1 H2; inversion H1; inversion H2; subst; clear H1 H2.
    cbn. split; [reflexivity|]. split; [exact Hl|]. split; [reflexivity|].
    intros Hne. exfalso. apply Hne. simpl in Hl.
    now destruct residuals.
Qed.

Lemma jacobian_row_length (m : MINDMetric) (tp : Point)
    (tj : list (R * R * R)) (ch : nat) :
  length (jacobian_row m tp tj ch) = m_NumberOfParameters m.
Proof.
  unfold jacobian_row.
  destruct (gradient_interpolators_at _ ch) as [[gx gy] gz].
  now rewrite length_map, length_seq.
Qed.


End Queries.

(** *** What the samplings leave *)

Section MoreSampling.

Context {itk : Itk} {rng : RandomEngine} {libm : Libm}.

(** The random loop appends samples built at indices the mask lets
    through, and stops at the target. *)
Lemma random_loop_samples (m : MINDMetric) (fixed : Image)
    (targetSamples : nat) (padding : Z) (attempts : nat) (gen : Generator)
    (samples : list SamplePoint) :
  let r := fst (random_loop m fixed targetSamples padding attempts gen
                  samples) in
  (length r <= Nat.max targetSamples (length samples))%nat
  /\ forall s, In s r ->
       In s samples
       \/ exists idx, s = make_sample m fixed idx
                      /\ mask_rejects m (toPhysical fixed idx) = false.
Proof.
  cbv zeta. revert gen samples.
  induction attempts as [|k IH]; intros gen samples; simpl.
  - split; [lia|auto].
  - destruct (targetSamples <=? length samples)%nat eqn:E; simpl.
    + split; [lia|auto].
    + apply Nat.leb_gt in E.
      destruct (size fixed) as [[sx sy] szz].
      destruct (uniform_int padding (sx - padding - 1) gen) as [x g1].
      destruct (uniform_int padding (sy - padding - 1) g1) as [y g2].
      destruct (uniform_int padding (szz - padding - 1) g2) as [z g3].
      destruct (mask_rejects m (toPhysical fixed (x, y, z))) eqn:M.
      * apply IH.
      * destruct (IH g3 (samples ++ [make_sample m fixed (x, y, z)]))
          as [H1 H2].
        rewrite length_app in H1. simpl in H1. split; [lia|].
        intros s Hs. destruct (H2 s Hs) as [Hin|Hnew]; [|now right].
        apply in_app_or in Hin. destruct Hin as [Hin|[<-|[]]]; [now left|].
        right. now exists (x, y, z).
Qed.

(** What either strategy leaves as samples. *)
Lemma SampleFixedImage_samples (m m' : MINDMetric) :
  SampleFixedImage m = Some m' ->
  exists (fixedPtr : Pointer) (targetSamples : nat),
    m_FixedImage m = Some fixedPtr
    /\ (let '(sx, sy, szz) := size (target fixedPtr) in
        targetSamples_of ((sx * sy * szz) mod 2 ^ 64)
          (m_SamplingPercentage m)) = Some targetSamples
    /\ (length (m_SamplePoints m') <= targetSamples)%nat
    /\ forall s, In s (m_SamplePoints m') ->
         fixedPoint s = toPhysical (target fixedPtr) (fixedIndex s)
         /\ fixedMINDValues s
            = map (fun f => pixel f (fixedIndex s)) (m_FixedMINDFeatures m)
         /\ mask_rejects m (fixedPoint s) = false.
Proof.
  unfold SampleFixedImage, SampleFixedImageStratified, SampleFixedImageRandom.
  destruct (m_UseStratifiedSampling m);
    (destruct (m_FixedImage m) as [fixedPtr|]; [|discriminate]);
    destruct (size (target fixedPtr)) as [[sx sy] szz] eqn:Esz;
    (destruct (targetSamples_of _ _) as [targetSamples|] eqn:ET;
       [|discriminate]).
  - destruct (traversal _ _ _) as [[|]|]; [| |discriminate].
    + destruct (step_of _ _) as [step|]; [|discriminate].
      destruct (counters_fit _ _ _); [|discriminate].
      intros H; inversion H; subst; clear H.
      exists fixedPtr, targetSamples. split; [reflexivity|].
      split; [rewrite Esz; exact ET|]. cbn [m_SamplePoints set_SamplePoints].
      rewrite stratified_loop_spec. cbn [app]. rewrite Nat.sub_0_r. split.
      * rewrite length_map. apply firstn_le_length.
      * intros s Hs. apply in_map_iff in Hs. destruct Hs as [idx [<- Hidx]].
        apply In_firstn, filter_In in Hidx. destruct Hidx as [_ Hok].
        cbn. repeat split. now apply negb_true_iff in Hok.
    + intros H; inversion H; subst; clear H.
      exists fixedPtr, targetSamples. split; [reflexivity|].
      split; [rewrite Esz; exact ET|]. cbn. split; [lia|intros s []].
  - pose proof (random_loop_samples m (target fixedPtr) targetSamples
                  (Z.of_nat (m_MINDRadius m) + 1) (targetSamples * 3)
                  (m_RandomGenerator m) []) as R.
    destruct (random_loop _ _ _ _ _ _ _) as [samples gen].
    cbn [fst] in R. destruct R as [R1 R2].
    intros H; inversion H; subst; clear H.
    exists fixedPtr, targetSamples. split; [reflexivity|].
    split; [rewrite Esz; exact ET|]. cbn. split; [simpl in R1; lia|].
    intros s Hs. destruct (R2 s Hs) as [[]|[idx [-> Hok]]].
    cbn. repeat split. exact Hok.
Qed.

(** X13: the samples of either strategy are consistent: there are at
    most as many as the target, and each one holds the physical point of
    its index, the values of the fixed channels at its index, and a point
    the mask lets through. *)
Theorem samples_are_consistent (m m' : MINDMetric) :
  SampleFixedImage m = Some m' ->
  exists (fixedPtr : Pointer) (targetSamples : nat),
    m_FixedImage m = Some fixedPtr
    /\ (let '(sx, sy, szz) := size (target fixedPtr) in
        targetSamples_of ((sx * sy * szz) mod 2 ^ 64)
          (m_SamplingPercentage m)) = Some targetSamples
    /\ (length (m_SamplePoints m') <= targetSamples)%nat
    /\ forall s, In s (m_SamplePoints m') ->
         fixedPoint s = toPhysical (target fixedPtr) (fixedIndex s)
         /\ fixedMINDValues s
            = map (fun f => pixel f (fixedIndex s)) (m_FixedMINDFeatures m)
         /\ mask_rejects m (fixedPoint s) = false.
Proof. exact (SampleFixedImage_samples m m'). Qed.

(** X14: ReinitializeSampling recomputes the moving channels and their
    gradients from the current moving image with the current offsets and
    draws the samples again, but it leaves the interpolators of the value
    on the channels they were set on, and it touches neither the fixed
    bundle nor the validity flags nor the cached pointers. *)
Theorem ReinitializeSampling_keeps_interpolators (m m' : MINDMetric) :
  ReinitializeSampling m = Some m' ->
  exists movingPtr,
    m_MovingImage m = Some movingPtr
    /\ m_MovingMINDFeatures m' = ComputeMINDFeatures m (target movingPtr)
    /\ m_MovingMINDFeatureGradients m'
       = map GradientImageFilter (ComputeMINDFeatures m (target movingPtr))
    /\ m_MovingMINDFeatureGradientInterpolators m'
       = map GradientImageFilter (ComputeMINDFeatures m (target movingPtr))
    /\ m_MovingMINDInterpolators m' = m_MovingMINDInterpolators m
    /\ m_FixedMINDFeatures m' = m_FixedMINDFeatures m
    /\ m_FixedMINDFeaturesValid m' = m_FixedMINDFeaturesValid m
    /\ m_MovingMINDFeaturesValid m' = m_MovingMINDFeaturesValid m
    /\ m_CachedFixedImage m' = m_CachedFixedImage m
    /\ m_CachedMovingImage m' = m_CachedMovingImage m.
Proof.
  intros H. apply ReinitializeSampling_frame in H.
  destruct H as [movingPtr [E ->]]. exists movingPtr.
  split; [exact E|]. cbn. repeat split.
Qed.

(** The state the sampling of Initialize runs on. *)
Lemma Initialize_sampling_state (m m' : MINDMetric) (log : list Event) :
  Initialize m = Some (m', log) ->
  exists mr m2,
    SampleFixedImage mr = Some m2
    /\ m_SamplePoints m' = m_SamplePoints m2
    /\ m_FixedMINDFeatures mr = m_FixedMINDFeatures m'.
Proof.
  unfold Initialize.
  destruct (m_FixedImage m) as [fixedPtr|] eqn:EF; [|discriminate].
  destruct (m_MovingImage m) as [movingPtr|] eqn:EM; [|discriminate].
  destruct (m_Transform m) as [T|] eqn:ET; [|discriminate].
  destruct (refresh_features fixedPtr movingPtr
              (InitializeNeighborhoodOffsets m)) as [mr log1].
  destruct (SampleFixedImage mr) as [m2|] eqn:ES; [|discriminate].
  intros H; inversion H; subst; clear H.
  exists mr, m2. split; [exact ES|]. split; [reflexivity|].
  rewrite (SampleFixedImage_frame mr m2 ES). reflexivity.
Qed.

(** X15: a change of the neighbourhood type between two calls of
    Initialize leaves the bundles with different numbers of channels: the
    fixed bundle, computed by the first call, is reused with one channel
    per offset of the old type, and so are the fixed values of the new
    samples, while the moving bundle and its interpolators, recomputed
    after SetMovingImage, have one channel per offset of the new type. *)
Theorem neighbourhood_change_splits_channel_counts (m m1 m2 : MINDMetric)
    (log1 log2 : list Event) (t : NeighborhoodType)
    (movingImage : option Pointer) :
  m_FixedMINDFeaturesValid m = false ->
  Initialize m = Some (m1, log1) ->
  Initialize (SetMovingImage movingImage (SetNeighborhoodType t m1))
  = Some (m2, log2) ->
  length (m_FixedMINDFeatures m2) = length (offsets_of (m_NeighborhoodType m))
  /\ length (m_MovingMINDFeatures m2) = length (offsets_of t)
  /\ length (m_MovingMINDInterpolators m2) = length (offsets_of t)
  /\ forall s, In s (m_SamplePoints m2) ->
       length (fixedMINDValues s)
       = length (offsets_of (m_NeighborhoodType m)).
Proof.
  intros V H1 H2.
  destruct (cache_valid_after_Initialize m m1 log1 H1) as [HF1 _].
  destruct (Initialize_spec m m1 log1 H1)
    as (fixedPtr & movingPtr & EF & EM & L & F1 & F2 & F3 & C1 & C2 & V1
        & V2 & I1 & I2 & I3 & P1 & P2 & P3 & P4 & P5 & P6).
  assert (Hmiss : fixed_cache_hit m = false).
  { unfold fixed_cache_hit. rewrite V. apply andb_false_r. }
  rewrite Hmiss in F1.
  assert (Hlen1 : length (m_FixedMINDFeatures m1)
                  = length (offsets_of (m_NeighborhoodType m))).
  { rewrite F1, ComputeMINDFeatures_length. reflexivity. }
  destruct (Initialize_spec _ m2 log2 H2)
    as (fixedPtr' & movingPtr' & EF' & EM' & L' & F1' & F2' & F3' & C1'
        & C2' & V1' & V2' & I1' & I2' & I3' & P1' & P2' & P3' & P4' & P5'
        & P6').
  change (fixed_cache_hit (SetMovingImage movingImage
                             (SetNeighborhoodType t m1)))
    with (fixed_cache_hit m1) in F1'.
  rewrite HF1 in F1'. cbn in F1'.
  assert (HmissM : moving_cache_hit (SetMovingImage movingImage
                                       (SetNeighborhoodType t m1)) = false).
  { unfold moving_cache_hit. cbn. apply andb_false_r. }
  rewrite HmissM in F2', P6'.
  assert (HF : length (m_FixedMINDFeatures m2)
               = length (offsets_of (m_NeighborhoodType m)))
    by (now rewrite F1').
  split; [exact HF|]. split.
  { rewrite F2', ComputeMINDFeatures_length. reflexivity. }
  split.
  { rewrite P6', ComputeMINDFeatures_length. reflexivity. }
  intros s Hs.
  destruct (Initialize_sampling_state _ m2 log2 H2)
    as (mr & m3 & ES & HS & HFr).
  rewrite HS in Hs.
  destruct (SampleFixedImage_samples mr m3 ES)
    as (fp & n & _ & _ & _ & Hall).
  destruct (Hall s Hs) as (_ & Hv & _).
  now rewrite Hv, length_map, HFr.
Qed.

End MoreSampling.

(** *** The queries on the concrete metric *)

Section Totality.

Context {itk : Itk} {rng : RandomEngine} {libm : Libm}.

Lemma GetResiduals_defined (m : MINDMetric) (T : Point -> Point) :
  transform_in_loop m = Some T ->
  exists residuals m', GetResiduals m = Some (residuals, m').
Proof.
  intros HT. unfold GetResiduals. rewrite HT.
  destruct (fold_left _ _ _) as [rs n]. eexists. eexists. reflexivity.
Qed.

Lemma GetResidualsAndJacobian_defined (m : MINDMetric) (T : Point -> Point)
    (jf : Point -> list (R * R * R)) :
  m_JacobianFunction m = Some jf ->
  transform_in_loop m = Some T ->
  exists residuals jacobian m',
    GetResidualsAndJacobian m = Some (residuals, jacobian, m').
Proof.
  intros HJ HT. unfold GetResidualsAndJacobian. rewrite HJ, HT.
  destruct (fold_left _ _ _) as [[rs J] n].
  eexists. eexists. eexists. reflexivity.
Qed.

End Totality.

Local Abbreviation one := (one_sample_metric identity_transform).

Lemma value_is_mean_squared_residual_witness :
  exists v m1 residuals m2,
    GetValue one = Some (v, m1)
    /\ GetResiduals one = Some (residuals, m2)
    /\ m_NumberOfValidSamples m1 = m_NumberOfValidSamples m2
    /\ length residuals = (m_NumberOfValidSamples m2 * 1)%nat.
Proof.
  assert (HT : transform_in_loop one = Some identity_transform)
    by reflexivity.
  assert (HC : m_SamplePoints one = [] \/ m_MovingMINDFeatures one <> [])
    by (right; discriminate).
  destruct (GetValue_with_channels one identity_transform HT HC)
    as (v & m1 & E1 & _).
  destruct (GetResiduals_defined one identity_transform HT)
    as (rs & m2 & E2).
  exists v, m1, rs, m2.
  destruct (value_is_mean_squared_residual one m1 m2 v rs E1 E2)
    as (A & B & _).
  split; [exact E1|]. split; [exact E2|]. split; [exact A|exact B].
Defined.


Lemma samples_are_consistent_witness :
  exists m',
    SampleFixedImage m0 = Some m'
    /\ forall s, In s (m_SamplePoints m') ->
         fixedPoint s = toPhysical ramp (fixedIndex s).
Proof.
  destruct (SampleFixedImage_defined m0 sampling_defined_constructed)
    as [m' E].
  exists m'. split; [exact E|].
  destruct (samples_are_consistent m0 m' E)
    as (fp & n & EF & _ & _ & H).
  assert (EF' : Some ramp_fixed = Some fp) by exact EF.
  inversion EF'; subst fp.
  intros s Hs. exact (proj1 (H s Hs)).
Defined.

Lemma ReinitializeSampling_keeps_interpolators_witness :
  exists m',
    ReinitializeSampling m0 = Some m'
    /\ m_MovingMINDFeatures m' = ComputeMINDFeatures m0 ramp
    /\ m_MovingMINDInterpolators m' = [].
Proof.
  assert (D : exists m', ReinitializeSampling m0 = Some m').
  { unfold ReinitializeSampling.
    change (m_MovingImage m0) with (Some ramp_moving). cbv iota beta.
    apply SampleFixedImage_defined.
    rewrite <- sampling_defined_constructed.
    apply sampling_defined_ext; reflexivity. }
  destruct D as [m' E]. exists m'. split; [exact E|].
  destruct (ReinitializeSampling_keeps_interpolators m0 m' E)
    as (mp & EM & F & _ & _ & I & _).
  assert (EM' : Some ramp_moving = Some mp) by exact EM.
  inversion EM'; subst mp.
  split; [exact F|exact I].
Defined.

Lemma neighbourhood_change_witness :
  exists m1 log1 m2 log2,
    Initialize m0 = Some (m1, log1)
    /\ Initialize (SetMovingImage (Some ramp_moving)
                     (SetNeighborhoodType TwentySixConnected m1))
       = Some (m2, log2)
    /\ length (m_FixedMINDFeatures m2) = 6%nat
    /\ length (m_MovingMINDFeatures m2) = 26%nat.
Proof.
  destruct constructed_initializes as [m1 [log1 E]].
  destruct (Initialize_spec m0 m1 log1 E)
    as (_ & _ & _ & _ & _ & _ & _ & _ & _ & _ & _ & _ & I1 & _ & _ & P1 & _).
  destruct (initializes_again m1
              (SetMovingImage (Some ramp_moving)
                 (SetNeighborhoodType TwentySixConnected m1))
              log1 1 E I1 eq_refl eq_refl P1 eq_refl eq_refl)
    as [m2 [log2 E2]].
  { vm_compute. reflexivity. }
  exists m1, log1, m2, log2. split; [exact E|]. split; [exact E2|].
  destruct (neighbourhood_change_splits_channel_counts m0 m1 m2 log1 log2
              TwentySixConnected (Some ramp_moving) eq_refl E E2)
    as (A & B & _).
  split; [exact A|exact B].
Defined.

End MINDProps.
